(** * Sports prediction model: odds conversion, rolling form, training,
      expected value and backtest

    A shallow embedding of the in-browser modelling engine of the
    repository (the React component [SportsPredictionModel]) and the
    properties its specification states about it.

    JavaScript numbers are IEEE 754 binary64 values; they are embedded as
    Rocq's primitive [float], whose [+ - * / sqrt] and comparisons are the
    same correctly rounded binary64 operations.  Rows of game data are
    JavaScript objects and are embedded as finite maps from field names to
    JavaScript values.  Built-ins of the JavaScript engine that have no
    closed form ([Math.exp], the string-to-number parsers, number printing,
    [Date] parsing and [Array.prototype.sort]) are the fields of the class
    [Host]: every universally quantified theorem holds for every host. *)

From Stdlib Require Import Floats ZArith QArith Bool Lia.
From stdpp Require Import base option list strings gmap.

Set Warnings "-inexact-float".
Set Default Proof Using "Type".

(* ================================================================== *)
(** * Part I. Definitions                                              *)
(* ================================================================== *)

(** ** JavaScript numbers *)

Module JSNum.
Local Open Scope float_scope.

(** [Number.isFinite(x)], [Number.isNaN(x)] on a number. *)
Definition Number_isFinite (x : float) : bool := PrimFloat.is_finite x.
Definition Number_isNaN (x : float) : bool := PrimFloat.is_nan x.

(** ToBoolean on a number: false for [+0], [-0] and [NaN]. *)
Definition truthy_num (x : float) : bool := negb (PrimFloat.is_nan x || (x =? 0)).

(** The number denoted by an integer, correctly rounded (exact below 2^53). *)
Definition fromZ (z : Z) : float := SF2Prim (binary_normalize prec emax z 0 false).
Definition fromNat (n : nat) : float := fromZ (Z.of_nat n).

(** [Math.max(a, b)] and [Math.min(a, b)]: NaN when an argument is NaN,
    and [+0] is larger than [-0]. *)
Definition Math_max (a b : float) : float :=
  if PrimFloat.is_nan a || PrimFloat.is_nan b then nan
  else if a <? b then b
  else if b <? a then a
  else match classify a with NZero => b | _ => a end.

Definition Math_min (a b : float) : float :=
  if PrimFloat.is_nan a || PrimFloat.is_nan b then nan
  else if a <? b then a
  else if b <? a then b
  else match classify a with PZero => b | _ => a end.

(** [Math.round(x)]: the integer nearest to [x], a tie going towards
    [+Infinity]; [-0] for [-0.5 <= x < 0]; integers, infinities and NaN are
    returned as they are.  A finite [x] is [(-1)^s * m * 2^e], so for [e < 0]
    the result is [floor ((2 * (+-m) + 2^-e) / 2^(1-e))], computed in [Z]. *)
Definition Math_round (x : float) : float :=
  match Prim2SF x with
  | S754_finite s m e =>
      if (0 <=? e)%Z then x
      else
        let n := if s then Z.neg m else Z.pos m in
        let r := ((2 * n + 2 ^ (- e)) / 2 ^ (1 - e))%Z in
        if (r =? 0)%Z then (if s then (-0) else 0) else fromZ r
  | _ => x
  end.

(** The number printed by [x.toFixed(1)] and read back by [parseFloat]:
    [toFixed(1)] prints [n / 10] for the integer [n] nearest to [|x| * 10]
    (the larger one on a tie) with the sign of [x], and [parseFloat] returns
    the double nearest to that decimal, which is the correctly rounded
    quotient of [n] by 10 ([n < 2^53]).  From [2^49] on, doubles are at least
    0.125 apart, so the double nearest to a decimal within 0.05 of [x] is [x]
    itself (and from [10^21] on [toFixed] prints [x] in full); NaN and the
    infinities print as themselves; [-0] prints as ["0.0"]. *)
Definition toFixed1 (x : float) : float :=
  match Prim2SF x with
  | S754_finite s m e =>
      if abs x <? 562949953421312 then
        let n := if (0 <=? e)%Z then (Z.pos m * 10 * 2 ^ e)%Z
                 else ((20 * Z.pos m + 2 ^ (- e)) / 2 ^ (1 - e))%Z in
        let v := fromZ n / 10 in
        if s then - v else v
      else x
  | S754_zero _ => 0
  | _ => x
  end.

End JSNum.
Export JSNum.

(** ** JavaScript values and rows *)

(** The values a row of uploaded or stored game data holds: a CSV cell is
    the empty string, a number or another string; a missing column reads as
    [undefined]; JSON storage can hold [null]. *)
Inductive jsval : Type :=
| JUndefined
| JNull
| JNum (x : float)
| JStr (s : string).

(** A row is a plain object: a finite map from field names to values. *)
Abbreviation row := (gmap string jsval).

(** [row.f] (also [row[f]]): a missing field reads as [undefined]. *)
Definition field (r : row) (f : string) : jsval := default JUndefined (r !! f).

(** ToBoolean. *)
Definition truthy (v : jsval) : bool :=
  match v with
  | JUndefined | JNull => false
  | JNum x => truthy_num x
  | JStr s => negb (String.eqb s EmptyString)
  end.

(** [a || b] on values. *)
Definition js_or (a b : jsval) : jsval := if truthy a then a else b.

(** [v === undefined || v === null || v === ''] *)
Definition is_blank (v : jsval) : bool :=
  match v with
  | JUndefined | JNull => true
  | JStr s => String.eqb s EmptyString
  | JNum _ => false
  end.

(** [v === n] for a number literal [n], and [v === 's'] for a string literal. *)
Definition strict_eq_num (v : jsval) (n : float) : bool :=
  match v with JNum x => (x =? n)%float | _ => false end.
Definition strict_eq_str (v : jsval) (s : string) : bool :=
  match v with JStr t => String.eqb t s | _ => false end.

(** [s.includes(sub)] on strings. *)
Fixpoint includes (s sub : string) : bool :=
  String.prefix sub s ||
  match s with
  | EmptyString => false
  | String _ rest => includes rest sub
  end.

(** ** The JavaScript engine's built-ins *)

Class Host : Type := {
  (** [Math.exp] (implementation-approximated in ECMAScript). *)
  Math_exp : float -> float;
  (** [Number(s)] for a non-empty string [s]. *)
  StringToNumber : string -> float;
  (** [parseFloat(s)] for a non-empty string [s]. *)
  parseFloat_string : string -> float;
  (** [String(x)] for a number, as used for property keys. *)
  NumberToString : float -> string;
  (** The time value of [new Date(v)]. *)
  Date_value : jsval -> float;
  (** The time value of [new Date(`${year}-W${String(week).padStart(2, '0')}`)]. *)
  Date_of_week : jsval -> jsval -> float;
  (** [[...xs].sort(cmp)]. *)
  Array_sort : (row -> row -> float) -> list row -> list row
}.

Section Conversions.
Context `{Host}.
Local Open Scope float_scope.

(** [Number(v)]. *)
Definition Number (v : jsval) : float :=
  match v with
  | JUndefined => nan
  | JNull => 0
  | JNum x => x
  | JStr s => if String.eqb s EmptyString then 0 else StringToNumber s
  end.

(** [parseFloat(v)]: the argument is first printed; a number reads back as
    itself, except that [-0] prints as ["0"]. *)
Definition parseFloat (v : jsval) : float :=
  match v with
  | JUndefined | JNull => nan
  | JNum x => match classify x with NZero => 0 | _ => x end
  | JStr s => if String.eqb s EmptyString then nan else parseFloat_string s
  end.

(** The property key [obj[v]] is looked up under. *)
Definition ToKey (v : jsval) : string :=
  match v with
  | JUndefined => "undefined"
  | JNull => "null"
  | JNum x => NumberToString x
  | JStr s => s
  end.

End Conversions.

(** ** Odds conversion (unnamed/part_001, lines 256-276) *)

Section Odds.
Context `{Host}.
Local Open Scope float_scope.

(** [const sigmoid = (z) => 1 / (1 + Math.exp(-z));] *)
Definition sigmoid (z : float) : float := 1 / (1 + Math_exp (- z)).

Definition moneylineToFairProb (ml : jsval) : float :=
  let num := Number ml in
  if negb (Number_isFinite num) then 0.5
  else if 0 <? num then 100 / (num + 100)
  else
    let neg := abs num in
    neg / (neg + 100).

Definition removeVig (p1 p2 : float) : float * float :=
  let total := p1 + p2 in
  if negb (Number_isFinite total) || (total <=? 1.0001) then (p1, p2)
  else (p1 / total, p2 / total).

Definition probToMoneyline (prob : float) : float :=
  if negb (Number_isFinite prob) || (prob <=? 0) || (1 <=? prob) then 0
  else if 0.5 <=? prob then Math_round (- (prob / (1 - prob)) * 100)
  else Math_round (((1 - prob) / prob) * 100).

End Odds.

(** ** Expected value (unnamed/part_002, lines 1851-1931) *)

Inductive side_label : Type := Team1 | Team2.
Inductive total_label : Type := Over | Under.

(** The object [calculateEV] returns: the two expected values and the best
    one as printed by [toFixed(1)], and the side (['Team 1'] or ['Team 2']). *)
Record ev_result : Type := EvResult {
  ev1 : float;
  ev2 : float;
  bestEV : float;
  side : side_label
}.

(** The object [calculateSpreadEV] returns; its [side] is the string
    [`Team 1 ${spread}`] or [`Team 2 ${-spread}`], of which the code reads
    only whether it includes ['Team 1']. *)
Record spread_result : Type := SpreadResult {
  sp_ev1 : float;
  sp_ev2 : float;
  sp_bestEV : float;
  sp_side : side_label;
  team1CoverProb : float;   (* percent, as printed by toFixed(1) *)
  team2CoverProb : float
}.

(** The object [calculateTotalEV] returns; its [side] is [`Over ${total}`]
    or [`Under ${total}`]. *)
Record total_result : Type := TotalResult {
  evOver : float;
  evUnder : float;
  tot_bestEV : float;
  tot_side : total_label;
  overProb : float;          (* percent, as printed by toFixed(1) *)
  underProb : float
}.

Section ExpectedValue.
Local Open Scope float_scope.

Definition calculateEV (modelProb ml1 ml2 : float) : ev_result :=
  let fair1 := modelProb in
  let fair2 := 1 - modelProb in
  let payout1 := if 0 <? ml1 then ml1 / 100 + 1 else 1 + 100 / abs ml1 in
  let payout2 := if 0 <? ml2 then ml2 / 100 + 1 else 1 + 100 / abs ml2 in
  let ev1 := (fair1 * payout1 - (1 - fair1)) * 100 in
  let ev2 := (fair2 * payout2 - (1 - fair2)) * 100 in
  let bestEV := Math_max ev1 ev2 in
  let side := if ev2 <? ev1 then Team1 else Team2 in
  {| ev1 := toFixed1 ev1; ev2 := toFixed1 ev2; bestEV := toFixed1 bestEV; side := side |}.

(** The cover probability of [calculateSpreadEV] before it is clamped.
    [spread] is a number at both call sites (the result of [parseFloat]),
    on which [parseFloat(spread)] is [spread] up to the sign of zero, which
    [Math.abs] drops. *)
Definition spreadCoverRaw (team1WinProb spread : float) : float :=
  let spreadMagnitude := abs spread in
  if spread <? 0 then team1WinProb * (0.85 - spreadMagnitude * 0.02)
  else team1WinProb + (1 - team1WinProb) * spreadMagnitude * 0.05.

(** [team1CoverProb] after [Math.max(0.1, Math.min(0.9, team1CoverProb))]. *)
Definition spreadCoverProb (team1WinProb spread : float) : float :=
  Math_max 0.1 (Math_min 0.9 (spreadCoverRaw team1WinProb spread)).

Definition calculateSpreadEV (team1WinProb spread odds1 odds2 : float) : spread_result :=
  let team1CoverProb := spreadCoverProb team1WinProb spread in
  let team2CoverProb := 1 - team1CoverProb in
  let payout1 := if 0 <? odds1 then odds1 / 100 + 1 else 1 + 100 / abs odds1 in
  let payout2 := if 0 <? odds2 then odds2 / 100 + 1 else 1 + 100 / abs odds2 in
  let ev1 := (team1CoverProb * payout1 - (1 - team1CoverProb)) * 100 in
  let ev2 := (team2CoverProb * payout2 - (1 - team2CoverProb)) * 100 in
  let bestEV := Math_max ev1 ev2 in
  let side := if ev2 <? ev1 then Team1 else Team2 in
  {| sp_ev1 := toFixed1 ev1; sp_ev2 := toFixed1 ev2; sp_bestEV := toFixed1 bestEV;
     sp_side := side;
     team1CoverProb := toFixed1 (team1CoverProb * 100);
     team2CoverProb := toFixed1 (team2CoverProb * 100) |}.

(** [scoringFactor] and the clamped [overProb] of [calculateTotalEV] (also
    unnamed/part_001, lines 811-836). *)
Definition scoringFactor (team1WinProb : float) : float := 0.45 + team1WinProb * 0.1.

Definition totalOverProb (team1WinProb : float) : float :=
  Math_max 0.3 (Math_min 0.7 (scoringFactor team1WinProb)).

Definition calculateTotalEV (team1WinProb total overOdds underOdds : float) : total_result :=
  let overProb := totalOverProb team1WinProb in
  let underProb := 1 - overProb in
  let payoutOver := if 0 <? overOdds then overOdds / 100 + 1 else 1 + 100 / abs overOdds in
  let payoutUnder := if 0 <? underOdds then underOdds / 100 + 1 else 1 + 100 / abs underOdds in
  let evOver := (overProb * payoutOver - (1 - overProb)) * 100 in
  let evUnder := (underProb * payoutUnder - (1 - underProb)) * 100 in
  let bestEV := Math_max evOver evUnder in
  let side := if evUnder <? evOver then Over else Under in
  {| evOver := toFixed1 evOver; evUnder := toFixed1 evUnder; tot_bestEV := toFixed1 bestEV;
     tot_side := side;
     overProb := toFixed1 (overProb * 100);
     underProb := toFixed1 (underProb * 100) |}.

End ExpectedValue.

(** ** Winner from scores (unnamed/part_002, lines 1190-1216) *)

Inductive cover : Type := Home | Away | Push.

Section Scores.
Context `{Host}.
Local Open Scope float_scope.

(** [checkSpreadWinner]: [None] is the [null] it returns for a score or
    spread that is not a finite number. *)
Definition checkSpreadWinner (homeScore awayScore spread : jsval) : option cover :=
  let h := parseFloat homeScore in
  let a := parseFloat awayScore in
  let s := parseFloat spread in
  if negb (Number_isFinite h) || negb (Number_isFinite a) || negb (Number_isFinite s)
  then None
  else
    let adjustedHome := h + s in
    if a <? adjustedHome then Some Home
    else if adjustedHome <? a then Some Away
    else Some Push.

(** [determineWinnerFromScores]: returns [1], [0] or [null]; a missing
    third argument defaults to [null]. *)
Definition determineWinnerFromScores (homeScore awayScore spread : jsval) : jsval :=
  let h := parseFloat homeScore in
  let a := parseFloat awayScore in
  if negb (Number_isFinite h) || negb (Number_isFinite a) then JNull
  else if negb (is_blank spread) && Number_isFinite (parseFloat spread) then
    match checkSpreadWinner homeScore awayScore spread with
    | Some Home => JNum 1
    | Some Away => JNum 0
    | _ => JNull
    end
  else if a <? h then JNum 1 else JNum 0.

End Scores.

(** ** Logistic regression (unnamed/part_002, lines 1218-1297) *)

Record train_options : Type := TrainOptions {
  learningRate : float;
  epochs : nat;
  lambda : float
}.

Record train_result : Type := TrainResult {
  tr_weights : list float;
  tr_bias : float;
  tr_means : list float;
  tr_stds : list float;
  tr_accuracy : float;
  tr_samplesUsed : nat
}.

Section Training.
Context `{Host}.
Local Open Scope float_scope.

(** [xs[j]] read in arithmetic: an index out of range gives [undefined],
    which arithmetic turns into NaN. *)
Definition at_num (xs : list float) (j : nat) : float := default nan (xs !! j).

(** [Number.isFinite(X[i][j]) ? X[i][j] : 0], also for an [undefined] entry. *)
Definition finite_or_0 (x : option float) : float :=
  match x with
  | Some v => if Number_isFinite v then v else 0
  | None => 0
  end.

(** The mean of feature [j]: the [for] loop adds the rows' entries in order. *)
Definition mean_of (X : list (list float)) (j : nat) : float :=
  fold_left (fun sum Xi => sum + finite_or_0 (Xi !! j)) X 0 / fromNat (length X).

(** The standard deviation of feature [j], [s || 1]. *)
Definition std_of (X : list (list float)) (means : list float) (j : nat) : float :=
  let variance :=
    fold_left (fun variance Xi =>
                 let diff := finite_or_0 (Xi !! j) - at_num means j in
                 variance + diff * diff) X 0 in
  let variance := variance / fromNat (length X) in
  let s := PrimFloat.sqrt variance in
  if truthy_num s then s else 1.

(** [bias + weights.reduce((sum, w, j) => sum + w * x[j], 0)] *)
Definition linear (weights : list float) (bias : float) (x : list float) : float :=
  bias + fold_left (fun sum wj => sum + snd wj * at_num x (fst wj)) (imap pair weights) 0.

(** One epoch of batch gradient descent. *)
Definition epoch_step (Xnorm : list (list float)) (y : list float)
    (learningRate lambda : float) (wb : list float * float) : list float * float :=
  let '(weights, bias) := wb in
  let nSamples := length Xnorm in
  let nFeatures := length weights in
  let '(gradW, gradB) :=
    fold_left (fun (g : list float * float) i =>
                 let '(gradW, gradB) := g in
                 let xi := default [] (Xnorm !! i) in
                 let z := linear weights bias xi in
                 let p := sigmoid z in
                 let error := p - at_num y i in
                 (imap (fun j g => g + error * at_num xi j) gradW, gradB + error))
              (seq 0 nSamples) (replicate nFeatures 0, 0) in
  let gradW := map (fun g => g / fromNat nSamples) gradW in
  let gradB := gradB / fromNat nSamples in
  (imap (fun j w => w - learningRate * (at_num gradW j + lambda * w)) weights,
   bias - learningRate * gradB).

(** [trainLogisticRegression]: [None] is the [TypeError] that reading
    [X[0].length] throws on an empty [X]. *)
Definition trainLogisticRegression (X : list (list float)) (y : list float)
    (options : train_options) : option train_result :=
  match X with
  | [] => None
  | X0 :: _ =>
      let nSamples := length X in
      let nFeatures := length X0 in
      let means := imap (fun j _ => mean_of X j) X0 in
      let stds := imap (fun j _ => std_of X means j) X0 in
      let Xnorm :=
        map (fun row => imap (fun j val =>
               (finite_or_0 (Some val) - at_num means j) / at_num stds j) row) X in
      let fitted :=
        Nat.iter (epochs options)
                 (epoch_step Xnorm y (learningRate options) (lambda options))
                 (replicate nFeatures 0, 0) in
      let weights := fst fitted in
      let bias := snd fitted in
      let preds := map (fun row => sigmoid (linear weights bias row)) Xnorm in
      let correct :=
        fold_left (fun (correct : nat) i =>
                     let p := at_num preds i in
                     if negb (Number_isFinite p) then correct
                     else
                       let label := if 0.5 <=? p then 1 else 0 in
                       match y !! i with
                       | Some yi => if label =? yi then S correct else correct
                       | None => correct
                       end)
                  (seq 0 nSamples) 0%nat in
      let accuracy := fromNat correct / fromNat nSamples in
      Some {| tr_weights := weights; tr_bias := bias; tr_means := means;
              tr_stds := stds; tr_accuracy := accuracy; tr_samplesUsed := nSamples |}
  end.

End Training.

(** ** Rolling form (unnamed/part_002, lines 1299-1335, and
       src/SportsPredictionModel.jsx, lines 232-267) *)

(** [history] starts as the object literal [{}], which inherits the
    properties of [Object.prototype]: under one of these keys
    [history[team]] is a function (or the prototype itself), which is truthy
    and has no [slice] method, so that [tHist.slice(-5)] throws a
    [TypeError]. *)
Definition Object_prototype_keys : list string :=
  ["constructor"; "__proto__"; "hasOwnProperty"; "isPrototypeOf";
   "propertyIsEnumerable"; "toLocaleString"; "toString"; "valueOf";
   "__defineGetter__"; "__defineSetter__"; "__lookupGetter__"; "__lookupSetter__"].

(** [history[team] || []]; [None] when the later [slice] call would throw. *)
Definition history_get (history : gmap string (list float)) (team : string)
    : option (list float) :=
  match history !! team with
  | Some h => Some h
  | None => if bool_decide (team ∈ Object_prototype_keys) then None else Some []
  end.

(** [hist.slice(-5)] *)
Definition slice_last5 (hist : list float) : list float :=
  drop (length hist - 5) hist.

(** [l.length > 0 ? l.reduce((a, b) => a + b, 0) / l.length : 0.5] *)
Definition rate (last5 : list float) : float :=
  (if (0 <? length last5)%nat
   then fold_left (fun a b => a + b) last5 0 / fromNat (length last5)
   else 0.5)%float.

Module Pro.
Section RollingForm.
Context `{Host}.
Local Open Scope float_scope.

(** The winner the row is given: its [winner] field, or, when that is
    [undefined], [null] or [''], the winner derived from the scores. *)
Definition row_winner (r : row) : jsval :=
  let winner := field r "winner" in
  if is_blank winner then
    determineWinnerFromScores
      (js_or (field r "home_final_score") (field r "HomeScore"))
      (js_or (field r "away_final_score") (field r "AwayScore"))
      (field r "spread")
  else winner.

(** [rows.map((row) => { ... })] with the [history] object threaded through;
    [None] when an iteration throws. *)
Fixpoint addLast5WinColumns_from (history : gmap string (list float)) (rows : list row)
    : option (list row) :=
  match rows with
  | [] => Some []
  | r :: rest =>
      let team1 := ToKey (js_or (field r "team1") (field r "home_team")) in
      let team2 := ToKey (js_or (field r "team2") (field r "away_team")) in
      t1Hist ← history_get history team1;
      t2Hist ← history_get history team2;
      let t1Last5 := slice_last5 t1Hist in
      let t2Last5 := slice_last5 t2Hist in
      let t1Rate := rate t1Last5 in
      let t2Rate := rate t2Last5 in
      let winner := row_winner r in
      let t1Result := if Number winner =? 1 then 1 else 0 in
      let t2Result := if Number winner =? 0 then 1 else 0 in
      let history := <[team1 := t1Hist ++ [t1Result]]> history in
      let history := <[team2 := t2Hist ++ [t2Result]]> history in
      let out := <["winner" := JNum (Number winner)]>
                   (<["team2_last5" := JNum t2Rate]>
                      (<["team1_last5" := JNum t1Rate]> r)) in
      outs ← addLast5WinColumns_from history rest;
      Some (out :: outs)
  end.

Definition addLast5WinColumns (rows : list row) : option (list row) :=
  addLast5WinColumns_from ∅ rows.

End RollingForm.
End Pro.

Module Jsx.
Section RollingForm.
Context `{Host}.
Local Open Scope float_scope.

(** The variant of src/SportsPredictionModel.jsx: the teams and the winner
    are read from [team1], [team2] and [winner] alone, and a row that has a
    [team1_last5] or [team2_last5] field keeps it, converted by [Number]. *)
Fixpoint addLast5WinColumns_from (history : gmap string (list float)) (rows : list row)
    : option (list row) :=
  match rows with
  | [] => Some []
  | r :: rest =>
      let team1 := ToKey (field r "team1") in
      let team2 := ToKey (field r "team2") in
      t1Hist ← history_get history team1;
      t2Hist ← history_get history team2;
      let t1Last5 := slice_last5 t1Hist in
      let t2Last5 := slice_last5 t2Hist in
      let t1Rate := rate t1Last5 in
      let t2Rate := rate t2Last5 in
      let winner := Number (field r "winner") in
      let t1Result := if winner =? 1 then 1 else 0 in
      let t2Result := if winner =? 0 then 1 else 0 in
      let history := <[team1 := t1Hist ++ [t1Result]]> history in
      let history := <[team2 := t2Hist ++ [t2Result]]> history in
      let out :=
        <["team2_last5" :=
            match field r "team2_last5" with
            | JUndefined => JNum t2Rate
            | v => JNum (Number v)
            end]>
          (<["team1_last5" :=
               match field r "team1_last5" with
               | JUndefined => JNum t1Rate
               | v => JNum (Number v)
               end]> r) in
      outs ← addLast5WinColumns_from history rest;
      Some (out :: outs)
  end.

Definition addLast5WinColumns (rows : list row) : option (list row) :=
  addLast5WinColumns_from ∅ rows.

End RollingForm.
End Jsx.

(** ** Sports and trained models (unnamed/part_002, lines 990-1048) *)

Record sport : Type := Sport {
  features : list string;
  isTeamSeasonSport : bool;
  supportsSpread : bool;
  supportsTotal : bool
}.

Definition team_features : list string :=
  ["team1_moneyline"; "team2_moneyline"; "team1_last5"; "team2_last5"].

(** [sports.nfl] (the entries [ncaaf], [ncaab] and [nba] are the same). *)
Definition nfl : sport :=
  {| features := team_features; isTeamSeasonSport := true;
     supportsSpread := true; supportsTotal := true |}.

Definition tennis : sport :=
  {| features := ["player1_ranking"; "player2_ranking"; "surface"; "player1_form";
                  "player2_form"; "head_to_head"; "fatigue_factor"];
     isTeamSeasonSport := false; supportsSpread := false; supportsTotal := false |}.

(** [modelParams]: [{ weights, bias, means, stds, features }]. *)
Record model_params : Type := ModelParams {
  weights : list float;
  bias : float;
  means : list float;
  stds : list float;
  model_features : list string
}.

(** [trainingStats]; the accuracy is a percentage printed by [toFixed(1)]. *)
Record training_stats : Type := TrainingStats {
  accuracy : float;
  samplesUsed : nat
}.

(** ** Training a model (unnamed/part_002, lines 1607-1693) *)

(** What [trainModel] leaves behind: an alert and no model, or the model
    and statistics it stores with [setModelParams] and [setTrainingStats].
    [TrainFailed] is the [catch] branch. *)
Inductive train_outcome : Type :=
| TrainRefused (alert : string)
| TrainFailed
| Trained (model : model_params) (stats : training_stats).

Section TrainModel.
Context `{Host}.
Local Open Scope float_scope.

(** [r.winner === 0 || r.winner === 1 || r.winner === '0' || r.winner === '1'] *)
Definition usable_row (r : row) : bool :=
  let w := field r "winner" in
  strict_eq_num w 0 || strict_eq_num w 1 || strict_eq_str w "0" || strict_eq_str w "1".

(** One entry of a training row of [X]. *)
Definition train_feature (r : row) (f : string) : float :=
  if includes f "moneyline" then
    let p1 := moneylineToFairProb (field r "team1_moneyline") in
    let p2 := moneylineToFairProb (field r "team2_moneyline") in
    let '(fair1, fair2) := removeVig p1 p2 in
    let val := if String.eqb f "team1_moneyline" then fair1 else fair2 in
    if Number_isFinite val then val else 0.5
  else
    let num := Number (field r f) in
    if Number_isFinite num then num else 0.

Definition trainModel (selectedSport : sport) (trainingData : list row) : train_outcome :=
  if (length trainingData <? 20)%nat then TrainRefused "Need at least 20 games"
  else
    let usable := filter (fun r => usable_row r = true) trainingData in
    if (length usable =? 0)%nat then TrainRefused "No rows with winner = 0 or 1"
    else
      let X := map (fun r => map (train_feature r) (features selectedSport)) usable in
      let y := map (fun r => Number (field r "winner")) usable in
      match trainLogisticRegression X y
              {| learningRate := 0.12; epochs := 500; lambda := 0.012 |} with
      | None => TrainFailed
      | Some result =>
          Trained
            {| weights := tr_weights result; bias := tr_bias result;
               means := tr_means result; stds := tr_stds result;
               model_features := features selectedSport |}
            {| accuracy := toFixed1 (tr_accuracy result * 100);
               samplesUsed := tr_samplesUsed result |}
      end.

End TrainModel.

(** ** Backtest (unnamed/part_002, lines 1695-1849) *)

(** One entry of [bets]: [{ bets, correct, profit, evSum }]. *)
Record market : Type := Market {
  bets : nat;
  correct : nat;
  profit : float;
  evSum : float
}.

(** [bets]: [{ moneyline, spread, total }]. *)
Record book : Type := Book {
  moneyline : market;
  spread_market : market;
  total_market : market
}.

(** The variables the replay loop updates. *)
Record bt_state : Type := BtState {
  bt_bets : book;
  balance : float;
  history : list (nat * float)     (* { game: i, balance } *)
}.

(** The object given to [setBacktestResult]; [totalProfit], [roi] and
    [finalBalance] are the numbers the code then prints with [toFixed(2)]. *)
Record backtest_result : Type := BacktestResult {
  res_bets : book;
  totalBets : nat;
  totalProfit : float;
  roi : float;
  finalBalance : float;
  startingBalance : float;
  res_history : list (nat * float);
  gamesTested : nat
}.

Section Backtest.
Context `{Host}.
Local Open Scope float_scope.

(** The key the rows are sorted by; a [Date] is read as its time value. *)
Definition getDate (r : row) : float :=
  if truthy (field r "date") then Date_value (field r "date")
  else if truthy (field r "week") && truthy (field r "year")
  then Date_of_week (field r "year") (field r "week")
  else if truthy (field r "Season") && truthy (field r "Week")
  then Date_of_week (field r "Season") (field r "Week")
  else 0.

(** One entry of [raw], with whether it leaves [valid] as it is. *)
Definition backtest_feature (current : row) (f : string) : float * bool :=
  if includes f "moneyline" then
    let ml1 := parseFloat (js_or (field current "team1_moneyline") (field current "HomeMoneyline")) in
    let ml2 := parseFloat (js_or (field current "team2_moneyline") (field current "AwayMoneyline")) in
    let p1 := moneylineToFairProb (JNum ml1) in
    let p2 := moneylineToFairProb (JNum ml2) in
    let '(fair1, fair2) := removeVig p1 p2 in
    (if String.eqb f "team1_moneyline" then fair1 else fair2,
     truthy_num ml1 && truthy_num ml2)
  else
    let val := parseFloat (field current f) in
    (if Number_isFinite val then val else 0, Number_isFinite val).

(** The model's probability that team 1 wins the row. *)
Definition modelProb_of (model : model_params) (raw : list float) : float :=
  let xNorm := imap (fun j v => (v - at_num (means model) j) / at_num (stds model) j) raw in
  let z := linear (weights model) (bias model) xNorm in
  sigmoid z.

(** A bet the loop places: whether it won, its payout, and the expected
    value that made the loop place it. *)
Record placed_bet : Type := PlacedBet {
  won : bool;
  payout : float;
  bet_ev : float
}.

(** The moneyline bet of a row, when one is placed. *)
Definition moneyline_bet (modelProb actualWinner : float) (current : row)
    : option placed_bet :=
  let ml1 := parseFloat (js_or (field current "team1_moneyline") (field current "HomeMoneyline")) in
  let ml2 := parseFloat (js_or (field current "team2_moneyline") (field current "AwayMoneyline")) in
  if truthy_num ml1 && truthy_num ml2 && negb (ml1 =? 0) && negb (ml2 =? 0) then
    let evResult := calculateEV modelProb ml1 ml2 in
    let ev := bestEV evResult in
    if 2 <? ev then
      let odds := match side evResult with Team1 => ml1 | Team2 => ml2 end in
      let stake := 100 in
      let won := match side evResult with
                 | Team1 => actualWinner =? 1
                 | Team2 => actualWinner =? 0
                 end in
      let payout :=
        if won then (if 0 <? odds then stake * (odds / 100) else stake * (100 / abs odds))
        else - stake in
      Some {| won := won; payout := payout; bet_ev := ev |}
    else None
  else None.

(** The spread bet of a row, when one is placed. *)
Definition spread_bet (selectedSport : sport) (modelProb actualWinner : float)
    (current : row) : option placed_bet :=
  if supportsSpread selectedSport && truthy (field current "spread")
     && negb (strict_eq_str (field current "spread") "") then
    let spread := parseFloat (field current "spread") in
    let odds1 := js_or (field current "spread_odds1") (JNum (-110)) in
    let odds2 := js_or (field current "spread_odds2") (JNum (-110)) in
    if truthy_num spread && truthy odds1 && truthy odds2 then
      let odds1 := Number odds1 in
      let odds2 := Number odds2 in
      let evResult := calculateSpreadEV modelProb spread odds1 odds2 in
      let ev := sp_bestEV evResult in
      if 2 <? ev then
        let won := match sp_side evResult with
                   | Team1 => actualWinner =? 1
                   | Team2 => actualWinner =? 0
                   end in
        let payout :=
          if won then 100 * (if 0 <? odds1 then odds1 / 100 else 100 / abs odds1) - 100
          else -100 in
        Some {| won := won; payout := payout; bet_ev := ev |}
      else None
    else None
  else None.

(** The total (over/under) bet of a row, when one is placed. *)
Definition total_bet (selectedSport : sport) (modelProb : float) (current : row)
    : option placed_bet :=
  if supportsTotal selectedSport && truthy (field current "total") then
    let total := parseFloat (field current "total") in
    let overOdds := js_or (field current "over_odds") (JNum (-110)) in
    let underOdds := js_or (field current "under_odds") (JNum (-110)) in
    if truthy_num total && truthy overOdds && truthy underOdds then
      let overOdds := Number overOdds in
      let underOdds := Number underOdds in
      let evResult := calculateTotalEV modelProb total overOdds underOdds in
      let ev := tot_bestEV evResult in
      if 2 <? ev then
        let home := parseFloat (js_or (field current "home_final_score") (field current "HomeScore")) in
        let away := parseFloat (js_or (field current "away_final_score") (field current "AwayScore")) in
        let actualTotal :=
          (if truthy_num home then home else 0) + (if truthy_num away then away else 0) in
        let won := match tot_side evResult with
                   | Over => total <? actualTotal
                   | Under => actualTotal <? total
                   end in
        let payout :=
          if won then 100 * (if 0 <? overOdds then overOdds / 100 else 100 / abs overOdds) - 100
          else -100 in
        Some {| won := won; payout := payout; bet_ev := ev |}
      else None
    else None
  else None.

(** [bets.m.bets++; if (won) bets.m.correct++; bets.m.profit += payout;]
    and, for the moneyline market only, [bets.moneyline.evSum += ev]. *)
Definition count_bet (with_ev : bool) (b : placed_bet) (m : market) : market :=
  {| bets := S (bets m);
     correct := if won b then S (correct m) else correct m;
     profit := profit m + payout b;
     evSum := if with_ev then evSum m + bet_ev b else evSum m |}.

(** The three markets, in the order the loop visits them. *)
Inductive market_id : Type := Moneyline | Spread | Total.

(** The updates a placed bet makes: its market's entry, and
    [balance += payout]. *)
Definition settle (mk : market_id) (b : option placed_bet) (st : bt_state) : bt_state :=
  match b with
  | None => st
  | Some b =>
      let bk := bt_bets st in
      {| bt_bets :=
           match mk with
           | Moneyline => {| moneyline := count_bet true b (moneyline bk);
                             spread_market := spread_market bk;
                             total_market := total_market bk |}
           | Spread => {| moneyline := moneyline bk;
                          spread_market := count_bet false b (spread_market bk);
                          total_market := total_market bk |}
           | Total => {| moneyline := moneyline bk;
                         spread_market := spread_market bk;
                         total_market := count_bet false b (total_market bk) |}
           end;
         balance := balance st + payout b;
         history := history st |}
  end.

(** The bets the loop body places on [current], market by market; [None]
    when the body ends at one of its two [continue] statements. *)
Definition row_bets (model : model_params) (selectedSport : sport) (current : row)
    : option (option placed_bet * option placed_bet * option placed_bet) :=
  if is_blank (field current "winner") then None
  else
    let entries := map (backtest_feature current) (model_features model) in
    let raw := map fst entries in
    let valid := forallb snd entries in
    if negb valid then None
    else
      let modelProb := modelProb_of model raw in
      let actualWinner := Number (field current "winner") in
      Some (moneyline_bet modelProb actualWinner current,
            spread_bet selectedSport modelProb actualWinner current,
            total_bet selectedSport modelProb current).

(** The body of the replay loop for [current = sorted[i]]. *)
Definition backtest_row (model : model_params) (selectedSport : sport)
    (st : bt_state) (i : nat) (current : row) : bt_state :=
  match row_bets model selectedSport current with
  | None => st
  | Some (ml, sp, tot) =>
      let st := settle Moneyline ml st in
      let st := settle Spread sp st in
      let st := settle Total tot st in
      {| bt_bets := bt_bets st; balance := balance st;
         history := history st ++ [(i, balance st)] |}
  end.

(** [for (let i = start; i < sorted.length; i++)] over the rows from
    [sorted[start]] on. *)
Fixpoint backtest_loop (model : model_params) (selectedSport : sport)
    (i : nat) (rows : list row) (st : bt_state) : bt_state :=
  match rows with
  | [] => st
  | current :: rest =>
      backtest_loop model selectedSport (S i) rest
                    (backtest_row model selectedSport st i current)
  end.

Definition empty_market : market := {| bets := 0; correct := 0; profit := 0; evSum := 0 |}.

Definition initial_state : bt_state :=
  {| bt_bets := {| moneyline := empty_market; spread_market := empty_market;
                   total_market := empty_market |};
     balance := 10000;
     history := [] |}.

(** [runBacktest]: [None] when it only alerts
    ['Need a trained model and at least 50 games']. *)
Definition runBacktest (modelTrained : bool) (modelParams : option model_params)
    (selectedSport : sport) (trainingData : list row) : option backtest_result :=
  match modelParams with
  | None => None
  | Some model =>
      if negb modelTrained || (length trainingData <? 50)%nat then None
      else
        let sorted := Array_sort (fun a b => getDate a - getDate b) trainingData in
        let st := backtest_loop model selectedSport 20 (drop 20 sorted) initial_state in
        let b := bt_bets st in
        let totalBets := (0 + bets (moneyline b) + bets (spread_market b)
                          + bets (total_market b))%nat in
        let totalProfit := 0 + profit (moneyline b) + profit (spread_market b)
                           + profit (total_market b) in
        let roi := if (0 <? totalBets)%nat
                   then (totalProfit / (fromNat totalBets * 100)) * 100 else 0 in
        Some {| res_bets := b; totalBets := totalBets; totalProfit := totalProfit;
                roi := roi; finalBalance := balance st; startingBalance := 10000;
                res_history := history st; gamesTested := length sorted - 20 |}
  end.

End Backtest.

(** ** CSV upload (unnamed/part_002, lines 1337-1440) *)

(** ToBoolean of a string. *)
Definition truthy_text (s : string) : bool := negb (String.eqb s "").

(** The characters [parseCSV] splits at. *)
Definition line_feed : Ascii.ascii := Ascii.ascii_of_nat 10.
Definition carriage_return : Ascii.ascii := Ascii.ascii_of_nat 13.
Definition comma : Ascii.ascii := Ascii.ascii_of_nat 44.

(** [s.split(c)] for a one-character separator: the pieces between the
    occurrences of [c], at least one. *)
Fixpoint split_on (c : Ascii.ascii) (s : string) : list string :=
  match s with
  | EmptyString => [EmptyString]
  | String a rest =>
      if Ascii.eqb a c then EmptyString :: split_on c rest
      else match split_on c rest with
           | [] => [String a EmptyString]
           | piece :: pieces => String a piece :: pieces
           end
  end.

(** [text.split(/\r?\n/)]: the separator is a line feed together with a
    carriage return right before it. *)
Fixpoint split_lines (text : string) : list string :=
  match text with
  | EmptyString => [EmptyString]
  | String a rest =>
      if Ascii.eqb a line_feed then EmptyString :: split_lines rest
      else
        match rest with
        | String b rest' =>
            if Ascii.eqb a carriage_return && Ascii.eqb b line_feed then EmptyString :: split_lines rest'
            else match split_lines rest with
                 | [] => [String a EmptyString]
                 | piece :: pieces => String a piece :: pieces
                 end
        | EmptyString => [String a EmptyString]
        end
  end.

Section ParseCSV.
Context `{Host}.
(** [String.prototype.trim]. *)
Variable trim : string -> string.

(** The value stored for a trimmed cell: [''], its number when [Number(raw)]
    is not NaN, or the text itself. *)
Definition csv_cell (raw : string) : jsval :=
  if String.eqb raw "" then JStr ""
  else if negb (Number_isNaN (Number (JStr raw))) then JNum (Number (JStr raw))
  else JStr raw.

(** One round of [header.forEach((key, idx) => { ... obj[key] = ... })] for
    the entry [(idx, key)]: [parts[idx] ?? ''] is trimmed and stored.
    Assigning a string or a number to [obj['__proto__']] changes nothing. *)
Definition csv_step (parts : list string) (obj : row) (e : nat * string) : row :=
  let raw := trim (default "" (parts !! fst e)) in
  if String.eqb (snd e) "__proto__" then obj else <[snd e := csv_cell raw]> obj.

(** The object built for a line, from [obj = {}]. *)
Definition csv_row (header : list string) (line : string) : row :=
  fold_left (csv_step (split_on comma line)) (imap pair header) ∅.

(** The lines [parseCSV] keeps: trimmed and not empty. *)
Definition csv_lines (text : string) : list string :=
  filter (fun l => l <> "") (map trim (split_lines text)).

Definition parseCSV (text : string) : list row :=
  let lines := csv_lines text in
  if (length lines <? 2)%nat then []
  else
    let header := map trim (split_on comma (default "" (lines !! 0%nat))) in
    map (csv_row header) (drop 1 lines).

End ParseCSV.

Section Upload.
Context `{Host}.

(** [typeof v === 'number' && Number.isFinite(v)] *)
Definition is_finite_number (v : jsval) : bool :=
  match v with JNum x => Number_isFinite x | _ => false end.

(** The NCAAB rows [handleDataUpload] keeps, with the columns of the NCAAB
    file copied to the names the model reads.  A column the file lacks is
    copied as [undefined]. *)
Definition ncaab_row (r : row) : row :=
  <["total" := field r "OverUnder"]>
    (<["spread" := field r "Spread"]>
       (<["team2_moneyline" := field r "AwayMoneyline"]>
          (<["team1_moneyline" := field r "HomeMoneyline"]>
             (<["away_final_score" := field r "AwayScore"]>
                (<["home_final_score" := field r "HomeScore"]>
                   (<["team2" := field r "AwayTeam"]>
                      (<["team1" := field r "HomeTeam"]> r))))))).

Definition ncaab_rows (newRows : list row) : list row :=
  map ncaab_row
      (filter (fun r => is_finite_number (field r "HomeMoneyline")
                        && is_finite_number (field r "AwayMoneyline") = true) newRows).

(** The rows [handleDataUpload] gives to [setTrainingData] for the rows
    [newRows] that [parseCSV] returned; [None] when [addLast5WinColumns]
    throws, which the handler catches (it alerts and stores nothing).
    [selectedSport] is the key of the sport and [sports_selectedSport] the
    entry [sports[selectedSport]]. *)
Definition handleDataUpload (selectedSport : string) (sports_selectedSport : sport)
    (appendMode : bool) (trainingData newRows : list row) : option (list row) :=
  let newRows := if String.eqb selectedSport "ncaab" then ncaab_rows newRows else newRows in
  if isTeamSeasonSport sports_selectedSport then
    if appendMode && (0 <? length trainingData)%nat
    then Pro.addLast5WinColumns (trainingData ++ newRows)
    else Pro.addLast5WinColumns newRows
  else Some (if appendMode then trainingData ++ newRows else newRows).

End Upload.

(** ** Prediction (unnamed/part_002, lines 1933-2016) *)

(** The object given to [setPrediction]; the probabilities and the
    confidence are percentages printed by [toFixed(1)]. *)
Record prediction : Type := Prediction {
  team1_win_prob : float;
  team2_win_prob : float;
  team1_implied_line : float;
  team2_implied_line : float;
  confidence : float
}.

(** The book prices typed into the form: each is the text of an input. *)
Record book_inputs : Type := BookInputs {
  actualML1 : string;
  actualML2 : string;
  actualSpread : string;
  actualSpreadOdds1 : string;
  actualSpreadOdds2 : string;
  actualTotal : string;
  actualOverOdds : string;
  actualUnderOdds : string
}.

(** An entry of [allResults]. *)
Inductive ev_entry : Type :=
| MoneylineEV (r : ev_result)
| SpreadEV (r : spread_result)
| TotalEV (r : total_result).

(** What [calculatePrediction] leaves behind: an alert, or the prediction
    and the list given to [setEvResult] ([[]] stands for [null]). *)
Inductive prediction_outcome : Type :=
| PredictUntrained
| PredictMissing (missing : list string)
| Predicted (p : prediction) (evResult : list ev_entry).

Section Prediction.
Context `{Host}.
Local Open Scope float_scope.

(** The features [raw] of the matchup typed into the form. *)
Definition prediction_features (features : list string) (matchupInputs : row) : list float :=
  let both := bool_decide ("team1_moneyline" ∈ features)
              && bool_decide ("team2_moneyline" ∈ features) in
  let ml1 := parseFloat (field matchupInputs "team1_moneyline") in
  let ml2 := parseFloat (field matchupInputs "team2_moneyline") in
  let novig := removeVig (moneylineToFairProb (JNum ml1)) (moneylineToFairProb (JNum ml2)) in
  map (fun f =>
         if String.eqb f "team1_moneyline" && both then fst novig
         else if String.eqb f "team2_moneyline" && both then snd novig
         else
           let val := parseFloat (field matchupInputs f) in
           if Number_isFinite val then val else 0)
      features.

(** [p], the model's probability that team 1 wins the matchup. *)
Definition prediction_prob (model : model_params) (matchupInputs : row) : float :=
  modelProb_of model (prediction_features (model_features model) matchupInputs).

Definition calculatePrediction (modelTrained : bool) (modelParams : option model_params)
    (selectedSport : sport) (matchupInputs : row) (book : book_inputs) : prediction_outcome :=
  match modelParams with
  | None => PredictUntrained
  | Some model =>
      if negb modelTrained then PredictUntrained
      else
        let missing := filter (fun f => is_blank (field matchupInputs f) = true)
                              (model_features model) in
        if (0 <? length missing)%nat then PredictMissing missing
        else
          let p := prediction_prob model matchupInputs in
          let t1Prob := p in
          let t2Prob := 1 - p in
          let pred :=
            {| team1_win_prob := toFixed1 (t1Prob * 100);
               team2_win_prob := toFixed1 (t2Prob * 100);
               team1_implied_line := probToMoneyline t1Prob;
               team2_implied_line := probToMoneyline t2Prob;
               confidence := toFixed1 (abs (p - 0.5) * 200) |} in
          let mlResults :=
            if truthy_text (actualML1 book) && truthy_text (actualML2 book) then
              let ml1 := parseFloat (JStr (actualML1 book)) in
              let ml2 := parseFloat (JStr (actualML2 book)) in
              if negb (Number_isNaN ml1) && negb (Number_isNaN ml2)
              then [MoneylineEV (calculateEV p ml1 ml2)] else []
            else [] in
          let spreadResults :=
            if supportsSpread selectedSport && truthy_text (actualSpread book)
               && truthy_text (actualSpreadOdds1 book) && truthy_text (actualSpreadOdds2 book) then
              let spread := parseFloat (JStr (actualSpread book)) in
              let odds1 := parseFloat (JStr (actualSpreadOdds1 book)) in
              let odds2 := parseFloat (JStr (actualSpreadOdds2 book)) in
              if negb (Number_isNaN spread) && negb (Number_isNaN odds1) && negb (Number_isNaN odds2)
              then [SpreadEV (calculateSpreadEV p spread odds1 odds2)] else []
            else [] in
          let totalResults :=
            if supportsTotal selectedSport && truthy_text (actualTotal book)
               && truthy_text (actualOverOdds book) && truthy_text (actualUnderOdds book) then
              let total := parseFloat (JStr (actualTotal book)) in
              let overOdds := parseFloat (JStr (actualOverOdds book)) in
              let underOdds := parseFloat (JStr (actualUnderOdds book)) in
              if negb (Number_isNaN total) && negb (Number_isNaN overOdds)
                 && negb (Number_isNaN underOdds)
              then [TotalEV (calculateTotalEV p total overOdds underOdds)] else []
            else [] in
          Predicted pred (mlResults ++ spreadResults ++ totalResults)
  end.

End Prediction.

(** ** Betting tracker (unnamed/part_002, lines 2703-2939) *)

Module Tracker.

(** [interface Game]; the optional fields are [None] when absent. *)
Record Game : Type := {
  id : float;
  sport : string;
  date : string;
  homeTeam : string;
  awayTeam : string;
  homeMoneyline : string;
  awayMoneyline : string;
  spread : option string;
  total : option string;
  homeScore : option string;
  awayScore : option string;
  bet : string;
  betAmount : string;
  homeLast5 : option string;
  awayLast5 : option string;
  notes : option string
}.

(** ToBoolean of an optional string. *)
Definition truthy_opt (s : option string) : bool :=
  match s with Some s => truthy_text s | None => false end.

(** The argument [parseFloat] is given for an optional field. *)
Definition opt_val (s : option string) : jsval :=
  match s with Some s => JStr s | None => JUndefined end.

Inductive outcome : Type := HomeWin | AwayWin | Tie.
Inductive result_kind : Type := Win | Loss | PushResult.

(** [{ wins, losses, pushes, profit, roi, total }]; [profit] and [roi] are
    the numbers the code then prints with [toFixed]. *)
Record Stats : Type := {
  wins : nat;
  losses : nat;
  pushes : nat;
  st_profit : float;
  st_roi : float;
  st_total : nat
}.

Section Tracker.
Context `{Host}.
(** [String.prototype.toLowerCase]. *)
Variable toLowerCase : string -> string.
Local Open Scope float_scope.

Definition isTennisLike (sport : string) : bool :=
  String.eqb sport "tennis" || String.eqb sport "tabletennis".

Definition checkSpreadWinner (game : Game) : option cover :=
  if isTennisLike (sport game) || negb (truthy_opt (spread game))
     || negb (truthy_opt (homeScore game)) || negb (truthy_opt (awayScore game))
  then None
  else
    let hs := parseFloat (opt_val (homeScore game)) in
    let as_ := parseFloat (opt_val (awayScore game)) in
    let spread := parseFloat (opt_val (spread game)) in
    if negb (Number_isFinite hs) || negb (Number_isFinite as_) || negb (Number_isFinite spread)
    then None
    else
      let adjusted := hs + spread in
      if as_ <? adjusted then Some Home
      else if adjusted <? as_ then Some Away
      else Some Push.

Definition checkWinner (game : Game) : option outcome :=
  if negb (truthy_opt (homeScore game)) || negb (truthy_opt (awayScore game)) then None
  else
    let hs := parseFloat (opt_val (homeScore game)) in
    let as_ := parseFloat (opt_val (awayScore game)) in
    if negb (Number_isFinite hs) || negb (Number_isFinite as_) then None
    else if as_ <? hs then Some HomeWin
    else if hs <? as_ then Some AwayWin
    else Some Tie.

(** [parseFloat(game.betAmount) || 0] *)
Definition bet_amount (game : Game) : float :=
  let a := parseFloat (JStr (betAmount game)) in
  if truthy_num a then a else 0.

Definition calculateResult (game : Game) : option (result_kind * float) :=
  if negb (truthy_text (bet game)) || negb (truthy_opt (homeScore game))
     || negb (truthy_opt (awayScore game))
  then None
  else
    let amount := bet_amount game in
    let betLower := toLowerCase (bet game) in
    let isSpreadBet := truthy_opt (spread game) && negb (isTennisLike (sport game)) in
    let '(won, push) :=
      if isSpreadBet then
        match checkSpreadWinner game with
        | Some Push => (false, true)
        | res =>
            ((includes betLower "home" && match res with Some Home => true | _ => false end)
             || (includes betLower "away" && match res with Some Away => true | _ => false end),
             false)
        end
      else
        match checkWinner game with
        | Some Tie => (false, true)
        | res =>
            ((includes betLower "home" && match res with Some HomeWin => true | _ => false end)
             || (includes betLower "away" && match res with Some AwayWin => true | _ => false end),
             false)
        end in
    if push then Some (PushResult, 0)
    else if negb won then Some (Loss, - amount)
    else
      let mlStr := if includes betLower "home" then homeMoneyline game else awayMoneyline game in
      let ml := parseFloat (JStr mlStr) in
      if negb (Number_isFinite ml) then Some (Win, amount)
      else Some (Win, if 0 <? ml then amount * (ml / 100) else amount * (100 / abs ml)).

(** The games [stats] goes through. *)
Definition completed (games : list Game) : list Game :=
  filter (fun g => truthy_opt (homeScore g) && truthy_opt (awayScore g) && truthy_text (bet g) = true)
         games.

(** The counters of [stats] after one more completed game:
    [(wins, losses, pushes, profit, wagered)]. *)
Definition stats_step (acc : nat * nat * nat * float * float) (g : Game)
    : nat * nat * nat * float * float :=
  let '(wins, losses, pushes, profit, wagered) := acc in
  match calculateResult g with
  | None => acc
  | Some (kind, p) =>
      let wagered := wagered + bet_amount g in
      match kind with
      | Win => (S wins, losses, pushes, profit + p, wagered)
      | Loss => (wins, S losses, pushes, profit + p, wagered)
      | PushResult => (wins, losses, S pushes, profit, wagered)
      end
  end.

Definition stats (games : list Game) : Stats :=
  let '(wins, losses, pushes, profit, wagered) :=
    fold_left stats_step (completed games) (0%nat, 0%nat, 0%nat, 0, 0) in
  let roi := if 0 <? wagered then (profit / wagered) * 100 else 0 in
  {| wins := wins; losses := losses; pushes := pushes; st_profit := profit;
     st_roi := roi; st_total := length (completed games) |}.

End Tracker.
End Tracker.

(** ** Specification-side definitions *)

(** The host-free reading of [moneylineToFairProb] on a number. *)
Definition fairProb_of (num : float) : float :=
  (if negb (Number_isFinite num) then 0.5
   else if 0 <? num then 100 / (num + 100)
   else abs num / (abs num + 100))%float.

(** The payout multiplier and the expected value per $100 of one side, in
    the specification's words. *)
Definition payout_multiplier (odds : float) : float :=
  (if 0 <? odds then odds / 100 + 1 else 1 + 100 / abs odds)%float.

Definition side_ev (fairProb payout : float) : float :=
  ((fairProb * payout - (1 - fairProb)) * 100)%float.

(** Rolling form.  The outcomes a competitor [k] has on record after the
    rows [earlier], oldest first: a row records its team-2 result for its
    second competitor and its team-1 result for its first one (when both are
    [k], the second assignment to [history[k]] is the one that stays). *)
Section FormSpec.
Variables (team1_of team2_of : row -> string) (result1_of result2_of : row -> float).

Definition recorded (k : string) (r : row) : list float :=
  if decide (team2_of r = k) then [result2_of r]
  else if decide (team1_of r = k) then [result1_of r]
  else [].

Definition prior_outcomes (k : string) (earlier : list row) : list float :=
  concat (map (recorded k) earlier).

End FormSpec.

(** The last [n] elements of a list, or all of it when it is shorter. *)
Definition last_at_most {A : Type} (n : nat) (l : list A) : list A :=
  reverse (take n (reverse l)).

(** The number of wins among recorded outcomes. *)
Fixpoint wins (outcomes : list float) : nat :=
  match outcomes with
  | [] => 0
  | x :: rest => (if (x =? 1)%float then 1 else 0) + wins rest
  end.

(** Recent form: the win rate over at most the last 5 recorded outcomes,
    0.5 when there is none. *)
Definition recent_form (outcomes : list float) : float :=
  match outcomes with
  | [] => 0.5%float
  | _ => (fromNat (wins (last_at_most 5 outcomes))
          / fromNat (length (last_at_most 5 outcomes)))%float
  end.

(** The teams and results the two variants of [addLast5WinColumns] read
    off a row. *)
Section TeamsAndResults.
Context `{Host}.
Local Open Scope float_scope.

Definition pro_team1 (r : row) : string := ToKey (js_or (field r "team1") (field r "home_team")).
Definition pro_team2 (r : row) : string := ToKey (js_or (field r "team2") (field r "away_team")).
Definition pro_result1 (r : row) : float := if Number (Pro.row_winner r) =? 1 then 1 else 0.
Definition pro_result2 (r : row) : float := if Number (Pro.row_winner r) =? 0 then 1 else 0.

Definition jsx_team1 (r : row) : string := ToKey (field r "team1").
Definition jsx_team2 (r : row) : string := ToKey (field r "team2").
Definition jsx_result1 (r : row) : float := if Number (field r "winner") =? 1 then 1 else 0.
Definition jsx_result2 (r : row) : float := if Number (field r "winner") =? 0 then 1 else 0.

End TeamsAndResults.

(** The outcomes on record for a competitor, as each variant records them. *)
Abbreviation pro_prior := (prior_outcomes pro_team1 pro_team2 pro_result1 pro_result2).
Abbreviation jsx_prior := (prior_outcomes jsx_team1 jsx_team2 jsx_result1 jsx_result2).

(** The shape the two variants of [addLast5WinColumns] share. *)
Section Rolling.
Variables (team1_of team2_of : row -> string) (result1_of result2_of : row -> float).
Variable emit : row -> float -> float -> row.

Fixpoint rolling_from (history : gmap string (list float)) (rows : list row)
    : option (list row) :=
  match rows with
  | [] => Some []
  | r :: rest =>
      t1Hist ← history_get history (team1_of r);
      t2Hist ← history_get history (team2_of r);
      let history := <[team1_of r := t1Hist ++ [result1_of r]]> history in
      let history := <[team2_of r := t2Hist ++ [result2_of r]]> history in
      outs ← rolling_from history rest;
      Some (emit r (rate (slice_last5 t1Hist)) (rate (slice_last5 t2Hist)) :: outs)
  end.

End Rolling.

(** The row each variant writes for a row and its two rates. *)
Section Emit.
Context `{Host}.
Definition pro_emit (r : row) (t1Rate t2Rate : float) : row :=
  <["winner" := JNum (Number (Pro.row_winner r))]>
    (<["team2_last5" := JNum t2Rate]> (<["team1_last5" := JNum t1Rate]> r)).

Definition jsx_emit (r : row) (t1Rate t2Rate : float) : row :=
  <["team2_last5" :=
      match field r "team2_last5" with
      | JUndefined => JNum t2Rate
      | v => JNum (Number v)
      end]>
    (<["team1_last5" :=
         match field r "team1_last5" with
         | JUndefined => JNum t1Rate
         | v => JNum (Number v)
         end]> r).
End Emit.

(** What [history] holds after the rows [earlier]: for every competitor, the
    outcomes recorded so far. *)
Definition history_of (team1_of team2_of : row -> string) (result1_of result2_of : row -> float)
    (earlier : list row) (history : gmap string (list float)) : Prop :=
  forall k, default [] (history !! k) =
            prior_outcomes team1_of team2_of result1_of result2_of k earlier.

(** A recorded outcome is 0 or 1. *)
Definition binary_outcome (x : float) : Prop := x = 0%float \/ x = 1%float.

(** The value of field [f] of the [i]-th row written, when there is one. *)
Definition written (outs : option (list row)) (i : nat) (f : string) : option jsval :=
  outs ← outs; r ← outs !! i; Some (field r f).

(** Normalisation parameters: the column of feature [j], its average and
    its population standard deviation (divisor [n]). *)
Definition column (X : list (list float)) (j : nat) : list float :=
  map (fun Xi => at_num Xi j) X.

Definition sum_of (xs : list float) : float := fold_left (fun a b => a + b)%float xs 0%float.

Definition average (xs : list float) : float := (sum_of xs / fromNat (length xs))%float.

Definition population_std (xs : list float) : float :=
  let mu := average xs in
  PrimFloat.sqrt (sum_of (map (fun x => (x - mu) * (x - mu))%float xs) / fromNat (length xs))%float.

(** Every row of [X] has [n] entries, all of them finite numbers. *)
Definition well_formed (n : nat) (X : list (list float)) : Prop :=
  Forall (fun Xi => length Xi = n /\ Forall (fun x => Number_isFinite x = true) Xi) X.

(** The ledger of a backtest: the bets placed on the replayed rows, in the
    order the loop places them, each with its market. *)
Section Ledger.
Context `{Host}.

Definition row_ledger (model : model_params) (selectedSport : sport) (current : row)
    : list (market_id * placed_bet) :=
  match row_bets model selectedSport current with
  | None => []
  | Some (ml, sp, tot) =>
      match ml with Some b => [(Moneyline, b)] | None => [] end ++
      match sp with Some b => [(Spread, b)] | None => [] end ++
      match tot with Some b => [(Total, b)] | None => [] end
  end.

Definition ledger (model : model_params) (selectedSport : sport) (rows : list row)
    : list (market_id * placed_bet) :=
  concat (map (row_ledger model selectedSport) rows).

End Ledger.

Definition market_id_eqb (a b : market_id) : bool :=
  match a, b with
  | Moneyline, Moneyline | Spread, Spread | Total, Total => true
  | _, _ => false
  end.

(** The payouts of one market in a ledger, and of all markets. *)
Definition payouts_of (mk : market_id) (l : list (market_id * placed_bet)) : list float :=
  map (fun e => payout (snd e)) (filter (fun e => market_id_eqb (fst e) mk = true) l).

Definition all_payouts (l : list (market_id * placed_bet)) : list float :=
  map (fun e => payout (snd e)) l.

(** The rational a finite double stands for (0 for NaN and the infinities),
    and the exact sum of a list of doubles. *)
Definition exact (x : float) : Q :=
  match Prim2SF x with
  | S754_finite s m e => (if s then -1 else 1) * (Z.pos m # 1) * Qpower (2 # 1) e
  | _ => 0
  end%Q.

Definition exact_sum (xs : list float) : Q := fold_right (fun x acc => exact x + acc)%Q 0%Q xs.

(** A state accounts for a ledger when its balance is the starting balance
    plus the ledger's payouts, added in order, and each market's entry counts
    and sums that market's bets. *)
Definition market_accounts (mk : market_id) (l : list (market_id * placed_bet)) (m : market)
    : Prop :=
  profit m = fold_left (fun a b => a + b)%float (payouts_of mk l) 0%float /\
  bets m = length (payouts_of mk l).

Definition accounts (l : list (market_id * placed_bet)) (st : bt_state) : Prop :=
  balance st = fold_left (fun a b => a + b)%float (all_payouts l) 10000%float /\
  market_accounts Moneyline l (moneyline (bt_bets st)) /\
  market_accounts Spread l (spread_market (bt_bets st)) /\
  market_accounts Total l (total_market (bt_bets st)).




(** Magnitudes of doubles: [SFfin x] says that [x] is a zero or a finite
    double, [SFbound k x] that moreover [|x| < 2 ^ k]. *)
Definition SFfin (x : spec_float) : Prop :=
  match x with S754_zero _ | S754_finite _ _ _ => True | _ => False end.

Definition SFbound (k : Z) (x : spec_float) : Prop :=
  match x with
  | S754_zero _ => True
  | S754_finite _ m e => (Zpos (digits2_pos m) + e <= k)%Z
  | _ => False
  end.

(** [SFsigned s x]: the double [x] is not NaN and its sign bit is [s]. *)
Definition SFsigned (s : bool) (x : spec_float) : Prop :=
  match x with
  | S754_zero s' | S754_infinity s' | S754_finite s' _ _ => s' = s
  | S754_nan => False
  end.

(** Two rows that name the same competitors and record the same results. *)
Section SameGames.
Variables (team1_of team2_of : row -> string) (result1_of result2_of : row -> float).

Definition same_games (r s : row) : Prop :=
  team1_of s = team1_of r /\ team2_of s = team2_of r /\
  result1_of s = result1_of r /\ result2_of s = result2_of r.

End SameGames.

(** A row that names both competitors under [team1] and [team2], has a
    winner, and brings no form columns of its own. *)
Definition plain_row (r : row) : Prop :=
  truthy (field r "team1") = true /\ truthy (field r "team2") = true /\
  is_blank (field r "winner") = false /\
  field r "team1_last5" = JUndefined /\ field r "team2_last5" = JUndefined.

(** The matrix [X] that [trainModel] builds from the usable rows. *)
Section TrainingMatrix.
Context `{Host}.

Definition training_matrix (selectedSport : sport) (trainingData : list row)
    : list (list float) :=
  map (fun r => map (train_feature r) (features selectedSport))
      (filter (fun r => usable_row r = true) trainingData).

End TrainingMatrix.

(** What the replay loop keeps true of its counters after [n] rows, the
    first of them [sorted[start]]: no market has more wins than bets or more
    bets than rows recorded in [history], and [history] holds at most one
    entry per row, under the row's index. *)
Definition market_counts (h : list (nat * float)) (m : market) : Prop :=
  (correct m <= bets m)%nat /\ (bets m <= length h)%nat.

Definition replay_counts (start n : nat) (st : bt_state) : Prop :=
  market_counts (history st) (moneyline (bt_bets st)) /\
  market_counts (history st) (spread_market (bt_bets st)) /\
  market_counts (history st) (total_market (bt_bets st)) /\
  (length (history st) <= n)%nat /\
  Forall (fun e => (start <= fst e < start + n)%nat) (history st).

(** A bet as the loop places it: on an expected value above 2, and at a
    cost of the stake of 100 when it loses. *)
Definition placed_as_coded (b : placed_bet) : Prop :=
  (2 <? bet_ev b)%float = true /\ (won b = false -> payout b = (-100)%float).

(** What a cell stored by [parseCSV] can be: the empty string, a number
    that is not NaN, or a text that does not read as a number. *)
Section CsvValue.
Context `{Host}.

Definition csv_value (v : jsval) : Prop :=
  v = JStr "" \/
  (exists x, v = JNum x /\ PrimFloat.is_nan x = false) \/
  (exists s, v = JStr s /\ s <> "" /\ PrimFloat.is_nan (StringToNumber s) = true).

End CsvValue.

(** The feature lists of the application's sports: a feature that mentions
    a moneyline is one of the two moneyline features, and both are there. *)
Definition moneyline_features_paired (features : list string) : Prop :=
  forall f, f ∈ features -> includes f "moneyline" = true ->
    (f = "team1_moneyline" \/ f = "team2_moneyline") /\
    "team1_moneyline" ∈ features /\ "team2_moneyline" ∈ features.

(** ** Test data *)

(** A host for the concrete runs below.  Their rows hold numbers and team
    names only and carry no date, so that the string parsers, number printing
    and [Date] are never consulted and every comparison made by the sort is
    [0 - 0], which leaves the rows in place (the sort is stable).  The model
    of the backtest runs has zero weights, so that [Math.exp] is consulted at
    [-0] only, where ECMAScript fixes its value to 1; away from zero this host
    answers NaN, which would show in every figure computed from it.  (The
    training run consults [Math.exp] elsewhere too; of that run only the fact
    that a model is stored is read off, which holds for every host by
    [trainModel_outcome].) *)
Definition test_host : Host :=
  {| Math_exp := fun x => if (x =? 0)%float then 1%float else nan;
     StringToNumber := fun _ => nan;
     parseFloat_string := fun _ => nan;
     NumberToString := fun _ => "NaN";
     Date_value := fun _ => nan;
     Date_of_week := fun _ _ => nan;
     Array_sort := fun _ rows => rows |}.

(** A game row as [parseCSV] builds it from a line of numbers and names. *)
Definition game (team1 team2 : string) (ml1 ml2 : float) (winner : jsval) : row :=
  {[ "team1" := JStr team1; "team2" := JStr team2;
     "team1_moneyline" := JNum ml1; "team2_moneyline" := JNum ml2;
     "winner" := winner ]}.

(** A model with zero weights: it gives every row the probability 0.5. *)
Definition flat_model : model_params :=
  {| weights := [0; 0; 0; 0]%float; bias := 0%float;
     means := [0; 0; 0; 0]%float; stds := [1; 1; 1; 1]%float;
     model_features := team_features |}.

(** Three games of team A, in order: a win, a loss, a win, and the rows
    [addLast5WinColumns] writes for them. *)
Definition win_of_A : row := game "A" "B" (-110) (-110) (JNum 1).
Definition loss_of_A : row := game "A" "C" 120 (-140) (JNum 0).
Definition third_of_A : row := game "A" "D" 100 (-120) (JNum 1).

Definition form_history : list row := [win_of_A; loss_of_A; third_of_A].

Definition form_history_out : list row :=
  default [] (@Pro.addLast5WinColumns test_host ([win_of_A; loss_of_A] ++ third_of_A :: [])).

(** A win of team A, then a game of team A whose row supplies its own
    [team1_last5]. *)
Definition supplied_form : list row :=
  [game "A" "B" (-110) (-110) (JNum 1);
   <["team1_last5" := JNum 0.2%float]> (game "A" "C" 120 (-140) (JNum 0))].


(** Games as uploaded, without a winner column: a game without moneylines,
    which the backtest skips, and a game that ends 21-24 with a spread of +3
    for the home team, a push. *)
Definition plain_game : row :=
  {[ "team1" := JStr "C"; "team2" := JStr "D";
     "home_final_score" := JNum 10%float; "away_final_score" := JNum 7%float ]}.

Definition push_game : row :=
  {[ "team1" := JStr "A"; "team2" := JStr "B";
     "team1_moneyline" := JNum (-110)%float; "team2_moneyline" := JNum (-110)%float;
     "home_final_score" := JNum 21%float; "away_final_score" := JNum 24%float;
     "spread" := JNum 3%float ]}.

Definition push_upload : list row := replicate 49 plain_game ++ [push_game].

(** An upload of fifty games: 49 without moneylines and one that team 2 won
    at -110 on both sides; the rows [addLast5WinColumns] makes of it; and the
    result of the backtest over them with [flat_model]. *)
Definition one_bet_upload : list row :=
  replicate 49 plain_game ++ [game "A" "B" (-110) (-110) (JNum 0)].

Definition one_bet_data : list row :=
  default [] (@Pro.addLast5WinColumns test_host one_bet_upload).

Definition one_bet_result : backtest_result :=
  {| res_bets :=
       {| moneyline := {| bets := 1; correct := 1; profit := 90.909090909090907;
                          evSum := 45.5 |};
          spread_market := empty_market;
          total_market := empty_market |};
     totalBets := 1;
     totalProfit := 90.909090909090907;
     roi := 90.909090909090907;
     finalBalance := 10090.90909090909;
     startingBalance := 10000;
     res_history := [(49%nat, 10090.90909090909%float)];
     gamesTested := 30 |}%float.

(** Two uploads for a team sport: [form_history] into an empty store, then
    one more game appended to what was stored. *)
Definition first_upload_out : list row :=
  default [] (@handleDataUpload test_host "nfl" nfl false [] form_history).

Definition second_upload : list row := [game "B" "A" 150 (-170) (JNum 1)].

Definition second_upload_out : list row :=
  default [] (@handleDataUpload test_host "nfl" nfl true first_upload_out second_upload).

(** The third row [addLast5WinColumns] writes for [form_history], and the
    rows the variant of src/SportsPredictionModel.jsx writes for it. *)
Definition third_out : row := default ∅ (form_history_out !! 2%nat).

Definition form_history_out_jsx : list row :=
  default [] (@Jsx.addLast5WinColumns test_host form_history).



(** A tennis model with zero weights, fifty tennis rows that also carry
    moneylines, a spread and a total, and the result of the backtest over
    them. *)
Definition tennis_model : model_params :=
  {| weights := [0; 0; 0; 0; 0; 0; 0]%float; bias := 0%float;
     means := [0; 0; 0; 0; 0; 0; 0]%float; stds := [1; 1; 1; 1; 1; 1; 1]%float;
     model_features := features tennis |}.

Definition tennis_game : row :=
  {[ "player1_ranking" := JNum 3%float; "player2_ranking" := JNum 11%float;
     "surface" := JNum 1%float; "player1_form" := JNum 0.8%float;
     "player2_form" := JNum 0.6%float; "head_to_head" := JNum 2%float;
     "fatigue_factor" := JNum 1%float; "winner" := JNum 1%float;
     "team1_moneyline" := JNum (-110)%float; "team2_moneyline" := JNum (-110)%float;
     "spread" := JNum 3%float; "total" := JNum 40%float ]}.

Definition tennis_data : list row := replicate 50 tennis_game.

Definition tennis_result : backtest_result :=
  default one_bet_result (@runBacktest test_host true (Some tennis_model) tennis tennis_data).

(** A tracked NFL game: the home side, favored by 3.5, wins 27-24. *)
Definition tracked_game : Tracker.Game :=
  {| Tracker.id := 1%float; Tracker.sport := "nfl"; Tracker.date := "2025-01-01";
     Tracker.homeTeam := "Chiefs"; Tracker.awayTeam := "Bills";
     Tracker.homeMoneyline := "-150"; Tracker.awayMoneyline := "+130";
     Tracker.spread := Some "-3.5"; Tracker.total := Some "48.5";
     Tracker.homeScore := Some "27"; Tracker.awayScore := Some "24";
     Tracker.bet := "away"; Tracker.betAmount := "100";
     Tracker.homeLast5 := None; Tracker.awayLast5 := None; Tracker.notes := None |}.


(* ================================================================== *)
(** * Part II. Properties                                              *)
(* ================================================================== *)

(** ** Binary64 comparisons *)

(** Facts about the comparisons of doubles, from their specification over
    [spec_float] ([FloatAxioms]). *)

Section FloatOrder.
Local Open Scope float_scope.

Lemma SFcompare_antisym (x y : spec_float) :
  SFcompare y x = option_map CompOpp (SFcompare x y).
Proof.
  destruct x as [sx|sx| |sx mx ex], y as [sy|sy| |sy my ey]; simpl;
    try reflexivity; try (destruct sx; reflexivity); try (destruct sy; reflexivity);
    try (destruct sx, sy; reflexivity).
  destruct sx, sy; simpl; try reflexivity;
    rewrite (Z.compare_antisym ex ey); destruct (ex ?= ey)%Z; simpl; try reflexivity;
    change PosDef.Pos.compare_cont with Pos.compare_cont;
    rewrite (Pos.compare_cont_antisym mx my Eq); reflexivity.
Qed.

Lemma ltb_compare (x y : float) :
  (x <? y) = match SFcompare (Prim2SF x) (Prim2SF y) with Some Lt => true | _ => false end.
Proof. rewrite FloatAxioms.ltb_spec. reflexivity. Qed.

Lemma leb_compare (x y : float) :
  (x <=? y) = match SFcompare (Prim2SF x) (Prim2SF y) with
              | Some Lt | Some Eq => true | _ => false end.
Proof. rewrite FloatAxioms.leb_spec. unfold SFleb. destruct (SFcompare _ _) as [[]|]; reflexivity. Qed.

Lemma eqb_compare (x y : float) :
  (x =? y) = match SFcompare (Prim2SF x) (Prim2SF y) with Some Eq => true | _ => false end.
Proof. rewrite FloatAxioms.eqb_spec. reflexivity. Qed.

Lemma ltb_leb (x y : float) : (x <? y) = true -> (x <=? y) = true.
Proof. rewrite ltb_compare, leb_compare. destruct (SFcompare _ _) as [[]|]; auto. Qed.

Lemma eqb_leb (x y : float) : (x =? y) = true -> (x <=? y) = true.
Proof. rewrite eqb_compare, leb_compare. destruct (SFcompare _ _) as [[]|]; auto. Qed.

Lemma ltb_asym (x y : float) : (x <? y) = true -> (y <? x) = false.
Proof.
  rewrite !ltb_compare, (SFcompare_antisym (Prim2SF x) (Prim2SF y)).
  destruct (SFcompare _ _) as [[]|]; simpl; auto; discriminate.
Qed.

Lemma eqb_not_ltb (x y : float) : (x =? y) = true -> (x <? y) = false /\ (y <? x) = false.
Proof.
  rewrite eqb_compare, !ltb_compare, (SFcompare_antisym (Prim2SF x) (Prim2SF y)).
  destruct (SFcompare _ _) as [[]|]; simpl; auto; discriminate.
Qed.

Lemma is_nan_Prim2SF (x : float) : PrimFloat.is_nan x = true <-> Prim2SF x = S754_nan.
Proof.
  unfold Prim2SF. destruct (PrimFloat.is_nan x); [tauto|].
  split; [discriminate|].
  destruct (is_zero x); [discriminate|].
  destruct (is_infinity x); [discriminate|].
  destruct (Z.frexp x). destruct (shr_fexp _ _ _ _ _). destruct (shr_m _); discriminate.
Qed.

Lemma ltb_not_nan (x y : float) :
  (x <? y) = true -> PrimFloat.is_nan x = false /\ PrimFloat.is_nan y = false.
Proof.
  rewrite ltb_compare. intros Hlt.
  split; apply not_true_is_false; rewrite is_nan_Prim2SF; intros E; rewrite E in Hlt;
    simpl in Hlt; try discriminate.
  destruct (Prim2SF x); discriminate.
Qed.

Lemma eqb_zero_cases (x : float) : (x =? 0) = true -> x = 0 \/ x = (-0).
Proof.
  rewrite eqb_compare. change (Prim2SF 0) with (S754_zero false).
  destruct (Prim2SF x) as [s|s| |s m e] eqn:E; simpl; try discriminate.
  - intros _. destruct s; [right|left]; apply Prim2SF_inj; rewrite E; reflexivity.
  - destruct s; discriminate.
  - destruct s; discriminate.
Qed.

Lemma not_nan_eqb (x : float) : PrimFloat.is_nan x = false -> (x =? x) = true.
Proof. unfold PrimFloat.is_nan. destruct (x =? x); [reflexivity | discriminate]. Qed.

Lemma leb_refl (x : float) : PrimFloat.is_nan x = false -> (x <=? x) = true.
Proof. intros Hx. apply eqb_leb, not_nan_eqb, Hx. Qed.

Lemma compare_total (x y : float) :
  PrimFloat.is_nan x = false -> PrimFloat.is_nan y = false ->
  (x <? y) = false -> (y <? x) = false -> (x =? y) = true.
Proof.
  intros Hx Hy. rewrite !ltb_compare, eqb_compare, (SFcompare_antisym (Prim2SF x) (Prim2SF y)).
  assert (Prim2SF x <> S754_nan) as Nx by (rewrite <- is_nan_Prim2SF, Hx; discriminate).
  assert (Prim2SF y <> S754_nan) as Ny by (rewrite <- is_nan_Prim2SF, Hy; discriminate).
  destruct (SFcompare (Prim2SF x) (Prim2SF y)) as [[]|] eqn:E; simpl; try discriminate; auto.
  destruct (Prim2SF x), (Prim2SF y); simpl in E; congruence.
Qed.

Lemma eqb_sym (x y : float) : (x =? y) = true -> (y =? x) = true.
Proof.
  rewrite !eqb_compare, (SFcompare_antisym (Prim2SF x) (Prim2SF y)).
  destruct (SFcompare _ _) as [[]|]; simpl; auto.
Qed.

Lemma Math_min_case (a b : float) :
  PrimFloat.is_nan a = false -> PrimFloat.is_nan b = false ->
  (Math_min a b = a /\ (a <=? b) = true) \/ (Math_min a b = b /\ (b <=? a) = true).
Proof.
  intros Ha Hb. unfold Math_min. rewrite Ha, Hb. simpl.
  destruct (a <? b) eqn:Hab; [left; auto using ltb_leb|].
  destruct (b <? a) eqn:Hba; [right; auto using ltb_leb|].
  pose proof (compare_total a b Ha Hb Hab Hba) as Heq.
  destruct (classify a); auto using eqb_leb, eqb_sym.
Qed.

Lemma Math_max_case (a b : float) :
  PrimFloat.is_nan a = false -> PrimFloat.is_nan b = false ->
  (Math_max a b = a /\ (b <=? a) = true) \/ (Math_max a b = b /\ (a <=? b) = true).
Proof.
  intros Ha Hb. unfold Math_max. rewrite Ha, Hb. simpl.
  destruct (a <? b) eqn:Hab; [right; auto using ltb_leb|].
  destruct (b <? a) eqn:Hba; [left; auto using ltb_leb|].
  pose proof (compare_total a b Ha Hb Hab Hba) as Heq.
  destruct (classify a); auto using eqb_leb, eqb_sym.
Qed.

(** [Math.max(lo, Math.min(hi, c))] lies between [lo] and [hi] when [c] is a number. *)
Lemma clamp_bounds (lo hi c : float) :
  PrimFloat.is_nan lo = false -> PrimFloat.is_nan hi = false -> (lo <=? hi) = true ->
  PrimFloat.is_nan c = false ->
  (lo <=? Math_max lo (Math_min hi c)) = true /\ (Math_max lo (Math_min hi c) <=? hi) = true.
Proof.
  intros Hlo Hhi Hle Hc.
  destruct (Math_min_case hi c Hhi Hc) as [[-> _]|[-> Hch]].
  - destruct (Math_max_case lo hi Hlo Hhi) as [[-> _]|[-> _]]; auto using leb_refl.
  - destruct (Math_max_case lo c Hlo Hc) as [[-> _]|[-> Hlc]]; auto using leb_refl.
Qed.

Lemma ltb_not_leb (x y : float) : (x <? y) = true -> (y <=? x) = false.
Proof.
  rewrite ltb_compare, leb_compare, (SFcompare_antisym (Prim2SF x) (Prim2SF y)).
  destruct (SFcompare _ _) as [[]|]; simpl; auto; discriminate.
Qed.

(** A double that compares equal to a finite non-zero double is that double. *)
Lemma eqb_finite_eq (x y : float) (s : bool) (m : positive) (e : Z) :
  Prim2SF y = S754_finite s m e -> (x =? y) = true -> x = y.
Proof.
  intros Hy. rewrite eqb_compare, Hy. intros Hc. apply Prim2SF_inj. rewrite Hy.
  destruct (Prim2SF x) as [sx|sx| |sx mx ex]; simpl in Hc; try discriminate;
    try (destruct sx; discriminate); try (destruct s; discriminate).
  destruct sx, s; try discriminate;
    destruct (ex ?= e)%Z eqn:He; try discriminate;
    apply Z.compare_eq in He; subst ex;
    destruct (PosDef.Pos.compare_cont Eq mx m) eqn:Hm; try discriminate;
    apply Pos.compare_eq in Hm; subst mx; reflexivity.
Qed.

End FloatOrder.

(** ** Binary64 arithmetic never invents a NaN *)

Section Rounding.
Local Open Scope Z_scope.

Lemma shr_1_nonneg (mrs : shr_record) : 0 <= shr_m mrs -> 0 <= shr_m (shr_1 mrs).
Proof. destruct mrs as [[|[p|p|]|[p|p|]] r s]; simpl; lia. Qed.

Lemma iter_pos_nonneg (n : positive) (mrs : shr_record) :
  0 <= shr_m mrs -> 0 <= shr_m (SpecFloat.iter_pos shr_1 n mrs).
Proof.
  revert mrs. induction n as [n IH|n IH|]; intros mrs Hm; simpl;
    auto using shr_1_nonneg.
Qed.

Lemma shr_fexp_nonneg (m e : Z) (l : location) :
  0 <= m -> 0 <= shr_m (fst (shr_fexp prec emax m e l)).
Proof.
  intros Hm. unfold shr_fexp, shr.
  assert (0 <= shr_m (shr_record_of_loc m l)) as H0 by (destruct l as [|[]]; exact Hm).
  destruct (fexp prec emax (Zdigits2 m + e) - e); simpl; auto using iter_pos_nonneg.
Qed.

Lemma round_nearest_even_nonneg (m : Z) (l : location) :
  0 <= m -> 0 <= round_nearest_even m l.
Proof. intros Hm. destruct l as [|[]]; simpl; try destruct (Z.even m); lia. Qed.

Lemma binary_round_aux_not_nan (sx : bool) (mx ex : Z) (lx : location) :
  0 <= mx -> binary_round_aux prec emax sx mx ex lx <> S754_nan.
Proof.
  intros Hm. unfold binary_round_aux.
  pose proof (shr_fexp_nonneg mx ex lx Hm) as H1.
  destruct (shr_fexp prec emax mx ex lx) as [mrs' e']. simpl in H1.
  pose proof (shr_fexp_nonneg _ e' loc_Exact
                (round_nearest_even_nonneg _ (loc_of_shr_record mrs') H1)) as H2.
  destruct (shr_fexp prec emax _ e' loc_Exact) as [mrs'' e'']. simpl in H2.
  destruct (shr_m mrs''); try lia; try discriminate.
  destruct (e'' <=? emax - prec); discriminate.
Qed.

Lemma binary_normalize_not_nan (m e : Z) (sz : bool) :
  binary_normalize prec emax m e sz <> S754_nan.
Proof.
  unfold binary_normalize, binary_round.
  destruct m; try discriminate;
    destruct (shl_align _ _ _); apply binary_round_aux_not_nan; lia.
Qed.

(** *** Magnitudes: rounding does not overflow below [2 ^ 1023] *)

Lemma digits2_pos_bounds (p : positive) :
  Zpos p < 2 ^ Zpos (digits2_pos p) /\ 2 ^ Zpos (digits2_pos p) <= 2 * Zpos p.
Proof.
  induction p as [p IH|p IH|]; simpl digits2_pos.
  - rewrite Pos2Z.inj_succ, Z.pow_succ_r by lia. lia.
  - rewrite Pos2Z.inj_succ, Z.pow_succ_r by lia. lia.
  - simpl. lia.
Qed.

Lemma Zdigits2_nonneg (m : Z) : 0 <= Zdigits2 m.
Proof. destruct m; simpl; lia. Qed.

Lemma Zdigits2_le (m k : Z) : 0 <= m -> 0 <= k -> m < 2 ^ k -> Zdigits2 m <= k.
Proof.
  intros Hm Hk Hlt. destruct m as [|p|p]; simpl; try lia.
  destruct (digits2_pos_bounds p) as [_ Hle].
  destruct (Z_le_gt_dec (Zpos (digits2_pos p)) k) as [|Hgt]; [assumption|exfalso].
  assert (2 ^ (k + 1) <= 2 ^ Zpos (digits2_pos p)) as Hp
    by (apply Z.pow_le_mono_r; lia).
  rewrite Z.pow_add_r in Hp by lia. lia.
Qed.

Lemma Zdigits2_lt_pow (m : Z) : 0 <= m -> m < 2 ^ Zdigits2 m.
Proof.
  intros Hm. destruct m as [|p|p]; simpl; try lia.
  apply digits2_pos_bounds.
Qed.

Lemma shr_1_div (mrs : shr_record) :
  0 <= shr_m mrs -> shr_m (shr_1 mrs) = shr_m mrs / 2.
Proof.
  intros Hm. rewrite <- Z.div2_div.
  destruct mrs as [[|[p|p|]|[p|p|]] r s]; simpl in *; try reflexivity; lia.
Qed.

Lemma pow_xI (n : positive) : 2 ^ Zpos n~1 = 2 * (2 ^ Zpos n * 2 ^ Zpos n).
Proof.
  replace (Zpos n~1) with (Zpos n + Zpos n + 1) by lia.
  rewrite !Z.pow_add_r by lia. change (2 ^ 1) with 2. lia.
Qed.

Lemma pow_xO (n : positive) : 2 ^ Zpos n~0 = 2 ^ Zpos n * 2 ^ Zpos n.
Proof.
  replace (Zpos n~0) with (Zpos n + Zpos n) by lia.
  rewrite Z.pow_add_r by lia. reflexivity.
Qed.

Lemma iter_pos_shr (n : positive) : forall mrs : shr_record,
  0 <= shr_m mrs ->
  shr_m (SpecFloat.iter_pos shr_1 n mrs) * 2 ^ Zpos n <= shr_m mrs.
Proof.
  induction n as [n IH|n IH|]; intros mrs Hm; simpl SpecFloat.iter_pos.
  - pose proof (shr_1_nonneg mrs Hm) as H1.
    pose proof (iter_pos_nonneg n _ H1) as H2.
    pose proof (iter_pos_nonneg n _ H2) as H3.
    pose proof (IH _ H1) as I1. pose proof (IH _ H2) as I2.
    pose proof (shr_1_div mrs Hm) as D.
    assert (0 < 2 ^ Zpos n) as Hp by (apply Z.pow_pos_nonneg; lia).
    rewrite pow_xI.
    assert (shr_m (shr_1 mrs) * 2 <= shr_m mrs)
      by (rewrite D; pose proof (Z.mul_div_le (shr_m mrs) 2); lia).
    nia.
  - pose proof (iter_pos_nonneg n _ Hm) as H2.
    pose proof (IH _ Hm) as I1. pose proof (IH _ H2) as I2.
    assert (0 < 2 ^ Zpos n) as Hp by (apply Z.pow_pos_nonneg; lia).
    rewrite pow_xO. nia.
  - rewrite (shr_1_div mrs Hm). pose proof (Z.mul_div_le (shr_m mrs) 2).
    change (2 ^ 1) with 2. lia.
Qed.

Lemma shr_fexp_bounds (m e : Z) (l : location) :
  0 <= m ->
  0 <= shr_m (fst (shr_fexp prec emax m e l)) /\
  snd (shr_fexp prec emax m e l) = Z.max e (fexp prec emax (Zdigits2 m + e)) /\
  shr_m (fst (shr_fexp prec emax m e l)) * 2 ^ (snd (shr_fexp prec emax m e l) - e) <= m.
Proof.
  intros Hm. unfold shr_fexp, shr.
  assert (shr_m (shr_record_of_loc m l) = m) as H0 by (destruct l as [|[]]; reflexivity).
  destruct (fexp prec emax (Zdigits2 m + e) - e) as [|n|n] eqn:En; cbn [fst snd].
  - rewrite H0, Z.sub_diag. simpl. lia.
  - split; [apply iter_pos_nonneg; lia|]. split; [lia|].
    replace (e + Zpos n - e) with (Zpos n) by lia.
    rewrite <- H0 at 2. apply iter_pos_shr. lia.
  - rewrite H0, Z.sub_diag. simpl. lia.
Qed.

Lemma round_nearest_even_le (m : Z) (l : location) :
  0 <= m -> 0 <= round_nearest_even m l <= m + 1.
Proof. intros Hm. destruct l as [|[]]; simpl; try destruct (Z.even m); lia. Qed.

Lemma shifted_digits (m1 m D s : Z) :
  0 <= m1 -> 0 <= s -> 0 <= D -> m1 * 2 ^ s <= m -> m < 2 ^ D ->
  m1 < 2 ^ Z.max (D - s) 0.
Proof.
  intros H1 Hs HD Hle Hlt.
  assert (0 < 2 ^ s) as Hp by (apply Z.pow_pos_nonneg; lia).
  destruct (Z_le_gt_dec s D) as [Hsd|Hsd].
  - rewrite Z.max_l by lia.
    replace D with ((D - s) + s) in Hlt by lia. rewrite Z.pow_add_r in Hlt by lia.
    nia.
  - rewrite Z.max_r by lia. simpl.
    assert (2 ^ D < 2 ^ s) by (apply Z.pow_lt_mono_r; lia). nia.
Qed.

Lemma binary_round_aux_bound (sx : bool) (mx ex : Z) (lx : location) (k : Z) :
  0 <= mx -> ex <= emax - prec -> Zdigits2 mx + ex <= k -> SpecFloat.emin prec emax <= k ->
  k + 1 <= emax ->
  SFbound (k + 1) (binary_round_aux prec emax sx mx ex lx).
Proof.
  intros Hm Hex Hk Hmin Hmax. unfold binary_round_aux.
  destruct (shr_fexp_bounds mx ex lx Hm) as (H1 & E1 & B1).
  destruct (shr_fexp prec emax mx ex lx) as [mrs' e']. cbn [fst snd] in H1, E1, B1.
  pose proof (round_nearest_even_le _ (loc_of_shr_record mrs') H1) as [R0 R1].
  set (m2 := round_nearest_even (shr_m mrs') (loc_of_shr_record mrs')) in *.
  destruct (shr_fexp_bounds m2 e' loc_Exact R0) as (H2 & E2 & B2).
  destruct (shr_fexp prec emax m2 e' loc_Exact) as [mrs'' e'']. cbn [fst snd] in H2, E2, B2.
  pose proof (Zdigits2_nonneg mx) as HD.
  pose proof (Zdigits2_lt_pow mx Hm) as HlD.
  assert (0 <= e' - ex) as Hs by lia.
  pose proof (shifted_digits _ _ _ _ H1 Hs HD B1 HlD) as Hm1.
  set (M := Z.max (Zdigits2 mx - (e' - ex)) 0) in *.
  assert (m2 < 2 ^ (M + 1)) as Hm2
    by (rewrite Z.pow_add_r by lia; change (2 ^ 1) with 2; lia).
  assert (Zdigits2 m2 <= M + 1) as Hd2 by (apply Zdigits2_le; lia).
  assert (e' <= Z.max k (SpecFloat.emin prec emax)) as He'.
  { rewrite E1. unfold fexp, SpecFloat.emin in *.
    change prec with 53 in *. change emax with 1024 in *. lia. }
  unfold fexp, SpecFloat.emin in *. change prec with 53 in *. change emax with 1024 in *.
  destruct (shr_m mrs'') as [|m''|m''] eqn:Em''; [exact I | | lia].
  assert (0 <= e'' - e') as Hs2 by lia.
  assert (0 <= M + 1) as HM by lia.
  pose proof (shifted_digits _ _ _ _ H2 Hs2 HM B2 Hm2) as Hm3.
  assert (e'' - e' <= M + 1) as Ht.
  { destruct (Z_le_gt_dec (e'' - e') (M + 1)); [assumption|].
    rewrite Z.max_r in Hm3 by lia. simpl in Hm3. lia. }
  rewrite Z.max_l in Hm3 by lia.
  assert (Zdigits2 (Zpos m'') <= M + 1 - (e'' - e')) as Hd3 by (apply Zdigits2_le; lia).
  simpl in Hd3.
  assert (e'' <= 1024 - 53) as Hfin by lia.
  apply Z.leb_le in Hfin. rewrite Hfin. cbn [SFbound]. lia.
Qed.

Lemma iter_xO_value (d m : positive) : Zpos (Pos.iter xO m d) = Zpos m * 2 ^ Zpos d.
Proof.
  change (Pos.iter xO m d) with (shift_pos d m).
  rewrite shift_pos_correct, Zpower_pos_nat, Zpower_nat_Z, positive_nat_Z. lia.
Qed.

Lemma shl_align_value (mx : positive) (ex ez : Z) :
  ez <= ex ->
  snd (shl_align mx ex ez) = ez /\
  Zpos (fst (shl_align mx ex ez)) = Zpos mx * 2 ^ (ex - ez).
Proof.
  intros Hle. unfold shl_align. destruct (ez - ex) as [|d|d] eqn:Ed; cbn [fst snd]; try lia.
  - replace (ex - ez) with 0 by lia. simpl. lia.
  - rewrite iter_xO_value. replace (ex - ez) with (Zpos d) by lia. auto.
Qed.

Lemma binary_round_bound (sx : bool) (mx : positive) (ex k : Z) :
  Zpos (digits2_pos mx) + ex <= k -> SpecFloat.emin prec emax <= k -> k + 1 <= emax ->
  SFbound (k + 1) (binary_round prec emax sx mx ex).
Proof.
  intros Hk Hmin Hmax. unfold binary_round.
  set (f := fexp prec emax (Zpos (digits2_pos mx) + ex)).
  assert (f <= emax - prec) as Hf.
  { subst f. unfold fexp, SpecFloat.emin in *.
    change prec with 53 in *. change emax with 1024 in *. lia. }
  destruct (Z_le_gt_dec f ex) as [Hle|Hgt].
  - destruct (shl_align_value mx ex f Hle) as [E V].
    destruct (shl_align mx ex f) as [mz ez]. cbn [fst snd] in E, V. subst ez.
    apply binary_round_aux_bound; try assumption; try lia.
    assert (Zdigits2 (Zpos mz) <= Zpos (digits2_pos mx) + (ex - f)); [|lia].
    apply Zdigits2_le; try lia.
    rewrite V, Z.pow_add_r by lia.
    pose proof (proj1 (digits2_pos_bounds mx)).
    assert (0 < 2 ^ (ex - f)) by (apply Z.pow_pos_nonneg; lia). nia.
  - unfold shl_align. destruct (f - ex) eqn:Ed; try lia.
    apply binary_round_aux_bound; try assumption; try lia.
Qed.

Lemma binary_normalize_bound (m e : Z) (sz : bool) (k : Z) :
  Zdigits2 m + e <= k -> SpecFloat.emin prec emax <= k -> k + 1 <= emax ->
  SFbound (k + 1) (binary_normalize prec emax m e sz).
Proof.
  intros Hk Hmin Hmax. destruct m; simpl; auto using binary_round_bound.
Qed.

Lemma Zdigits2_abs_le (m k : Z) : 0 <= k -> Z.abs m < 2 ^ k -> Zdigits2 m <= k.
Proof.
  intros Hk Hlt. destruct m as [|p|p]; [simpl; lia | apply Zdigits2_le; lia |].
  change (Zdigits2 (Zneg p)) with (Zdigits2 (Zpos p)). apply Zdigits2_le; lia.
Qed.

Lemma SFbound_mono (k k' : Z) (x : spec_float) : k <= k' -> SFbound k x -> SFbound k' x.
Proof. intros Hk. destruct x; cbn [SFbound]; auto. lia. Qed.

Lemma SFsub_bound (x y : spec_float) (k : Z) :
  SFbound k x -> SFbound k y -> SpecFloat.emin prec emax <= k -> k + 2 <= emax ->
  SFbound (k + 2) (SFsub prec emax x y).
Proof.
  intros Hx Hy Hmin Hmax.
  destruct x as [sx|sx| |sx mx ex], y as [sy|sy| |sy my ey];
    cbn [SFbound] in Hx, Hy; try contradiction.
  - destruct sx, sy; exact I.
  - cbn [SFsub SFbound]. lia.
  - cbn [SFsub SFbound]. lia.
  - unfold SFsub.
    set (ez := Z.min ex ey).
    destruct (shl_align_value mx ex ez ltac:(lia)) as [_ Vx].
    destruct (shl_align_value my ey ez ltac:(lia)) as [_ Vy].
    replace (k + 2) with ((k + 1) + 1) by lia.
    apply binary_normalize_bound; try lia.
    assert (Zdigits2 (cond_Zopp sx (Zpos (fst (shl_align mx ex ez)))
                      - cond_Zopp sy (Zpos (fst (shl_align my ey ez)))) <= k + 1 - ez); [|lia].
    pose proof (proj1 (digits2_pos_bounds mx)) as Bx.
    pose proof (proj1 (digits2_pos_bounds my)) as By.
    assert (0 < 2 ^ (ex - ez)) as Px by (apply Z.pow_pos_nonneg; lia).
    assert (0 < 2 ^ (ey - ez)) as Py by (apply Z.pow_pos_nonneg; lia).
    assert (Zpos mx * 2 ^ (ex - ez) < 2 ^ (k - ez)) as Mx.
    { apply Z.lt_le_trans with (2 ^ (Zpos (digits2_pos mx) + (ex - ez))).
      - rewrite Z.pow_add_r by lia. nia.
      - apply Z.pow_le_mono_r; lia. }
    assert (Zpos my * 2 ^ (ey - ez) < 2 ^ (k - ez)) as My.
    { apply Z.lt_le_trans with (2 ^ (Zpos (digits2_pos my) + (ey - ez))).
      - rewrite Z.pow_add_r by lia. nia.
      - apply Z.pow_le_mono_r; lia. }
    apply Zdigits2_abs_le; [lia|].
    replace (k + 1 - ez) with ((k - ez) + 1) by lia.
    rewrite Z.pow_add_r by lia. change (2 ^ 1) with 2.
    rewrite Vx, Vy. destruct sx, sy; unfold cond_Zopp; lia.
Qed.

(** The mantissa and exponent of a valid double. *)
Lemma valid_bounds (m : positive) (e : Z) :
  bounded prec emax m e = true -> Zpos (digits2_pos m) <= prec /\ e <= emax - prec.
Proof.
  unfold bounded, canonical_mantissa, fexp, SpecFloat.emin.
  change prec with 53. change emax with 1024.
  intros Hb. apply andb_prop in Hb as [Hc He].
  apply Z.eqb_eq in Hc. apply Z.leb_le in He. lia.
Qed.

Lemma SFmul_const_bound (x : spec_float) (sc : bool) (mc : positive) (ec k : Z) :
  valid_binary x = true ->
  ec <= 0 -> Zpos (digits2_pos mc) + ec + emax <= k -> SpecFloat.emin prec emax <= k ->
  k + 1 <= emax ->
  match x with S754_zero _ | S754_finite _ _ _ => True | _ => False end ->
  SFbound (k + 1) (SFmul prec emax x (S754_finite sc mc ec)).
Proof.
  intros Hv Hec Hk Hmin Hmax Hx.
  destruct x as [sx|sx| |sx mx ex]; try contradiction; [exact I|].
  unfold SFmul. simpl in Hv. destruct (valid_bounds _ _ Hv) as [Hd He].
  apply binary_round_aux_bound; try lia.
  assert (Zdigits2 (Zpos (mx * mc)) <= Zpos (digits2_pos mx) + Zpos (digits2_pos mc)).
  { apply Zdigits2_le; try lia. rewrite Pos2Z.inj_mul, Z.pow_add_r by lia.
    pose proof (proj1 (digits2_pos_bounds mx)). pose proof (proj1 (digits2_pos_bounds mc)).
    nia. }
  change prec with 53 in *. change emax with 1024 in *. lia.
Qed.

End Rounding.

Section NotNaN.
Local Open Scope float_scope.

Lemma not_nan_Prim2SF (x : float) : PrimFloat.is_nan x = false <-> Prim2SF x <> S754_nan.
Proof.
  rewrite <- is_nan_Prim2SF. destruct (PrimFloat.is_nan x); split; congruence.
Qed.

(** A number times a finite, non-zero constant is a number. *)
Lemma mul_const_not_nan (x c : float) (s : bool) (m : positive) (e : Z) :
  Prim2SF c = S754_finite s m e ->
  PrimFloat.is_nan x = false -> PrimFloat.is_nan (x * c) = false.
Proof.
  intros Hc. rewrite !not_nan_Prim2SF, mul_spec, Hc. unfold SF64mul.
  destruct (Prim2SF x); simpl; try congruence.
  intros _. apply binary_round_aux_not_nan. lia.
Qed.

(** A finite constant plus a number is a number. *)
Lemma add_const_not_nan (c y : float) (s : bool) (m : positive) (e : Z) :
  Prim2SF c = S754_finite s m e ->
  PrimFloat.is_nan y = false -> PrimFloat.is_nan (c + y) = false.
Proof.
  intros Hc. rewrite !not_nan_Prim2SF, add_spec, Hc. unfold SF64add.
  destruct (Prim2SF y); simpl; try congruence.
  intros _. apply binary_normalize_not_nan.
Qed.

(** A finite double is a zero or a finite [spec_float]. *)
Lemma finite_Prim2SF (x : float) :
  PrimFloat.is_finite x = true ->
  (exists s, Prim2SF x = S754_zero s) \/ (exists s m e, Prim2SF x = S754_finite s m e).
Proof.
  unfold PrimFloat.is_finite, Prim2SF.
  destruct (PrimFloat.is_nan x); [discriminate|].
  destruct (is_infinity x); [discriminate|]. intros _.
  destruct (is_zero x); [left; eauto|].
  destruct (Z.frexp x). destruct (shr_fexp _ _ _ _ _). destruct (shr_m _); eauto.
Qed.

Lemma SFbound_fin (k : Z) (x : spec_float) : SFbound k x -> SFfin x.
Proof. destruct x; simpl; auto. Qed.

Lemma finite_SFfin (x : float) : PrimFloat.is_finite x = true -> SFfin (Prim2SF x).
Proof.
  intros Hx. destruct (finite_Prim2SF x Hx) as [[s ->]|(s & m & e & ->)]; exact I.
Qed.

(** A probability, a double between 0 and 1, is below [2 ^ 1]. *)
Lemma probability_SFbound (p : float) :
  (0 <=? p) = true -> (p <=? 1) = true -> SFbound 1 (Prim2SF p).
Proof.
  rewrite !leb_compare. pose proof (Prim2SF_valid p) as Hv. revert Hv.
  change (Prim2SF 0) with (S754_zero false).
  change (Prim2SF 1) with (S754_finite false 4503599627370496 (-52)).
  destruct (Prim2SF p) as [s|s| |s m e]; cbn [SFcompare SFbound valid_binary SpecFloat.valid_binary].
  - auto.
  - destruct s; discriminate.
  - discriminate.
  - intros Hv. destruct s; [discriminate|]. intros _.
    destruct (valid_bounds _ _ Hv) as [Hd He]. change prec with 53%Z in Hd.
    destruct (e ?= -52)%Z eqn:Ec.
    + intros _. apply Z.compare_eq in Ec. lia.
    + intros _. rewrite Z.compare_lt_iff in Ec. lia.
    + discriminate.
Qed.

(** The product of two finite doubles is a number. *)
Lemma SFmul_fin_not_nan (x y : spec_float) :
  SFfin x -> SFfin y -> SFmul prec emax x y <> S754_nan.
Proof.
  destruct x as [sx|sx| |sx mx ex], y as [sy|sy| |sy my ey]; simpl; try contradiction;
    intros _ _; try discriminate.
  apply binary_round_aux_not_nan. lia.
Qed.

Lemma SFadd_fin_not_nan (x y : spec_float) :
  SFfin x -> y <> S754_nan -> SFadd prec emax x y <> S754_nan.
Proof.
  destruct x as [sx|sx| |sx mx ex], y as [sy|sy| |sy my ey]; simpl; try contradiction;
    intros _ Hy; try discriminate; try congruence.
  - destruct sx, sy; discriminate.
  - apply binary_normalize_not_nan.
Qed.

Lemma abs_SFfin (x : float) : SFfin (Prim2SF x) -> SFfin (Prim2SF (abs x)).
Proof. rewrite abs_spec. destruct (Prim2SF x); simpl; auto. Qed.

End NotNaN.

(** Two doubles differ when their [spec_float] forms do. *)
Ltac float_neq :=
  let E := fresh "E" in
  intros E; apply (f_equal Prim2SF) in E; vm_compute in E; discriminate E.

(** ** Odds conversion *)

Section OddsProperties.
Context `{Host}.
Local Open Scope float_scope.


(** C3 (amended).  [moneylineToFairProb] is a total function of its input
    (it never throws).  With [num = Number(ml)]: a non-finite [num] (NaN for
    [undefined] and non-numeric strings, or an infinity) gives the neutral
    0.5; a finite [num > 0] gives [100 / (num + 100)]; a finite [num < 0]
    gives [|num| / (|num| + 100)]; and a zero [num] (the numbers [0] and
    [-0], and also [null] and the empty string) gives 0, not 0.5. *)
Theorem moneylineToFairProb_cases (ml : jsval) :
  let num := Number ml in
  (Number_isFinite num = false -> moneylineToFairProb ml = 0.5) /\
  (Number_isFinite num = true -> (0 <? num) = true ->
   moneylineToFairProb ml = 100 / (num + 100)) /\
  (Number_isFinite num = true -> (num <? 0) = true ->
   moneylineToFairProb ml = abs num / (abs num + 100)) /\
  ((num =? 0) = true -> moneylineToFairProb ml = 0).
Proof.
  unfold moneylineToFairProb. cbv zeta. repeat apply conj.
  - intros ->. reflexivity.
  - intros -> ->. reflexivity.
  - intros -> Hneg. rewrite (ltb_asym _ _ Hneg). reflexivity.
  - intros Hz. destruct (eqb_zero_cases _ Hz) as [-> | ->]; vm_compute; reflexivity.
Qed.

(** C4 (amended).  With [total = p1 + p2] (a double): when [total <= 1.0001],
    in particular when [total == 1], [removeVig] returns its inputs unchanged;
    when [total] is finite and above 1.0001 it returns the two double-precision
    quotients [p1 / total] and [p2 / total].  In exact arithmetic the
    quotients [a / (a + b)] and [b / (a + b)] sum to 1 and keep the ratio
    [a : b]; the rounded quotients need not sum to exactly 1 (see
    [removeVig_sum_not_one]). *)
Theorem removeVig_cases (p1 p2 : float) :
  let total := p1 + p2 in
  ((total <=? 1.0001) = true -> removeVig p1 p2 = (p1, p2)) /\
  ((total =? 1) = true -> removeVig p1 p2 = (p1, p2)) /\
  (Number_isFinite total = true -> (1.0001 <? total) = true ->
   removeVig p1 p2 = (p1 / total, p2 / total)) /\
  (forall a b : Q, ~ (a + b == 0)%Q ->
     (a / (a + b) + b / (a + b) == 1)%Q /\
     ((a / (a + b)) * b == (b / (a + b)) * a)%Q).
Proof.
  unfold removeVig. cbv zeta. repeat apply conj.
  - intros ->. rewrite orb_true_r. reflexivity.
  - intros H1. rewrite (eqb_finite_eq _ 1 false 4503599627370496 (-52) eq_refl H1).
    reflexivity.
  - intros -> Hgt. rewrite (ltb_not_leb _ _ Hgt). reflexivity.
  - intros a b Hab. split; field; assumption.
Qed.

End OddsProperties.

Section OddsExamples.
Local Existing Instance test_host.
Local Open Scope float_scope.

(** C3, counterexample: the moneyline 0 is converted to the probability 0,
    not to the neutral 0.5. *)
Lemma moneylineToFairProb_zero :
  moneylineToFairProb (JNum 0) = 0 /\ moneylineToFairProb (JNum 0) <> 0.5.
Proof. split; [vm_compute; reflexivity | float_neq]. Qed.

(** C4, counterexample: the fair probabilities of the moneylines -115 and
    +95 sum to more than 1.0001, and the two quotients [removeVig] returns
    for them sum to 0.9999999999999999, not to 1. *)
Lemma removeVig_sum_not_one :
  let p1 := moneylineToFairProb (JNum (-115)) in
  let p2 := moneylineToFairProb (JNum 95) in
  (1.0001 <? p1 + p2) = true /\
  removeVig p1 p2 = (p1 / (p1 + p2), p2 / (p1 + p2)) /\
  fst (removeVig p1 p2) + snd (removeVig p1 p2) = 0.99999999999999989 /\
  fst (removeVig p1 p2) + snd (removeVig p1 p2) <> 1.
Proof.
  cbv zeta. repeat apply conj; try (vm_compute; reflexivity). float_neq.
Qed.


(** C6, counterexample: at probability 0.5 and -110 on both sides the two
    expected values are equal and the side chosen is team 2. *)
Lemma calculateEV_tie :
  side_ev 0.5 (payout_multiplier (-110)) = side_ev (1 - 0.5) (payout_multiplier (-110)) /\
  side (calculateEV 0.5 (-110) (-110)) = Team2 /\
  side (calculateEV 0.5 (-110) (-110)) <> Team1.
Proof. repeat apply conj; try (vm_compute; reflexivity). discriminate. Qed.

End OddsExamples.

Section RoundTrip.
Local Open Scope float_scope.






End RoundTrip.

(** ** Expected value *)

Section EVProperties.
Local Open Scope float_scope.

Lemma Math_max_gt (a b : float) : (b <? a) = true -> Math_max a b = a.
Proof.
  intros Hlt. destruct (ltb_not_nan _ _ Hlt) as [Hb Ha].
  unfold Math_max. rewrite Ha, Hb, (ltb_asym _ _ Hlt), Hlt. reflexivity.
Qed.

Lemma Math_max_lt (a b : float) : (a <? b) = true -> Math_max a b = b.
Proof.
  intros Hlt. destruct (ltb_not_nan _ _ Hlt) as [Ha Hb].
  unfold Math_max. rewrite Ha, Hb, Hlt. reflexivity.
Qed.

(** C6 (amended).  [calculateEV] uses the payout multiplier
    [odds / 100 + 1] for positive odds and [1 + 100 / |odds|] for negative
    odds, computes each side's EV as [(fairProb * payout - (1 - fairProb)) * 100]
    with fair probabilities [modelProb] and [1 - modelProb], reports each EV
    and the larger of the two as printed by [toFixed(1)], and selects team 1
    exactly when its EV is strictly larger; on a tie it selects team 2. *)
Theorem calculateEV_spec (modelProb ml1 ml2 : float) :
  let e1 := side_ev modelProb (payout_multiplier ml1) in
  let e2 := side_ev (1 - modelProb) (payout_multiplier ml2) in
  let r := calculateEV modelProb ml1 ml2 in
  (forall odds, (0 <? odds) = true -> payout_multiplier odds = odds / 100 + 1) /\
  (forall odds, (odds <? 0) = true -> payout_multiplier odds = 1 + 100 / abs odds) /\
  ev1 r = toFixed1 e1 /\ ev2 r = toFixed1 e2 /\ bestEV r = toFixed1 (Math_max e1 e2) /\
  ((e2 <? e1) = true -> side r = Team1 /\ Math_max e1 e2 = e1) /\
  ((e1 <? e2) = true -> side r = Team2 /\ Math_max e1 e2 = e2) /\
  ((e1 =? e2) = true -> side r = Team2).
Proof.
  cbv zeta. unfold calculateEV, payout_multiplier, side_ev. cbn [ev1 ev2 bestEV side].
  repeat apply conj; try reflexivity.
  - intros odds ->. reflexivity.
  - intros odds Hneg. rewrite (ltb_asym _ _ Hneg). reflexivity.
  - intros Hgt. rewrite Hgt. split; [reflexivity | apply Math_max_gt, Hgt].
  - intros Hlt. rewrite (ltb_asym _ _ Hlt). split; [reflexivity | apply Math_max_lt, Hlt].
  - intros Heq. destruct (eqb_not_ltb _ _ Heq) as [_ ->]. reflexivity.
Qed.

(** [0.85 - |spread| * 0.02] is finite for every finite spread. *)
Lemma favorite_factor_fin (spread : float) :
  SFfin (Prim2SF spread) -> SFfin (Prim2SF (0.85 - abs spread * 0.02)).
Proof.
  intros Hs. rewrite sub_spec, mul_spec.
  apply (SFbound_fin (1020 + 2)), SFsub_bound.
  - change (SFbound 1020 (Prim2SF 0.85)). vm_compute. discriminate.
  - change (Prim2SF 0.02) with (S754_finite false 5764607523034235 (-58)).
    apply (SFmul_const_bound _ _ _ _ 1019).
    + apply Prim2SF_valid.
    + lia.
    + vm_compute. discriminate.
    + vm_compute. discriminate.
    + vm_compute. discriminate.
    + apply abs_SFfin, Hs.
  - vm_compute. discriminate.
  - vm_compute. discriminate.
Qed.

(** [1 - p] is finite for every probability [p]. *)
Lemma complement_fin (p : float) :
  (0 <=? p) = true -> (p <=? 1) = true -> SFfin (Prim2SF (1 - p)).
Proof.
  intros H0 H1. rewrite sub_spec.
  apply (SFbound_fin (1 + 2)), SFsub_bound.
  - change (SFbound 1 (Prim2SF 1)). vm_compute. discriminate.
  - apply probability_SFbound; assumption.
  - vm_compute. discriminate.
  - vm_compute. discriminate.
Qed.

(** The unclamped cover probability is a number for every probability and
    every finite spread. *)
Lemma spreadCoverRaw_number (p spread : float) :
  (0 <=? p) = true -> (p <=? 1) = true -> PrimFloat.is_finite spread = true ->
  PrimFloat.is_nan (spreadCoverRaw p spread) = false.
Proof.
  intros H0 H1 Hs. apply finite_SFfin in Hs.
  pose proof (SFbound_fin _ _ (probability_SFbound p H0 H1)) as Hp.
  unfold spreadCoverRaw. destruct (spread <? 0).
  - apply not_nan_Prim2SF. rewrite mul_spec.
    apply SFmul_fin_not_nan; [exact Hp | apply favorite_factor_fin, Hs].
  - apply not_nan_Prim2SF. rewrite add_spec.
    apply SFadd_fin_not_nan; [exact Hp|].
    apply not_nan_Prim2SF.
    eapply mul_const_not_nan; [vm_compute; reflexivity|].
    apply not_nan_Prim2SF. rewrite mul_spec.
    apply SFmul_fin_not_nan; [apply complement_fin; assumption | apply abs_SFfin, Hs].
Qed.

(** C10.  For every win probability between 0 and 1 and every finite
    spread, team 1's cover probability of [calculateSpreadEV] lies in
    [0.1, 0.9]; so it does for any other inputs on which the unclamped value is
    a number.  For every win probability that is a number, the over
    probability of [calculateTotalEV] lies in [0.3, 0.7], whatever the total
    line and the odds.  Team 2's cover probability and the under probability
    are the complements, and the results report all four as percentages
    printed by [toFixed(1)].  (Only NaN escapes the clamp: [Math.max] and
    [Math.min] return NaN for a NaN argument.) *)
Theorem clamped_market_probabilities (team1WinProb spread : float) :
  ((0 <=? team1WinProb) = true -> (team1WinProb <=? 1) = true ->
   PrimFloat.is_finite spread = true ->
   (0.1 <=? spreadCoverProb team1WinProb spread) = true /\
   (spreadCoverProb team1WinProb spread <=? 0.9) = true) /\
  (PrimFloat.is_nan (spreadCoverRaw team1WinProb spread) = false ->
   (0.1 <=? spreadCoverProb team1WinProb spread) = true /\
   (spreadCoverProb team1WinProb spread <=? 0.9) = true) /\
  (PrimFloat.is_nan team1WinProb = false ->
   (0.3 <=? totalOverProb team1WinProb) = true /\
   (totalOverProb team1WinProb <=? 0.7) = true) /\
  (forall odds1 odds2,
     let r := calculateSpreadEV team1WinProb spread odds1 odds2 in
     team1CoverProb r = toFixed1 (spreadCoverProb team1WinProb spread * 100) /\
     team2CoverProb r = toFixed1 ((1 - spreadCoverProb team1WinProb spread) * 100)) /\
  (forall total overOdds underOdds,
     let r := calculateTotalEV team1WinProb total overOdds underOdds in
     overProb r = toFixed1 (totalOverProb team1WinProb * 100) /\
     underProb r = toFixed1 ((1 - totalOverProb team1WinProb) * 100)).
Proof.
  assert (PrimFloat.is_nan (spreadCoverRaw team1WinProb spread) = false ->
          (0.1 <=? spreadCoverProb team1WinProb spread) = true /\
          (spreadCoverProb team1WinProb spread <=? 0.9) = true) as Hclamp.
  { intros Hraw. unfold spreadCoverProb.
    apply clamp_bounds; [reflexivity | reflexivity | reflexivity | exact Hraw]. }
  split; [|split; [|split; [|split]]].
  - intros H0 H1 Hs. apply Hclamp, spreadCoverRaw_number; assumption.
  - exact Hclamp.
  - intros Hp. unfold totalOverProb.
    apply clamp_bounds; [reflexivity | reflexivity | reflexivity |].
    unfold scoringFactor.
    eapply add_const_not_nan; [vm_compute; reflexivity|].
    eapply mul_const_not_nan; [vm_compute; reflexivity | exact Hp].
  - intros odds1 odds2. split; reflexivity.
  - intros total overOdds underOdds. split; reflexivity.
Qed.

(** C10, witness: a win probability of 0.6 on a spread of -3. *)
Lemma clamped_market_probabilities_witness :
  ((0.1 <=? spreadCoverProb 0.6 (-3)) = true /\ (spreadCoverProb 0.6 (-3) <=? 0.9) = true) /\
  ((0.3 <=? totalOverProb 0.6) = true /\ (totalOverProb 0.6 <=? 0.7) = true).
Proof.
  destruct (clamped_market_probabilities 0.6 (-3)) as (Hs & _ & Ht & _).
  split; [apply Hs | apply Ht]; vm_compute; reflexivity.
Defined.

End EVProperties.

(** ** Rolling form *)

Section RollingProperties.
Variables (team1_of team2_of : row -> string) (result1_of result2_of : row -> float).
Variable emit : row -> float -> float -> row.

Abbreviation prior := (prior_outcomes team1_of team2_of result1_of result2_of).
Abbreviation rolling := (rolling_from team1_of team2_of result1_of result2_of emit).

Abbreviation history_of' := (history_of team1_of team2_of result1_of result2_of).

Lemma history_get_default history k h :
  history_get history k = Some h -> h = default [] (history !! k).
Proof.
  unfold history_get. destruct (history !! k) as [h'|]; simpl.
  - congruence.
  - case_bool_decide; congruence.
Qed.

Lemma prior_snoc k earlier r :
  prior k (earlier ++ [r]) =
  prior k earlier ++ recorded team1_of team2_of result1_of result2_of k r.
Proof.
  unfold prior_outcomes. rewrite map_app, concat_app. simpl. rewrite app_nil_r. reflexivity.
Qed.

Lemma history_of_empty : history_of' [] ∅.
Proof. intros k. rewrite lookup_empty. reflexivity. Qed.

Lemma history_of_step earlier history r t1Hist t2Hist :
  history_of' earlier history ->
  history_get history (team1_of r) = Some t1Hist ->
  history_get history (team2_of r) = Some t2Hist ->
  history_of' (earlier ++ [r])
    (<[team2_of r := t2Hist ++ [result2_of r]]>
       (<[team1_of r := t1Hist ++ [result1_of r]]> history)).
Proof.
  intros Hinv H1 H2 k. rewrite prior_snoc. unfold recorded.
  apply history_get_default in H1, H2. rewrite Hinv in H1, H2. subst t1Hist t2Hist.
  destruct (decide (team2_of r = k)) as [<-|Hne2].
  - rewrite lookup_insert_eq. reflexivity.
  - rewrite lookup_insert_ne by assumption.
    destruct (decide (team1_of r = k)) as [<-|Hne1].
    + rewrite lookup_insert_eq. reflexivity.
    + rewrite lookup_insert_ne by assumption. rewrite app_nil_r. apply Hinv.
Qed.

(** The row written for [rows[i]] carries the rates of the outcomes recorded
    by the rows before it. *)
Lemma rolling_from_lookup rows : forall earlier history outs i r,
  history_of' earlier history ->
  rolling history rows = Some outs ->
  rows !! i = Some r ->
  outs !! i =
    Some (emit r (rate (slice_last5 (prior (team1_of r) (earlier ++ take i rows))))
                 (rate (slice_last5 (prior (team2_of r) (earlier ++ take i rows))))).
Proof.
  induction rows as [|r0 rest IH]; intros earlier history outs i r Hinv Hrun Hi.
  - destruct i; discriminate.
  - simpl in Hrun.
    destruct (history_get history (team1_of r0)) as [t1Hist|] eqn:H1; [|discriminate].
    destruct (history_get history (team2_of r0)) as [t2Hist|] eqn:H2; [|discriminate].
    simpl in Hrun.
    destruct (rolling _ rest) as [outs'|] eqn:Hrest; [|discriminate].
    simpl in Hrun. injection Hrun as <-.
    destruct i as [|i]; simpl in Hi |- *.
    + injection Hi as <-. rewrite app_nil_r.
      rewrite (history_get_default _ _ _ H1), (history_get_default _ _ _ H2), !Hinv.
      reflexivity.
    + rewrite (IH _ _ _ _ _ (history_of_step _ _ _ _ _ Hinv H1 H2) Hrest Hi).
      rewrite <- app_assoc. reflexivity.
Qed.

(** The replay does not throw when no competitor is named like a property
    of [Object.prototype]. *)
Lemma rolling_from_total rows : forall history,
  Forall (fun r => (team1_of r ∉ Object_prototype_keys) /\ (team2_of r ∉ Object_prototype_keys)) rows ->
  is_Some (rolling history rows).
Proof.
  induction rows as [|r rest IH]; intros history Hok; [eexists; reflexivity|].
  apply Forall_cons in Hok as [[Hk1 Hk2] Hrest]. simpl.
  assert (forall k, k ∉ Object_prototype_keys -> is_Some (history_get history k)) as Hget.
  { intros k Hk. unfold history_get. destruct (history !! k); [eexists; reflexivity|].
    rewrite bool_decide_eq_false_2 by assumption. eexists; reflexivity. }
  destruct (Hget _ Hk1) as [h1 ->], (Hget _ Hk2) as [h2 ->]. simpl.
  destruct (IH (<[team2_of r := h2 ++ [result2_of r]]>
                  (<[team1_of r := h1 ++ [result1_of r]]> history)) Hrest) as [outs ->].
  eexists; reflexivity.
Qed.

End RollingProperties.


Section RecentForm.
Local Open Scope float_scope.

Lemma slice_last5_last_at_most (l : list float) : slice_last5 l = last_at_most 5 l.
Proof.
  unfold slice_last5, last_at_most. rewrite take_reverse, reverse_involutive. reflexivity.
Qed.

Lemma sum_of_outcomes (l : list float) :
  (length l <= 5)%nat -> Forall binary_outcome l ->
  fold_left (fun a b => a + b) l 0 = fromNat (wins l).
Proof.
  intros Hlen Hall.
  do 6 (destruct l as [|? l];
        [ repeat match goal with
                 | H : Forall _ (_ :: _) |- _ => apply Forall_cons in H as [[-> | ->] H]
                 end; vm_compute; reflexivity |]).
  simpl in Hlen. lia.
Qed.

Lemma rate_recent_form (l : list float) :
  Forall binary_outcome l -> rate (slice_last5 l) = recent_form l.
Proof.
  intros Hall. unfold rate, recent_form. rewrite <- slice_last5_last_at_most.
  assert (Forall binary_outcome (slice_last5 l)) as Hs by (apply Forall_drop, Hall).
  assert (length (slice_last5 l) <= 5)%nat as Hlen
    by (unfold slice_last5; rewrite length_drop; lia).
  destruct l as [|x l]; [reflexivity|].
  assert (0 < length (slice_last5 (x :: l)))%nat as Hpos
    by (unfold slice_last5; rewrite length_drop; simpl; lia).
  apply Nat.ltb_lt in Hpos. rewrite Hpos.
  rewrite (sum_of_outcomes _ Hlen Hs). reflexivity.
Qed.

Lemma prior_outcomes_binary t1 t2 (r1 r2 : row -> float) k rows :
  (forall r, binary_outcome (r1 r)) -> (forall r, binary_outcome (r2 r)) ->
  Forall binary_outcome (prior_outcomes t1 t2 r1 r2 k rows).
Proof.
  intros H1 H2. unfold prior_outcomes. apply Forall_concat, Forall_fmap, Forall_forall.
  intros r _. simpl. unfold recorded.
  repeat case_decide; [constructor; [apply H2 | constructor] | constructor; [apply H1 | constructor] | constructor].
Qed.

End RecentForm.

Section RollingVariants.
Context `{Host}.
Local Open Scope float_scope.

Lemma pro_as_rolling rows : forall history,
  Pro.addLast5WinColumns_from history rows =
  rolling_from pro_team1 pro_team2 pro_result1 pro_result2 pro_emit history rows.
Proof.
  induction rows as [|r rest IH]; intros history; [reflexivity|].
  simpl. unfold pro_team1, pro_team2.
  destruct (history_get history _) as [t1Hist|]; [|reflexivity]. simpl.
  destruct (history_get history _) as [t2Hist|]; [|reflexivity]. simpl.
  rewrite IH. reflexivity.
Qed.

Lemma jsx_as_rolling rows : forall history,
  Jsx.addLast5WinColumns_from history rows =
  rolling_from jsx_team1 jsx_team2 jsx_result1 jsx_result2 jsx_emit history rows.
Proof.
  induction rows as [|r rest IH]; intros history; [reflexivity|].
  simpl. unfold jsx_team1, jsx_team2.
  destruct (history_get history _) as [t1Hist|]; [|reflexivity]. simpl.
  destruct (history_get history _) as [t2Hist|]; [|reflexivity]. simpl.
  rewrite IH. reflexivity.
Qed.

Lemma binary_if (b : bool) : binary_outcome (if b then 1 else 0).
Proof. destruct b; [right | left]; reflexivity. Qed.

Lemma pro_form k rows : rate (slice_last5 (pro_prior k rows)) = recent_form (pro_prior k rows).
Proof.
  apply rate_recent_form, prior_outcomes_binary; intros r; apply binary_if.
Qed.

Lemma jsx_form k rows : rate (slice_last5 (jsx_prior k rows)) = recent_form (jsx_prior k rows).
Proof.
  apply rate_recent_form, prior_outcomes_binary; intros r; apply binary_if.
Qed.

(** C1 (amended).  In [addLast5WinColumns] of unnamed/part_002, the form
    values written for a row are the recent form (the win rate over at most
    the last 5 outcomes, 0.5 when there is none) of the outcomes that the
    rows strictly before it recorded for its two competitors; the row's own
    outcome and the rows after it play no part.  The variant of
    src/SportsPredictionModel.jsx does the same for a row that has no
    [team1_last5] / [team2_last5] field of its own, and keeps the number a row
    supplies in such a field.  Neither variant throws, provided no competitor
    is named like a property of [Object.prototype]. *)
Theorem rolling_form_uses_prior_rows_only (earlier later : list row) (r : row) :
  (forall outs, Pro.addLast5WinColumns (earlier ++ r :: later) = Some outs ->
     exists r', outs !! length earlier = Some r' /\
       field r' "team1_last5" = JNum (recent_form (pro_prior (pro_team1 r) earlier)) /\
       field r' "team2_last5" = JNum (recent_form (pro_prior (pro_team2 r) earlier))) /\
  (forall outs, Jsx.addLast5WinColumns (earlier ++ r :: later) = Some outs ->
     exists r', outs !! length earlier = Some r' /\
       (field r "team1_last5" = JUndefined ->
        field r' "team1_last5" = JNum (recent_form (jsx_prior (jsx_team1 r) earlier))) /\
       (field r "team2_last5" = JUndefined ->
        field r' "team2_last5" = JNum (recent_form (jsx_prior (jsx_team2 r) earlier))) /\
       (forall x, field r "team1_last5" = JNum x -> field r' "team1_last5" = JNum x) /\
       (forall x, field r "team2_last5" = JNum x -> field r' "team2_last5" = JNum x)) /\
  (forall rows,
     Forall (fun r => (pro_team1 r ∉ Object_prototype_keys) /\
                      (pro_team2 r ∉ Object_prototype_keys)) rows ->
     is_Some (Pro.addLast5WinColumns rows)) /\
  (forall rows,
     Forall (fun r => (jsx_team1 r ∉ Object_prototype_keys) /\
                      (jsx_team2 r ∉ Object_prototype_keys)) rows ->
     is_Some (Jsx.addLast5WinColumns rows)).
Proof.
  assert ((earlier ++ r :: later) !! length earlier = Some r) as Hi
    by apply list_lookup_middle, eq_refl.
  repeat apply conj.
  - intros outs Hrun. unfold Pro.addLast5WinColumns in Hrun. rewrite pro_as_rolling in Hrun.
    pose proof (rolling_from_lookup _ _ _ _ _ _ [] ∅ outs _ r
                  (history_of_empty _ _ _ _) Hrun Hi) as Hout.
    simpl in Hout. rewrite take_app_length, !pro_form in Hout.
    eexists. split; [exact Hout|]. unfold pro_emit, field. split.
    + rewrite lookup_insert_ne, lookup_insert_ne, lookup_insert_eq by discriminate. reflexivity.
    + rewrite lookup_insert_ne, lookup_insert_eq by discriminate. reflexivity.
  - intros outs Hrun. unfold Jsx.addLast5WinColumns in Hrun. rewrite jsx_as_rolling in Hrun.
    pose proof (rolling_from_lookup _ _ _ _ _ _ [] ∅ outs _ r
                  (history_of_empty _ _ _ _) Hrun Hi) as Hout.
    simpl in Hout. rewrite take_app_length, !jsx_form in Hout.
    eexists. split; [exact Hout|]. unfold jsx_emit.
    repeat apply conj.
    + intros Hu. rewrite Hu. unfold field at 1.
      rewrite lookup_insert_ne, lookup_insert_eq by discriminate. reflexivity.
    + intros Hu. rewrite Hu. unfold field at 1.
      rewrite lookup_insert_eq. reflexivity.
    + intros x Hx. rewrite Hx. unfold field at 1.
      rewrite lookup_insert_ne, lookup_insert_eq by discriminate. reflexivity.
    + intros x Hx. rewrite Hx. unfold field at 1.
      rewrite lookup_insert_eq. reflexivity.
  - intros rows Hok. unfold Pro.addLast5WinColumns. rewrite pro_as_rolling.
    apply rolling_from_total, Hok.
  - intros rows Hok. unfold Jsx.addLast5WinColumns. rewrite jsx_as_rolling.
    apply rolling_from_total, Hok.
Qed.

End RollingVariants.

(** ** Training *)

Section TrainingProperties.
Context `{Host}.
Local Open Scope float_scope.

(** What [trainLogisticRegression] returns on a non-empty [X]. *)
Lemma trainLogisticRegression_params (X0 : list float) (Xs : list (list float))
    (y : list float) (options : train_options) :
  exists res,
    trainLogisticRegression (X0 :: Xs) y options = Some res /\
    tr_means res = imap (fun j _ => mean_of (X0 :: Xs) j) X0 /\
    tr_stds res =
      imap (fun j _ => std_of (X0 :: Xs) (imap (fun j _ => mean_of (X0 :: Xs) j) X0) j) X0 /\
    tr_samplesUsed res = length (X0 :: Xs).
Proof.
  eexists. split; [reflexivity|]. repeat apply conj; reflexivity.
Qed.

Lemma imap_index_only {A B : Type} (f : nat -> B) (l : list A) :
  imap (fun j _ => f j) l = map f (seq 0 (length l)).
Proof.
  revert f. induction l as [|x l IH]; intros f; [reflexivity|].
  simpl. f_equal. rewrite <- seq_shift, map_map. apply (IH (fun j => f (S j))).
Qed.

Lemma fold_left_fmap {A B C : Type} (f : C -> B -> C) (g : A -> B) (l : list A) (c : C) :
  fold_left f (map g l) c = fold_left (fun acc x => f acc (g x)) l c.
Proof. revert c. induction l as [|x l IH]; intros c; simpl; auto. Qed.

Lemma fold_left_ext_Forall {A C : Type} (f g : C -> A -> C) (P : A -> Prop) (l : list A) (c : C) :
  Forall P l -> (forall acc x, P x -> f acc x = g acc x) ->
  fold_left f l c = fold_left g l c.
Proof.
  intros Hall Hfg. revert c. induction Hall as [|x l Hx Hall IH]; intros c; simpl; [reflexivity|].
  rewrite Hfg by assumption. apply IH.
Qed.

Lemma finite_entry (n : nat) (Xi : list float) (j : nat) :
  length Xi = n /\ Forall (fun x => Number_isFinite x = true) Xi -> (j < n)%nat ->
  finite_or_0 (Xi !! j) = at_num Xi j.
Proof.
  intros [Hlen Hfin] Hj. unfold at_num.
  destruct (Xi !! j) as [v|] eqn:Hv.
  - simpl. rewrite Forall_forall in Hfin.
    rewrite (Hfin v) by (eapply list_elem_of_lookup_2; eassumption). reflexivity.
  - apply lookup_ge_None in Hv. lia.
Qed.

Lemma mean_of_average (n : nat) (X : list (list float)) (j : nat) :
  well_formed n X -> (j < n)%nat -> mean_of X j = average (column X j).
Proof.
  intros Hwf Hj. unfold mean_of, average, sum_of, column.
  rewrite length_map, fold_left_fmap. f_equal.
  apply (fold_left_ext_Forall _ _ _ _ _ Hwf). intros acc Xi HXi.
  rewrite (finite_entry n Xi j HXi Hj). reflexivity.
Qed.

Lemma std_of_population_std (n : nat) (X : list (list float)) (means : list float) (j : nat) :
  well_formed n X -> (j < n)%nat -> at_num means j = average (column X j) ->
  std_of X means j =
  let s := population_std (column X j) in if truthy_num s then s else 1.
Proof.
  intros Hwf Hj Hmean. unfold std_of, population_std, sum_of, column. cbv zeta.
  rewrite !length_map, !fold_left_fmap, Hmean.
  set (mu := average (map (fun Xi => at_num Xi j) X)).
  rewrite (fold_left_ext_Forall _
             (fun acc Xi => acc + (at_num Xi j - mu) * (at_num Xi j - mu)) _ X 0 Hwf);
    [reflexivity|].
  intros acc Xi HXi. cbv beta zeta. rewrite (finite_entry n Xi j HXi Hj). reflexivity.
Qed.

Lemma truthy_num_zero (s : float) : (s =? 0) = true -> truthy_num s = false.
Proof. unfold truthy_num. intros ->. rewrite orb_true_r. reflexivity. Qed.

(** C9.  For every feature matrix [X] whose rows have [n] finite entries
    each, training returns, for each feature [j < n], the average of column
    [j] as its mean and the population standard deviation of column [j] (the
    square root of the summed squared deviations divided by the number of rows,
    not by one less) as its standard deviation, with 1 in its place whenever
    that standard deviation is exactly 0 (or not a number).  The column
    [10, 20, 30] gives the mean 20 and the standard deviation
    8.16496580927726, and the column [5, 5, 5] gives the standard deviation 1.
    Training returns these parameters for every matrix that has a row. *)
Theorem normalisation_parameters :
  (forall X y options res n,
     trainLogisticRegression X y options = Some res ->
     well_formed n X ->
     (forall j, (j < n)%nat ->
        tr_means res !! j = Some (average (column X j)) /\
        tr_stds res !! j =
          Some (let s := population_std (column X j) in if truthy_num s then s else 1) /\
        ((population_std (column X j) =? 0) = true -> tr_stds res !! j = Some 1)) /\
     length (tr_means res) = n /\ length (tr_stds res) = n) /\
  (forall y options,
     exists res, trainLogisticRegression [[10]; [20]; [30]] y options = Some res /\
       tr_means res = [20] /\ tr_stds res = [8.1649658092772608] /\
       population_std [10; 20; 30] = 8.1649658092772608 /\
       (8.1649 <? 8.1649658092772608) = true /\ (8.1649658092772608 <? 8.1650) = true) /\
  (forall y options,
     exists res, trainLogisticRegression [[5]; [5]; [5]] y options = Some res /\
       tr_means res = [5] /\ tr_stds res = [1] /\ population_std [5; 5; 5] = 0) /\
  (forall X0 Xs y options, is_Some (trainLogisticRegression (X0 :: Xs) y options)).
Proof.
  split; [|split; [|split]]; [| | |
    intros X0 Xs y options;
    destruct (trainLogisticRegression_params X0 Xs y options) as (res & -> & _);
    eexists; reflexivity].
  - intros X y options res n Hrun Hwf.
    destruct X as [|X0 Xs]; [discriminate|].
    destruct (trainLogisticRegression_params X0 Xs y options) as (res' & Hres & Hm & Hs & _).
    rewrite Hres in Hrun. injection Hrun as <-.
    assert (length X0 = n) as HX0 by (apply Forall_cons in Hwf as [[? _] _]; assumption).
    assert (forall j, (j < n)%nat ->
              tr_means res' !! j = Some (average (column (X0 :: Xs) j))) as Hmeans.
    { intros j Hj. rewrite Hm, imap_index_only, list_lookup_fmap, lookup_seq_lt by lia.
      simpl. rewrite (mean_of_average n) by assumption. reflexivity. }
    assert (forall j, (j < n)%nat ->
              tr_stds res' !! j =
              Some (let s := population_std (column (X0 :: Xs) j) in
                    if truthy_num s then s else 1)) as Hstds.
    { intros j Hj. rewrite Hs, imap_index_only, list_lookup_fmap, lookup_seq_lt by lia.
      simpl. rewrite (std_of_population_std n); try assumption; [reflexivity|].
      unfold at_num. rewrite <- Hm, (Hmeans j Hj). reflexivity. }
    split; [|rewrite Hm, Hs, !imap_index_only, !length_map, !length_seq; auto].
    intros j Hj. repeat apply conj; auto.
    intros Hz. rewrite (Hstds j Hj). cbv zeta. rewrite (truthy_num_zero _ Hz). reflexivity.
  - intros y options.
    destruct (trainLogisticRegression_params [10] [[20]; [30]] y options)
      as (res & Hres & Hm & Hs & _).
    exists res. rewrite Hm, Hs. repeat apply conj; try assumption; vm_compute; reflexivity.
  - intros y options.
    destruct (trainLogisticRegression_params [5] [[5]; [5]] y options)
      as (res & Hres & Hm & Hs & _).
    exists res. rewrite Hm, Hs. repeat apply conj; try assumption; vm_compute; reflexivity.
Qed.


End TrainingProperties.

(** ** Backtest *)

Section BacktestProperties.
Context `{Host}.
Local Open Scope float_scope.

Lemma payouts_of_snoc mk mk' b l :
  payouts_of mk (l ++ [(mk', b)]) =
  payouts_of mk l ++ (if market_id_eqb mk' mk then [payout b] else []).
Proof.
  unfold payouts_of. rewrite filter_app, map_app. f_equal.
  rewrite filter_cons, filter_nil. cbn [fst].
  case_decide as Hd; [rewrite Hd; reflexivity|].
  destruct (market_id_eqb mk' mk); [congruence | reflexivity].
Qed.

Lemma all_payouts_snoc mk b l : all_payouts (l ++ [(mk, b)]) = all_payouts l ++ [payout b].
Proof. unfold all_payouts. rewrite map_app. reflexivity. Qed.

Lemma market_accounts_count mk l m b with_ev :
  market_accounts mk l m -> market_accounts mk (l ++ [(mk, b)]) (count_bet with_ev b m).
Proof.
  intros [Hp Hb]. unfold market_accounts. rewrite payouts_of_snoc.
  replace (market_id_eqb mk mk) with true by (destruct mk; reflexivity).
  rewrite fold_left_app, length_app. simpl. rewrite Hp, Hb. split; [reflexivity | lia].
Qed.

Lemma market_accounts_other mk mk' l m b :
  market_id_eqb mk' mk = false ->
  market_accounts mk l m -> market_accounts mk (l ++ [(mk', b)]) m.
Proof.
  intros Hne [Hp Hb]. unfold market_accounts. rewrite payouts_of_snoc, Hne, app_nil_r. auto.
Qed.

Lemma accounts_settle mk (b : option placed_bet) l st :
  accounts l st ->
  accounts (l ++ match b with Some b => [(mk, b)] | None => [] end) (settle mk b st).
Proof.
  intros Hacc. destruct b as [b|]; [|rewrite app_nil_r; exact Hacc].
  destruct Hacc as (Hbal & Hml & Hsp & Htot).
  unfold accounts, settle. cbn [balance bt_bets].
  rewrite all_payouts_snoc, fold_left_app. simpl. rewrite Hbal.
  destruct mk; cbn [moneyline spread_market total_market];
    (split; [reflexivity | split; [|split]]);
    auto using market_accounts_count, market_accounts_other.
Qed.

Lemma accounts_row model selectedSport l st i current :
  accounts l st ->
  accounts (l ++ row_ledger model selectedSport current)
           (backtest_row model selectedSport st i current).
Proof.
  intros Hacc. unfold backtest_row, row_ledger.
  destruct (row_bets model selectedSport current) as [[[ml sp] tot]|];
    [|rewrite app_nil_r; exact Hacc].
  pose proof (accounts_settle Total tot _ _
                (accounts_settle Spread sp _ _ (accounts_settle Moneyline ml _ _ Hacc))) as Hall.
  rewrite <- !app_assoc in Hall. exact Hall.
Qed.

Lemma accounts_loop model selectedSport rows : forall l st i,
  accounts l st ->
  accounts (l ++ ledger model selectedSport rows)
           (backtest_loop model selectedSport i rows st).
Proof.
  induction rows as [|current rest IH]; intros l st i Hacc.
  - unfold ledger. simpl. rewrite app_nil_r. exact Hacc.
  - simpl. unfold ledger. simpl. rewrite app_assoc.
    apply IH, accounts_row, Hacc.
Qed.

Lemma accounts_initial : accounts [] initial_state.
Proof. repeat split. Qed.

(** Every entry of a ledger belongs to exactly one market. *)
Lemma ledger_partition_length (l : list (market_id * placed_bet)) :
  length l = (length (payouts_of Moneyline l) + length (payouts_of Spread l)
              + length (payouts_of Total l))%nat.
Proof.
  induction l as [|[mk b] l IH]; [reflexivity|].
  change ((mk, b) :: l) with ([(mk, b)] ++ l).
  unfold payouts_of in *. rewrite !filter_app, !map_app, !length_app, IH.
  destruct mk; simpl; lia.
Qed.

Lemma ledger_partition_exact (l : list (market_id * placed_bet)) :
  (exact_sum (all_payouts l) ==
   exact_sum (payouts_of Moneyline l) + exact_sum (payouts_of Spread l)
   + exact_sum (payouts_of Total l))%Q.
Proof.
  induction l as [|[mk b] l IH]; [reflexivity|].
  change ((mk, b) :: l) with ([(mk, b)] ++ l).
  unfold payouts_of, all_payouts in *. rewrite !filter_app, !map_app.
  destruct mk; simpl; rewrite IH; ring.
Qed.

(** C8 (amended).  Every backtest of a trained model over at least 50 rows
    returns a result.  In it, every bet placed has added its payout once to
    the balance and once to the profit of its own market, and to nothing else:
    the final balance is the starting balance 10000 plus the payouts of all
    bets, added in the order the bets were placed; each market's profit is
    the sum of that market's payouts in the same order; the total profit is
    the sum of the three markets' profits; and the total number of bets is
    the number of bets placed.  Summed exactly, the payouts of all bets equal
    the payouts of the three markets together; the double-precision sums round
    differently, so that the total profit and the change of the balance agree
    up to rounding only (see [profit_differs_from_balance_change]). *)
Theorem backtest_accounting (model : model_params) (selectedSport : sport)
    (trainingData : list row) :
  (50 <= length trainingData)%nat ->
  exists res,
    runBacktest true (Some model) selectedSport trainingData = Some res /\
    let sorted := Array_sort (fun a b => getDate a - getDate b) trainingData in
    let l := ledger model selectedSport (drop 20 sorted) in
    startingBalance res = 10000 /\
    finalBalance res = fold_left (fun a b => a + b) (all_payouts l) (startingBalance res) /\
    profit (moneyline (res_bets res)) = fold_left (fun a b => a + b) (payouts_of Moneyline l) 0 /\
    profit (spread_market (res_bets res)) = fold_left (fun a b => a + b) (payouts_of Spread l) 0 /\
    profit (total_market (res_bets res)) = fold_left (fun a b => a + b) (payouts_of Total l) 0 /\
    totalProfit res = 0 + profit (moneyline (res_bets res))
                      + profit (spread_market (res_bets res))
                      + profit (total_market (res_bets res)) /\
    totalBets res = length l /\
    (exact_sum (all_payouts l) ==
     exact_sum (payouts_of Moneyline l) + exact_sum (payouts_of Spread l)
     + exact_sum (payouts_of Total l))%Q.
Proof.
  intros Hlen. unfold runBacktest. apply Nat.ltb_ge in Hlen. rewrite Hlen. cbn [negb orb].
  eexists. split; [reflexivity|].
  cbv zeta. cbn [startingBalance finalBalance res_bets totalProfit totalBets].
  pose proof (accounts_loop model selectedSport
                (drop 20 (Array_sort (fun a b => getDate a - getDate b) trainingData))
                [] initial_state 20%nat accounts_initial) as Hacc.
  rewrite app_nil_l in Hacc.
  destruct Hacc as (Hbal & [Hml Hmlb] & [Hsp Hspb] & [Htot Htotb]).
  repeat apply conj; try assumption; try reflexivity.
  - rewrite Hmlb, Hspb, Htotb, (ledger_partition_length (ledger _ _ _)). simpl. lia.
  - apply ledger_partition_exact.
Qed.

End BacktestProperties.

(** ** Concrete runs *)

Section Examples.
Local Existing Instance test_host.
Local Open Scope float_scope.

(** A result that is there is the one [default] reads. *)
Lemma is_Some_default {A : Type} (d : A) (x : option A) :
  match x with Some _ => true | None => false end = true -> x = Some (default d x).
Proof. destruct x; [reflexivity | discriminate]. Qed.

(** C1, counterexample: in the variant of src/SportsPredictionModel.jsx, a
    row of team A that supplies [team1_last5 = 0.2] keeps 0.2, although team A
    won its only earlier game (recent form 1). *)
Lemma supplied_form_is_kept :
  written (Jsx.addLast5WinColumns supplied_form) 1 "team1_last5" = Some (JNum 0.2) /\
  recent_form (jsx_prior (jsx_team1 (game "A" "C" 120 (-140) (JNum 0)))
                         (take 1 supplied_form)) = 1 /\
  JNum 0.2 <> JNum 1.
Proof.
  repeat apply conj; try (vm_compute; reflexivity).
  intros E. apply (f_equal (fun v => match v with JNum x => x | _ => 0 end)) in E.
  revert E. float_neq.
Qed.

(** C1, witness: after a win and a loss of team A, the third game of team A
    is given the form 0.5, whatever its own outcome. *)
Lemma rolling_form_witness :
  (exists r', form_history_out !! length [win_of_A; loss_of_A] = Some r' /\
     field r' "team1_last5" =
       JNum (recent_form (pro_prior (pro_team1 third_of_A) [win_of_A; loss_of_A])) /\
     field r' "team2_last5" =
       JNum (recent_form (pro_prior (pro_team2 third_of_A) [win_of_A; loss_of_A]))) /\
  recent_form (pro_prior (pro_team1 third_of_A) [win_of_A; loss_of_A]) = 0.5 /\
  written (Pro.addLast5WinColumns form_history) 2 "team1_last5" = Some (JNum 0.5).
Proof.
  split; [|split; vm_compute; reflexivity].
  apply (proj1 (rolling_form_uses_prior_rows_only [win_of_A; loss_of_A] [] third_of_A)
               form_history_out).
  apply (is_Some_default []). vm_compute. reflexivity.
Defined.


(** C8, counterexample: one winning moneyline bet at -110.  Its payout
    [100 * (100 / 110)] is the total profit, 90.90909090909091; the balance
    becomes 10090.90909090909, which is 90.90909090909008 above 10000. *)
Lemma profit_differs_from_balance_change :
  runBacktest true (Some flat_model) nfl one_bet_data = Some one_bet_result /\
  totalProfit one_bet_result = 90.909090909090907 /\
  finalBalance one_bet_result - startingBalance one_bet_result = 90.909090909090082 /\
  totalProfit one_bet_result <> finalBalance one_bet_result - startingBalance one_bet_result.
Proof.
  repeat apply conj; try (vm_compute; reflexivity). float_neq.
Qed.

(** C7, the code at the failing input.  The game ends 21-24 with a spread
    of +3 for the home team: a push.  [addLast5WinColumns] stores the winner
    [Number(null) = 0] for it, and the backtest bets the spread on team 1,
    counts the bet and books a loss of 100. *)
Lemma push_is_counted_as_a_loss :
  checkSpreadWinner (JNum 21) (JNum 24) (JNum 3) = Some Push /\
  (rows ← Pro.addLast5WinColumns push_upload;
   res ← runBacktest true (Some flat_model) nfl rows;
   Some (spread_market (res_bets res)))
  = Some {| bets := 1; correct := 0; profit := -100; evSum := 0 |}.
Proof. split; vm_compute; reflexivity. Qed.


(** C8, witness: the backtest of [one_bet_data], 50 rows. *)
Lemma backtest_accounting_witness :
  exists res,
    runBacktest true (Some flat_model) nfl one_bet_data = Some res /\
    finalBalance res =
      fold_left (fun a b => a + b)
                (all_payouts (ledger flat_model nfl (drop 20 one_bet_data)))
                (startingBalance res) /\
    totalBets res = length (ledger flat_model nfl (drop 20 one_bet_data)).
Proof.
  destruct (backtest_accounting flat_model nfl one_bet_data)
    as (res & Hrun & _ & Hbal & _ & _ & _ & _ & Hn & _).
  - apply Nat.leb_le. vm_compute. reflexivity.
  - exists res. repeat apply conj; assumption.
Defined.

End Examples.

(* ================================================================== *)
(** * Part III. Further properties of the code                          *)
(* ================================================================== *)

(** ** Odds conversion never yields NaN *)

Section Division.
Local Open Scope Z_scope.

Lemma SFdiv_core_nonneg (m1 m2 : positive) (e1 e2 : Z) :
  0 <= fst (fst (SFdiv_core_binary prec emax (Zpos m1) e1 (Zpos m2) e2)).
Proof.
  unfold SFdiv_core_binary.
  set (s := e1 - e2 - _).
  set (m' := match s with Zpos _ => Z.shiftl (Zpos m1) s | Z0 => Zpos m1 | Zneg _ => 0 end).
  assert (0 <= m') as Hm'.
  { subst m'. destruct s; try lia. apply Z.shiftl_nonneg. lia. }
  pose proof (Z_div_mod m' (Zpos m2) ltac:(lia)) as Hd.
  destruct (Z.div_eucl m' (Zpos m2)) as [q r]. cbn [fst].
  destruct Hd as [Hq Hr]. nia.
Qed.

(** A finite non-zero double divided by a number is a number. *)
Lemma SFdiv_finite_not_nan (s : bool) (m : positive) (e : Z) (y : spec_float) :
  y <> S754_nan -> SFdiv prec emax (S754_finite s m e) y <> S754_nan.
Proof.
  intros Hy. destruct y as [sy|sy| |sy my ey]; cbn [SFdiv]; try discriminate; try congruence.
  pose proof (SFdiv_core_nonneg m my e ey) as Hq.
  destruct (SFdiv_core_binary prec emax (Zpos m) e (Zpos my) ey) as [[mz ez] lz].
  cbn [fst] in Hq. apply binary_round_aux_not_nan, Hq.
Qed.

(** A number divided by a finite non-zero double is a number. *)
Lemma SFdiv_by_finite_not_nan (x : spec_float) (s : bool) (m : positive) (e : Z) :
  x <> S754_nan -> SFdiv prec emax x (S754_finite s m e) <> S754_nan.
Proof.
  intros Hx. destruct x as [sx|sx| |sx mx ex];
    try (cbn [SFdiv]; discriminate); try congruence.
  apply SFdiv_finite_not_nan. discriminate.
Qed.

End Division.

Section OddsNumbers.
Context `{Host}.
Local Open Scope float_scope.

Lemma div_finite_not_nan (x y : float) (s : bool) (m : positive) (e : Z) :
  Prim2SF x = S754_finite s m e -> PrimFloat.is_nan y = false ->
  PrimFloat.is_nan (x / y) = false.
Proof.
  intros Hx Hy. apply not_nan_Prim2SF. rewrite div_spec, Hx.
  apply SFdiv_finite_not_nan, not_nan_Prim2SF, Hy.
Qed.

Lemma div_by_finite_not_nan (x y : float) (s : bool) (m : positive) (e : Z) :
  Prim2SF y = S754_finite s m e -> PrimFloat.is_nan x = false ->
  PrimFloat.is_nan (x / y) = false.
Proof.
  intros Hy Hx. apply not_nan_Prim2SF. rewrite div_spec, Hy.
  apply SFdiv_by_finite_not_nan, not_nan_Prim2SF, Hx.
Qed.

Lemma add_fin_const_not_nan (x c : float) :
  SFfin (Prim2SF x) -> PrimFloat.is_nan c = false -> PrimFloat.is_nan (x + c) = false.
Proof.
  intros Hx Hc. apply not_nan_Prim2SF. rewrite add_spec.
  apply SFadd_fin_not_nan; [exact Hx | apply not_nan_Prim2SF, Hc].
Qed.

Lemma fairProb_of_not_nan (num : float) : PrimFloat.is_nan (fairProb_of num) = false.
Proof.
  unfold fairProb_of. destruct (Number_isFinite num) eqn:Hfin; [|reflexivity].
  cbn [negb]. pose proof (finite_SFfin num Hfin) as Hn.
  destruct (0 <? num).
  - eapply div_finite_not_nan; [vm_compute; reflexivity|].
    apply add_fin_const_not_nan; [exact Hn | reflexivity].
  - pose proof (abs_SFfin num Hn) as Ha.
    destruct (Prim2SF (abs num)) as [s|s| |s m e] eqn:E; try contradiction.
    + assert (abs num = 0) as ->; [|reflexivity].
      apply Prim2SF_inj. rewrite E. rewrite abs_spec in E.
      destruct (Prim2SF num); simpl in E; try discriminate; injection E as <-; reflexivity.
    + eapply div_finite_not_nan; [exact E|].
      apply add_fin_const_not_nan; [rewrite E; exact I | reflexivity].
Qed.

Lemma removeVig_not_nan (p1 p2 : float) :
  PrimFloat.is_nan p1 = false -> PrimFloat.is_nan p2 = false ->
  PrimFloat.is_nan (fst (removeVig p1 p2)) = false /\
  PrimFloat.is_nan (snd (removeVig p1 p2)) = false.
Proof.
  intros H1 H2. unfold removeVig. cbv zeta.
  destruct (Number_isFinite (p1 + p2)) eqn:Hfin; [|auto].
  destruct (p1 + p2 <=? 1.0001) eqn:Hle; [auto|]. cbn [negb orb fst snd].
  destruct (finite_Prim2SF _ Hfin) as [[s Hz]|(s & m & e & Hf)].
  - exfalso. rewrite leb_compare, Hz in Hle.
    change (Prim2SF 1.0001) with (S754_finite false 4504049987333233 (-52)) in Hle.
    discriminate Hle.
  - split; eapply div_by_finite_not_nan; eauto.
Qed.

(** X10.  [moneylineToFairProb] never returns NaN, whatever it is given,
    and [removeVig] returns two numbers whenever it is given two numbers: the
    no-vig probabilities that training and the backtest compute from a row's
    moneylines are never NaN. *)
Theorem fair_probabilities_are_numbers (ml1 ml2 : jsval) :
  PrimFloat.is_nan (moneylineToFairProb ml1) = false /\
  (forall p1 p2, PrimFloat.is_nan p1 = false -> PrimFloat.is_nan p2 = false ->
     PrimFloat.is_nan (fst (removeVig p1 p2)) = false /\
     PrimFloat.is_nan (snd (removeVig p1 p2)) = false) /\
  PrimFloat.is_nan (fst (removeVig (moneylineToFairProb ml1) (moneylineToFairProb ml2))) = false /\
  PrimFloat.is_nan (snd (removeVig (moneylineToFairProb ml1) (moneylineToFairProb ml2))) = false.
Proof.
  assert (forall ml, PrimFloat.is_nan (moneylineToFairProb ml) = false) as Hml
    by (intros ml; apply fairProb_of_not_nan).
  split; [apply Hml|]. split; [apply removeVig_not_nan|].
  apply removeVig_not_nan; apply Hml.
Qed.

End OddsNumbers.

(** ** Signs of the odds conversions *)

Section Signs.
Local Open Scope Z_scope.

Lemma digits2_pos_iter_xO (m k : positive) :
  Zpos (digits2_pos (Pos.iter xO m k)) = Zpos (digits2_pos m) + Zpos k.
Proof.
  induction k as [|k IH] using Pos.peano_ind.
  - simpl. lia.
  - rewrite Pos.iter_succ. simpl digits2_pos. lia.
Qed.

(** The double of a non-zero integer below [2 ^ 53] in size: no rounding. *)
Lemma binary_normalize_small (r : Z) :
  r <> 0 -> Z.abs r < 2 ^ 53 ->
  exists m e, binary_normalize prec emax r 0 false = S754_finite (r <? 0) m e /\
              bounded prec emax m e = true.
Proof.
  intros Hr Hlt.
  assert (forall s (p : positive), Zpos p < 2 ^ 53 ->
            exists m e, binary_round prec emax s p 0 = S754_finite s m e /\
                        bounded prec emax m e = true) as Hround.
  { intros s p Hp.
    assert (Zpos (digits2_pos p) <= 53) as Hd.
    { change (Zpos (digits2_pos p)) with (Zdigits2 (Zpos p)). apply Zdigits2_le; lia. }
    unfold binary_round.
    assert (fexp prec emax (Zpos (digits2_pos p) + 0) = Zpos (digits2_pos p) - 53) as Hf.
    { unfold fexp, SpecFloat.emin. change prec with 53. change emax with 1024. lia. }
    rewrite Hf. unfold shl_align.
    assert (forall mz ez, Zpos (digits2_pos mz) = 53 -> -52 <= ez <= 0 ->
              binary_round_aux prec emax s (Zpos mz) ez loc_Exact = S754_finite s mz ez /\
              bounded prec emax mz ez = true) as Haux.
    { intros mz ez Hmz Hez.
      assert (fexp prec emax (Zpos (digits2_pos mz) + ez) = ez) as Hfe.
      { unfold fexp, SpecFloat.emin. change prec with 53. change emax with 1024. lia. }
      unfold binary_round_aux, shr_fexp. cbn [Zdigits2 shr_record_of_loc].
      rewrite Hfe, Z.sub_diag. cbn [shr shr_m loc_of_shr_record round_nearest_even].
      cbn [Zdigits2 shr_record_of_loc]. rewrite Hfe, Z.sub_diag. cbn [shr shr_m].
      assert ((ez <=? emax - prec) = true) as ->
        by (apply Z.leb_le; change prec with 53; change emax with 1024; lia).
      split; [reflexivity|].
      unfold bounded, canonical_mantissa. rewrite Hfe, Z.eqb_refl. cbn [andb].
      apply Z.leb_le. change prec with 53. change emax with 1024. lia. }
    destruct (Zpos (digits2_pos p) - 53 - 0) as [|d|d] eqn:Ed; try lia.
    - eexists _, _. apply Haux; lia.
    - eexists _, _. apply Haux; [|lia].
      rewrite digits2_pos_iter_xO. lia. }
  destruct r as [|p|p]; [congruence| |]; cbn [binary_normalize].
  - apply Hround. simpl in Hlt. lia.
  - apply Hround. simpl in Hlt. lia.
Qed.

Lemma binary_round_aux_signed (sx : bool) (mx ex : Z) (lx : location) :
  0 <= mx -> SFsigned sx (binary_round_aux prec emax sx mx ex lx).
Proof.
  intros Hm. unfold binary_round_aux.
  pose proof (shr_fexp_nonneg mx ex lx Hm) as H1.
  destruct (shr_fexp prec emax mx ex lx) as [mrs' e']. simpl in H1.
  pose proof (shr_fexp_nonneg _ e' loc_Exact
                (round_nearest_even_nonneg _ (loc_of_shr_record mrs') H1)) as H2.
  destruct (shr_fexp prec emax _ e' loc_Exact) as [mrs'' e'']. simpl in H2.
  destruct (shr_m mrs''); try lia; [reflexivity|].
  destruct (e'' <=? emax - prec); reflexivity.
Qed.

Lemma binary_round_signed (sx : bool) (mx : positive) (ex : Z) :
  SFsigned sx (binary_round prec emax sx mx ex).
Proof.
  unfold binary_round. destruct (shl_align _ _ _). apply binary_round_aux_signed. lia.
Qed.

Lemma binary_normalize_signed (m e : Z) :
  m <> 0 -> SFsigned (m <? 0) (binary_normalize prec emax m e false).
Proof. intros Hm. destruct m; [congruence| |]; apply binary_round_signed. Qed.

Lemma SFsigned_not_nan (s : bool) (x : spec_float) : SFsigned s x -> x <> S754_nan.
Proof. destruct x; simpl; congruence. Qed.

Lemma SFdiv_signed (sx sy : bool) (x y : spec_float) :
  SFsigned sx x -> SFsigned sy y -> SFdiv prec emax x y <> S754_nan ->
  SFsigned (xorb sx sy) (SFdiv prec emax x y).
Proof.
  destruct x as [s1|s1| |s1 m1 e1], y as [s2|s2| |s2 m2 e2]; cbn [SFsigned];
    try contradiction; intros <- <-;
    try (cbn [SFdiv]; intros Hn; exfalso; apply Hn; reflexivity);
    try (cbn [SFdiv SFsigned]; intros _; reflexivity).
  intros _. cbn [SFdiv].
  pose proof (SFdiv_core_nonneg m1 m2 e1 e2) as Hq.
  destruct (SFdiv_core_binary prec emax (Zpos m1) e1 (Zpos m2) e2) as [[mz ez] lz].
  apply binary_round_aux_signed, Hq.
Qed.

Lemma SFmul_signed (sx sy : bool) (x y : spec_float) :
  SFsigned sx x -> SFsigned sy y -> SFmul prec emax x y <> S754_nan ->
  SFsigned (xorb sx sy) (SFmul prec emax x y).
Proof.
  destruct x as [s1|s1| |s1 m1 e1], y as [s2|s2| |s2 m2 e2]; cbn [SFsigned];
    try contradiction; intros <- <-;
    try (cbn [SFmul]; intros Hn; exfalso; apply Hn; reflexivity);
    try (cbn [SFmul SFsigned]; intros _; reflexivity).
  intros _. cbn [SFmul]. apply binary_round_aux_signed. lia.
Qed.

Lemma SFadd_signed (s : bool) (x y : spec_float) :
  SFsigned s x -> SFsigned s y -> SFsigned s (SFadd prec emax x y).
Proof.
  destruct x as [s1|s1| |s1 m1 e1], y as [s2|s2| |s2 m2 e2]; cbn [SFsigned];
    try contradiction; intros -> ->; try (destruct s; exact eq_refl).
  cbn [SFadd].
  set (a := Zpos (fst (shl_align m1 e1 (Z.min e1 e2)))).
  set (b := Zpos (fst (shl_align m2 e2 (Z.min e1 e2)))).
  assert (0 < a) by (subst a; lia). assert (0 < b) by (subst b; lia).
  destruct s; unfold cond_Zopp.
  - replace true with (- a + - b <? 0) at 3 by (apply Z.ltb_lt; lia).
    apply binary_normalize_signed. lia.
  - replace false with (a + b <? 0) at 3 by (apply Z.ltb_ge; lia).
    apply binary_normalize_signed. lia.
Qed.



(** A valid double strictly between 0 and 1. *)
Lemma unit_interval_Prim2SF (p : float) :
  PrimFloat.is_finite p = true -> (p <=? 0)%float = false -> (1 <=? p)%float = false ->
  exists m e, Prim2SF p = S754_finite false m e /\ Zpos m < 2 ^ 53 /\ e <= -53.
Proof.
  intros Hfin. rewrite !leb_compare. pose proof (Prim2SF_valid p) as Hv. revert Hv.
  change (Prim2SF 0) with (S754_zero false).
  change (Prim2SF 1) with (S754_finite false 4503599627370496 (-52)).
  destruct (finite_Prim2SF p Hfin) as [[s ->]|(s & m & e & ->)].
  - intros _ H0. exfalso. destruct s; discriminate H0.
  - cbn [SFcompare valid_binary SpecFloat.valid_binary]. intros Hv H0.
    destruct s; [discriminate H0|]. clear H0. intros H1.
    destruct (valid_bounds _ _ Hv) as [Hd _]. change prec with 53 in Hd.
    pose proof (digits2_pos_bounds m) as [Hm Hm'].
    assert (Zpos m < 2 ^ 53) as Hlt.
    { eapply Z.lt_le_trans; [exact Hm|]. apply Z.pow_le_mono_r; lia. }
    exists m, e. split; [reflexivity|]. split; [exact Hlt|].
    destruct (-52 ?= e) eqn:Ec.
    + exfalso. apply Z.compare_eq in Ec. subst e.
      unfold bounded, canonical_mantissa, fexp, SpecFloat.emin in Hv.
      change prec with 53 in Hv. change emax with 1024 in Hv.
      apply andb_prop in Hv as [Hc _]. apply Z.eqb_eq in Hc.
      assert (Zpos (digits2_pos m) = 53) as Hd53 by lia.
      rewrite Hd53 in Hm'.
      destruct (Pos.compare_cont Eq 4503599627370496 m) eqn:Ep; try discriminate H1.
      change (Pos.compare_cont Eq 4503599627370496 m)
        with (4503599627370496 ?= m)%positive in Ep.
      apply Pos.compare_gt_iff, Pos2Z.pos_lt_pos in Ep.
      change (2 ^ 53) with 9007199254740992 in Hm'.
      clear - Ep Hm'. lia.
    + discriminate H1.
    + rewrite Z.compare_gt_iff in Ec. lia.
Qed.

Lemma SFsub_one_signed (m : positive) (e : Z) :
  Zpos m < 2 ^ 53 -> e <= -53 ->
  SFsigned false (SFsub prec emax (S754_finite false 4503599627370496 (-52))
                                  (S754_finite false m e)).
Proof.
  intros Hm He. cbn [SFsub].
  replace (Z.min (-52) e) with e by lia.
  destruct (shl_align_value 4503599627370496 (-52) e ltac:(lia)) as [_ Va].
  destruct (shl_align_value m e e ltac:(lia)) as [_ Vb].
  set (a := Zpos (fst (shl_align 4503599627370496 (-52) e))) in *.
  set (b := Zpos (fst (shl_align m e e))) in *.
  rewrite Z.sub_diag in Vb. change (2 ^ 0) with 1 in Vb.
  assert (2 ^ 53 <= a) as Ha.
  { rewrite Va. change 4503599627370496 with (2 ^ 52).
    rewrite <- Z.pow_add_r by lia. apply Z.pow_le_mono_r; lia. }
  unfold cond_Zopp.
  pose proof (binary_normalize_signed (a - b) e ltac:(lia)) as Hn.
  replace (a - b <? 0) with false in Hn by (symmetry; apply Z.ltb_ge; lia).
  exact Hn.
Qed.

End Signs.

Section SignedNumbers.
Local Open Scope float_scope.

Lemma signed_not_nan (s : bool) (x : float) :
  SFsigned s (Prim2SF x) -> PrimFloat.is_nan x = false.
Proof. intros Hx. apply not_nan_Prim2SF. eapply SFsigned_not_nan, Hx. Qed.

Lemma signed_false_not_negative (x : float) : SFsigned false (Prim2SF x) -> (x <? 0) = false.
Proof.
  rewrite ltb_compare. change (Prim2SF 0) with (S754_zero false).
  destruct (Prim2SF x) as [s|s| |s m e]; cbn [SFsigned SFcompare];
    try contradiction; intros ->; reflexivity.
Qed.

Lemma signed_true_not_positive (x : float) : SFsigned true (Prim2SF x) -> (0 <? x) = false.
Proof.
  rewrite ltb_compare. change (Prim2SF 0) with (S754_zero false).
  destruct (Prim2SF x) as [s|s| |s m e]; cbn [SFsigned SFcompare];
    try contradiction; intros ->; reflexivity.
Qed.

Lemma positive_signed (x : float) : (0 <? x) = true -> SFsigned false (Prim2SF x).
Proof.
  rewrite ltb_compare. change (Prim2SF 0) with (S754_zero false).
  destruct (Prim2SF x) as [s|s| |s m e]; cbn [SFsigned SFcompare];
    try discriminate; destruct s; try discriminate; reflexivity.
Qed.

Lemma abs_signed (x : float) : PrimFloat.is_nan x = false -> SFsigned false (Prim2SF (abs x)).
Proof.
  rewrite not_nan_Prim2SF, abs_spec.
  destruct (Prim2SF x); cbn [SFabs SFsigned]; congruence.
Qed.

Lemma opp_signed (s : bool) (x : float) :
  SFsigned s (Prim2SF x) -> SFsigned (negb s) (Prim2SF (- x)).
Proof.
  rewrite opp_spec.
  destruct (Prim2SF x); cbn [SFopp SFsigned]; try contradiction; intros ->; reflexivity.
Qed.

Lemma add_signed (s : bool) (x y : float) :
  SFsigned s (Prim2SF x) -> SFsigned s (Prim2SF y) -> SFsigned s (Prim2SF (x + y)).
Proof. rewrite add_spec. apply SFadd_signed. Qed.

Lemma div_signed (sx sy : bool) (x y : float) :
  SFsigned sx (Prim2SF x) -> SFsigned sy (Prim2SF y) -> PrimFloat.is_nan (x / y) = false ->
  SFsigned (xorb sx sy) (Prim2SF (x / y)).
Proof. rewrite not_nan_Prim2SF, div_spec. apply SFdiv_signed. Qed.

Lemma mul_signed (sx sy : bool) (x y : float) :
  SFsigned sx (Prim2SF x) -> SFsigned sy (Prim2SF y) -> PrimFloat.is_nan (x * y) = false ->
  SFsigned (xorb sx sy) (Prim2SF (x * y)).
Proof. rewrite not_nan_Prim2SF, mul_spec. apply SFmul_signed. Qed.

Lemma fromZ_signed (r : Z) :
  r <> 0%Z -> (Z.abs r < 2 ^ 53)%Z -> SFsigned (r <? 0)%Z (Prim2SF (fromZ r)).
Proof.
  intros Hr Hlt. unfold fromZ.
  destruct (binary_normalize_small r Hr Hlt) as (m & e & -> & Hb).
  rewrite Prim2SF_SF2Prim by exact Hb. reflexivity.
Qed.

(** [Math.round] keeps the sign bit, and never turns a number into NaN. *)
Lemma Math_round_signed (s : bool) (x : float) :
  SFsigned s (Prim2SF x) -> SFsigned s (Prim2SF (Math_round x)).
Proof.
  unfold Math_round. pose proof (Prim2SF_valid x) as Hv. revert Hv.
  destruct (Prim2SF x) as [s'|s'| |s' m e] eqn:E; try (rewrite E; auto; fail).
  cbn [valid_binary SpecFloat.valid_binary SFsigned]. intros Hv ->.
  destruct (0 <=? e)%Z eqn:He; [rewrite E; reflexivity|].
  apply Z.leb_gt in He. cbv zeta.
  destruct (valid_bounds _ _ Hv) as [Hd _]. change prec with 53%Z in Hd.
  pose proof (digits2_pos_bounds m) as [Hm _].
  assert (Zpos m < 2 ^ 53)%Z as Hlt.
  { eapply Z.lt_le_trans; [exact Hm|]. apply Z.pow_le_mono_r; lia. }
  change (2 ^ 53)%Z with 9007199254740992%Z in Hlt.
  replace (1 - e)%Z with (1 + - e)%Z by lia. rewrite Z.pow_add_r by lia.
  change (2 ^ 1)%Z with 2%Z.
  assert (2 <= 2 ^ (- e))%Z as HP.
  { change 2%Z with (2 ^ 1)%Z at 1. apply Z.pow_le_mono_r; lia. }
  set (P := (2 ^ (- e))%Z) in *.
  destruct s.
  - set (r := ((2 * Z.neg m + P) / (2 * P))%Z).
    assert (r <= 0)%Z as Hr0.
    { assert (r < 1)%Z; [|lia]. apply Z.div_lt_upper_bound; lia. }
    assert (- 9007199254740992 < r)%Z as Hrl.
    { assert (- 9007199254740992 + 1 <= r)%Z; [|lia].
      apply Z.div_le_lower_bound; [lia|]. nia. }
    destruct (r =? 0)%Z eqn:Er; [vm_compute; reflexivity|]. apply Z.eqb_neq in Er.
    replace true with (r <? 0)%Z at 1 by (apply Z.ltb_lt; lia).
    apply fromZ_signed; [exact Er|]. change (2 ^ 53)%Z with 9007199254740992%Z. lia.
  - set (r := ((2 * Z.pos m + P) / (2 * P))%Z).
    assert (0 <= r)%Z as Hr0 by (apply Z.div_pos; lia).
    assert (r < 9007199254740992)%Z as Hrl.
    { apply Z.div_lt_upper_bound; [lia|]. nia. }
    destruct (r =? 0)%Z eqn:Er; [vm_compute; reflexivity|]. apply Z.eqb_neq in Er.
    replace false with (r <? 0)%Z at 1 by (apply Z.ltb_ge; lia).
    apply fromZ_signed; [exact Er|]. change (2 ^ 53)%Z with 9007199254740992%Z. lia.
Qed.

(** The sign of [probToMoneyline]'s result on a probability strictly
    between 0 and 1. *)
Lemma probToMoneyline_signed (prob : float) :
  Number_isFinite prob = true -> (prob <=? 0) = false -> (1 <=? prob) = false ->
  SFsigned (0.5 <=? prob) (Prim2SF (probToMoneyline prob)).
Proof.
  intros Hfin H0 H1. unfold probToMoneyline. rewrite Hfin, H0, H1. cbn [negb orb].
  destruct (unit_interval_Prim2SF prob Hfin H0 H1) as (m & e & E & Hm & He).
  assert (SFsigned false (Prim2SF prob)) as Hp by (rewrite E; reflexivity).
  assert (SFsigned false (Prim2SF (1 - prob))) as Hc.
  { rewrite sub_spec, E.
    change (Prim2SF 1) with (S754_finite false 4503599627370496 (-52)).
    apply SFsub_one_signed; assumption. }
  assert (SFsigned false (Prim2SF 100)) as H100 by (vm_compute; reflexivity).
  destruct (0.5 <=? prob).
  - apply Math_round_signed.
    assert (PrimFloat.is_nan (prob / (1 - prob)) = false) as Hq
      by (eapply div_finite_not_nan; [exact E | eapply signed_not_nan, Hc]).
    pose proof (opp_signed _ _ (div_signed _ _ _ _ Hp Hc Hq)) as Ho. cbn [xorb negb] in Ho.
    apply (mul_signed true false); [exact Ho | exact H100 |].
    eapply mul_const_not_nan; [vm_compute; reflexivity | eapply signed_not_nan, Ho].
  - apply Math_round_signed.
    assert (PrimFloat.is_nan ((1 - prob) / prob) = false) as Hq
      by (eapply div_by_finite_not_nan; [exact E | eapply signed_not_nan, Hc]).
    pose proof (div_signed _ _ _ _ Hc Hp Hq) as Hd. cbn [xorb] in Hd.
    apply (mul_signed false false); [exact Hd | exact H100 |].
    eapply mul_const_not_nan; [vm_compute; reflexivity | eapply signed_not_nan, Hd].
Qed.

(** X20.  [probToMoneyline] never returns NaN, whatever number it is given,
    and the sign of the implied line follows the side of 0.5 the probability
    is on: a probability of at least 0.5 never gets a plus line, and any other
    input never gets a minus line. *)
Theorem implied_line_sign (prob : float) :
  PrimFloat.is_nan (probToMoneyline prob) = false /\
  ((0.5 <=? prob) = true -> (0 <? probToMoneyline prob) = false) /\
  ((0.5 <=? prob) = false -> (probToMoneyline prob <? 0) = false).
Proof.
  destruct (negb (Number_isFinite prob) || (prob <=? 0) || (1 <=? prob)) eqn:G.
  - assert (probToMoneyline prob = 0) as -> by (unfold probToMoneyline; rewrite G; reflexivity).
    split; [reflexivity|]. split; intros _; reflexivity.
  - apply orb_false_elim in G as [G H1]. apply orb_false_elim in G as [Hfin H0].
    apply negb_false_iff in Hfin.
    pose proof (probToMoneyline_signed prob Hfin H0 H1) as Hs.
    split; [eapply signed_not_nan, Hs|].
    split; intros Hh; rewrite Hh in Hs.
    + apply signed_true_not_positive, Hs.
    + apply signed_false_not_negative, Hs.
Qed.

Section FairSign.
Context `{Host}.

Lemma fairProb_of_signed (num : float) : SFsigned false (Prim2SF (fairProb_of num)).
Proof.
  pose proof (fairProb_of_not_nan num) as Hn. revert Hn.
  unfold fairProb_of. destruct (Number_isFinite num) eqn:Hfin; [|intros _; vm_compute; reflexivity].
  cbn [negb].
  assert (SFsigned false (Prim2SF 100)) as H100 by (vm_compute; reflexivity).
  assert (PrimFloat.is_nan num = false) as Hnum.
  { apply not_nan_Prim2SF. pose proof (finite_SFfin num Hfin) as Hf.
    destruct (Prim2SF num); try contradiction; discriminate. }
  destruct (0 <? num) eqn:Hpos; intros Hn.
  - apply (div_signed false false); [exact H100 | | exact Hn].
    apply add_signed; [apply positive_signed, Hpos | exact H100].
  - apply (div_signed false false); [apply abs_signed, Hnum | | exact Hn].
    apply add_signed; [apply abs_signed, Hnum | exact H100].
Qed.

Lemma removeVig_signed (p1 p2 : float) :
  SFsigned false (Prim2SF p1) -> SFsigned false (Prim2SF p2) ->
  SFsigned false (Prim2SF (fst (removeVig p1 p2))) /\
  SFsigned false (Prim2SF (snd (removeVig p1 p2))).
Proof.
  intros H1 H2.
  destruct (removeVig_not_nan p1 p2 (signed_not_nan _ _ H1) (signed_not_nan _ _ H2))
    as [N1 N2]. revert N1 N2.
  unfold removeVig. cbv zeta.
  destruct (negb (Number_isFinite (p1 + p2)) || (p1 + p2 <=? 1.0001)); cbn [fst snd];
    [auto|]. intros N1 N2.
  pose proof (add_signed _ _ _ H1 H2) as Ht.
  split; apply (div_signed false false); assumption.
Qed.

(** X21.  The fair probability [moneylineToFairProb] reads off a moneyline
    is never negative, whatever the cell holds, and neither are the two no-vig
    probabilities [removeVig] makes of the fair probabilities of two
    moneylines. *)
Theorem fair_probabilities_not_negative (ml1 ml2 : jsval) :
  (moneylineToFairProb ml1 <? 0) = false /\
  (fst (removeVig (moneylineToFairProb ml1) (moneylineToFairProb ml2)) <? 0) = false /\
  (snd (removeVig (moneylineToFairProb ml1) (moneylineToFairProb ml2)) <? 0) = false.
Proof.
  assert (forall ml, SFsigned false (Prim2SF (moneylineToFairProb ml))) as Hs
    by (intros ml; apply fairProb_of_signed).
  destruct (removeVig_signed _ _ (Hs ml1) (Hs ml2)) as [V1 V2].
  split; [apply signed_false_not_negative, Hs|].
  split; apply signed_false_not_negative; assumption.
Qed.

End FairSign.
End SignedNumbers.

(** ** Winner from scores *)

Section ScoreProperties.
Context `{Host}.
Local Open Scope float_scope.

Lemma finite_sum_not_nan (h s : float) :
  Number_isFinite h = true -> Number_isFinite s = true -> PrimFloat.is_nan (h + s) = false.
Proof.
  intros Hh Hs. apply not_nan_Prim2SF. rewrite add_spec.
  apply SFadd_fin_not_nan; [apply finite_SFfin, Hh|].
  apply not_nan_Prim2SF. unfold Number_isFinite, PrimFloat.is_finite in Hs.
  destruct (PrimFloat.is_nan s); [discriminate | reflexivity].
Qed.

Lemma finite_is_number (x : float) : Number_isFinite x = true -> PrimFloat.is_nan x = false.
Proof.
  unfold Number_isFinite, PrimFloat.is_finite. destruct (PrimFloat.is_nan x); [discriminate | reflexivity].
Qed.

(** Of two numbers, exactly one of [x < y], [y < x] and [x == y] holds. *)
Lemma number_trichotomy (x y : float) :
  PrimFloat.is_nan x = false -> PrimFloat.is_nan y = false ->
  ((x <? y) = true /\ (y <? x) = false /\ (x =? y) = false) \/
  ((x <? y) = false /\ (y <? x) = true /\ (x =? y) = false) \/
  ((x <? y) = false /\ (y <? x) = false /\ (x =? y) = true).
Proof.
  intros Hx Hy.
  destruct (x <? y) eqn:Hlt.
  - left. rewrite (ltb_asym _ _ Hlt). repeat split.
    destruct (x =? y) eqn:E; [|reflexivity].
    destruct (eqb_not_ltb _ _ E) as [E' _]. congruence.
  - destruct (y <? x) eqn:Hgt.
    + right; left. repeat split.
      destruct (x =? y) eqn:E; [|reflexivity].
      destruct (eqb_not_ltb _ _ E) as [_ E']. congruence.
    + right; right. repeat split. apply compare_total; assumption.
Qed.

(** X8.  [checkSpreadWinner] returns [null] exactly when a score or the
    spread does not parse as a finite number.  Otherwise it returns ['home']
    exactly when the home score plus the spread is above the away score,
    ['away'] exactly when it is below, and ['push'] exactly when the two are
    equal. *)
Theorem checkSpreadWinner_cases (homeScore awayScore spread : jsval) :
  let h := parseFloat homeScore in
  let a := parseFloat awayScore in
  let s := parseFloat spread in
  (Number_isFinite h && Number_isFinite a && Number_isFinite s = false ->
   checkSpreadWinner homeScore awayScore spread = None) /\
  (Number_isFinite h && Number_isFinite a && Number_isFinite s = true ->
   (checkSpreadWinner homeScore awayScore spread = Some Home <-> (a <? h + s) = true) /\
   (checkSpreadWinner homeScore awayScore spread = Some Away <-> (h + s <? a) = true) /\
   (checkSpreadWinner homeScore awayScore spread = Some Push <-> (h + s =? a) = true)).
Proof.
  cbv zeta. unfold checkSpreadWinner. split.
  - intros Hn. destruct (Number_isFinite (parseFloat homeScore)),
      (Number_isFinite (parseFloat awayScore)), (Number_isFinite (parseFloat spread));
      try discriminate; reflexivity.
  - intros Hf. apply andb_prop in Hf as [Hf Hs]. apply andb_prop in Hf as [Hh Ha].
    rewrite Hh, Ha, Hs. cbn [negb orb].
    destruct (number_trichotomy (parseFloat homeScore + parseFloat spread) (parseFloat awayScore)
                (finite_sum_not_nan _ _ Hh Hs) (finite_is_number _ Ha))
      as [(-> & -> & ->)|[(-> & -> & ->)|(-> & -> & ->)]];
      repeat split; intros; try discriminate; reflexivity.
Qed.

(** X9.  [determineWinnerFromScores] returns [null] when a score does not
    parse as a finite number.  With finite scores and a spread that parses as
    a finite number it follows [checkSpreadWinner]: 1 for ['home'], 0 for
    ['away'], and [null] exactly on a push.  With finite scores and no such
    spread it returns 1 when the home score is higher and 0 otherwise, so a
    draw counts as a win of the away side. *)
Theorem determineWinnerFromScores_cases (homeScore awayScore spread : jsval) :
  let h := parseFloat homeScore in
  let a := parseFloat awayScore in
  let usable := negb (is_blank spread) && Number_isFinite (parseFloat spread) in
  (Number_isFinite h && Number_isFinite a = false ->
   determineWinnerFromScores homeScore awayScore spread = JNull) /\
  (Number_isFinite h && Number_isFinite a = true -> usable = true ->
   determineWinnerFromScores homeScore awayScore spread =
     match checkSpreadWinner homeScore awayScore spread with
     | Some Home => JNum 1
     | Some Away => JNum 0
     | _ => JNull
     end /\
   (determineWinnerFromScores homeScore awayScore spread = JNull <->
    (h + parseFloat spread =? a) = true)) /\
  (Number_isFinite h && Number_isFinite a = true -> usable = false ->
   determineWinnerFromScores homeScore awayScore spread = (if a <? h then JNum 1 else JNum 0) /\
   ((h =? a) = true -> determineWinnerFromScores homeScore awayScore spread = JNum 0)).
Proof.
  cbv zeta. unfold determineWinnerFromScores. repeat apply conj.
  - intros Hn. destruct (Number_isFinite (parseFloat homeScore)),
      (Number_isFinite (parseFloat awayScore)); try discriminate; reflexivity.
  - intros Hf Hu. apply andb_prop in Hf as [Hh Ha]. rewrite Hh, Ha, Hu. cbn [negb orb].
    split; [reflexivity|].
    apply andb_prop in Hu as [_ Hs].
    unfold checkSpreadWinner. rewrite Hh, Ha, Hs. cbn [negb orb].
    destruct (number_trichotomy (parseFloat homeScore + parseFloat spread) (parseFloat awayScore)
                (finite_sum_not_nan _ _ Hh Hs) (finite_is_number _ Ha))
      as [(-> & -> & ->)|[(-> & -> & ->)|(-> & -> & ->)]];
      split; intros; try discriminate; reflexivity.
  - intros Hf Hu. apply andb_prop in Hf as [Hh Ha]. rewrite Hh, Ha, Hu. cbn [negb orb].
    split; [reflexivity|]. intros He.
    destruct (eqb_not_ltb _ _ He) as [_ ->]. reflexivity.
Qed.

End ScoreProperties.

(** ** Rolling form: what is written *)

Section RollingShape.
Variables (team1_of team2_of : row -> string) (result1_of result2_of : row -> float).
Variable emit : row -> float -> float -> row.

Lemma rolling_from_length rows : forall history outs,
  rolling_from team1_of team2_of result1_of result2_of emit history rows = Some outs ->
  length outs = length rows.
Proof.
  induction rows as [|r rest IH]; intros history outs Hrun; simpl in Hrun.
  - injection Hrun as <-. reflexivity.
  - destruct (history_get history (team1_of r)) as [t1Hist|]; [|discriminate].
    destruct (history_get history (team2_of r)) as [t2Hist|]; [|discriminate].
    simpl in Hrun.
    destruct (rolling_from _ _ _ _ _ _ rest) as [outs'|] eqn:Hrest; [|discriminate].
    simpl in Hrun. injection Hrun as <-. simpl. f_equal. eapply IH, Hrest.
Qed.

End RollingShape.

Section RollingAgree.
Variables (team1_of team2_of : row -> string) (result1_of result2_of : row -> float).

Lemma prior_outcomes_agree k rows rows' :
  Forall2 (same_games team1_of team2_of result1_of result2_of) rows rows' ->
  prior_outcomes team1_of team2_of result1_of result2_of k rows' =
  prior_outcomes team1_of team2_of result1_of result2_of k rows.
Proof.
  induction 1 as [|r s rows rows' (E1 & E2 & R1 & R2) _ IH]; [reflexivity|].
  unfold prior_outcomes in *. simpl. rewrite IH. f_equal.
  unfold recorded. rewrite E1, E2, R1, R2. reflexivity.
Qed.

Lemma prior_outcomes_ext (t1' t2' : row -> string) (r1' r2' : row -> float) k rows :
  Forall (fun r => t1' r = team1_of r /\ t2' r = team2_of r /\
                   r1' r = result1_of r /\ r2' r = result2_of r) rows ->
  prior_outcomes t1' t2' r1' r2' k rows =
  prior_outcomes team1_of team2_of result1_of result2_of k rows.
Proof.
  induction 1 as [|r rows (E1 & E2 & R1 & R2) _ IH]; [reflexivity|].
  unfold prior_outcomes in *. simpl. rewrite IH. f_equal.
  unfold recorded. rewrite E1, E2, R1, R2. reflexivity.
Qed.

End RollingAgree.

Section RollingExtras.
Context `{Host}.
Local Open Scope float_scope.

Lemma field_insert_ne (r : row) (k f : string) (v : jsval) :
  f <> k -> field (<[k := v]> r) f = field r f.
Proof. intros Hne. unfold field. rewrite lookup_insert_ne by congruence. reflexivity. Qed.

Lemma field_insert_eq (r : row) (k : string) (v : jsval) : field (<[k := v]> r) k = v.
Proof. unfold field. rewrite lookup_insert_eq. reflexivity. Qed.

Lemma pro_emit_field (r : row) (a b : float) (f : string) :
  f <> "team1_last5" -> f <> "team2_last5" -> f <> "winner" ->
  field (pro_emit r a b) f = field r f.
Proof.
  intros H1 H2 H3. unfold pro_emit. rewrite !field_insert_ne by assumption. reflexivity.
Qed.

Lemma pro_emit_written (r : row) (a b : float) :
  field (pro_emit r a b) "team1_last5" = JNum a /\
  field (pro_emit r a b) "team2_last5" = JNum b /\
  field (pro_emit r a b) "winner" = JNum (Number (Pro.row_winner r)).
Proof.
  unfold pro_emit. repeat apply conj.
  - rewrite !field_insert_ne by discriminate. apply field_insert_eq.
  - rewrite field_insert_ne by discriminate. apply field_insert_eq.
  - apply field_insert_eq.
Qed.

Lemma pro_emit_winner (r : row) (a b : float) :
  Pro.row_winner (pro_emit r a b) = JNum (Number (Pro.row_winner r)).
Proof.
  unfold Pro.row_winner at 1.
  rewrite (proj2 (proj2 (pro_emit_written r a b))). reflexivity.
Qed.

Lemma pro_emit_same_game (r : row) (a b : float) :
  pro_team1 (pro_emit r a b) = pro_team1 r /\ pro_team2 (pro_emit r a b) = pro_team2 r /\
  pro_result1 (pro_emit r a b) = pro_result1 r /\ pro_result2 (pro_emit r a b) = pro_result2 r.
Proof.
  unfold pro_team1, pro_team2, pro_result1, pro_result2.
  rewrite pro_emit_winner, !pro_emit_field by discriminate. auto.
Qed.

Lemma pro_emit_idemp (r : row) (a b : float) :
  pro_emit (pro_emit r a b) a b = pro_emit r a b.
Proof.
  unfold pro_emit at 1. rewrite pro_emit_winner.
  unfold pro_emit. simpl Number.
  apply map_eq. intros k.
  destruct (decide (k = "winner")) as [->|H1];
    [|destruct (decide (k = "team2_last5")) as [->|H2];
      [|destruct (decide (k = "team1_last5")) as [->|H3]]];
    repeat first [rewrite lookup_insert_eq | rewrite lookup_insert_ne by congruence];
    reflexivity.
Qed.

(** What [addLast5WinColumns] of unnamed/part_002 writes, row by row. *)
Lemma pro_lookup (rows outs : list row) (i : nat) (r : row) :
  Pro.addLast5WinColumns rows = Some outs -> rows !! i = Some r ->
  outs !! i = Some (pro_emit r (recent_form (pro_prior (pro_team1 r) (take i rows)))
                             (recent_form (pro_prior (pro_team2 r) (take i rows)))).
Proof.
  intros Hrun Hi. unfold Pro.addLast5WinColumns in Hrun. rewrite pro_as_rolling in Hrun.
  rewrite (rolling_from_lookup _ _ _ _ _ _ [] ∅ outs i r (history_of_empty _ _ _ _) Hrun Hi).
  simpl. rewrite !pro_form. reflexivity.
Qed.

Lemma pro_length (rows outs : list row) :
  Pro.addLast5WinColumns rows = Some outs -> length outs = length rows.
Proof.
  unfold Pro.addLast5WinColumns. rewrite pro_as_rolling. apply rolling_from_length.
Qed.

Lemma pro_same_games (rows outs : list row) :
  Pro.addLast5WinColumns rows = Some outs ->
  Forall2 (same_games pro_team1 pro_team2 pro_result1 pro_result2) rows outs.
Proof.
  intros Hrun. apply Forall2_same_length_lookup. split.
  - symmetry. apply pro_length, Hrun.
  - intros i r s Hr Hs. rewrite (pro_lookup _ _ _ _ Hrun Hr) in Hs. injection Hs as <-.
    apply pro_emit_same_game.
Qed.

Lemma wins_le_length (l : list float) : (wins l <= length l)%nat.
Proof. induction l as [|x l IH]; simpl; [lia|]. destruct (x =? 1); simpl; lia. Qed.

Lemma last_at_most_length {A : Type} (n : nat) (l : list A) :
  length (last_at_most n l) = Nat.min n (length l).
Proof. unfold last_at_most. rewrite length_reverse, length_take, length_reverse. reflexivity. Qed.

Lemma recent_form_values (l : list float) :
  recent_form l = 0.5 \/
  exists w n : nat, (w <= n)%nat /\ (1 <= n <= 5)%nat /\ recent_form l = fromNat w / fromNat n.
Proof.
  destruct l as [|x l]; [left; reflexivity|]. right.
  unfold recent_form.
  exists (wins (last_at_most 5 (x :: l))), (length (last_at_most 5 (x :: l))).
  split; [apply wins_le_length|]. split; [|reflexivity].
  rewrite last_at_most_length. cbn [length]. lia.
Qed.

Lemma rate_in_unit (w n : nat) :
  (w <= n)%nat -> (1 <= n <= 5)%nat ->
  (0 <=? fromNat w / fromNat n) = true /\ (fromNat w / fromNat n <=? 1) = true.
Proof.
  intros Hw Hn.
  assert (n = 1 \/ n = 2 \/ n = 3 \/ n = 4 \/ n = 5)%nat as Hc by lia.
  destruct Hc as [->|[->|[->|[->| ->]]]];
    do 6 (destruct w as [|w]; [first [exfalso; lia | split; vm_compute; reflexivity]|]);
    exfalso; lia.
Qed.

Lemma recent_form_range (l : list float) :
  (0 <=? recent_form l) = true /\ (recent_form l <=? 1) = true.
Proof.
  destruct (recent_form_values l) as [->|(w & n & Hw & Hn & ->)].
  - split; vm_compute; reflexivity.
  - apply rate_in_unit; assumption.
Qed.

(** X5.  [addLast5WinColumns] (unnamed/part_002) returns one row for each
    row it is given, in the same order.  The row written keeps every field of
    the row read except [team1_last5], [team2_last5] and [winner], and its
    [winner] is always a number: [Number] of the row's winner or, when that is
    blank, of the winner derived from the scores. *)
Theorem addLast5WinColumns_keeps_rows (rows outs : list row) :
  Pro.addLast5WinColumns rows = Some outs ->
  length outs = length rows /\
  forall i r, rows !! i = Some r ->
    exists r', outs !! i = Some r' /\
      field r' "winner" = JNum (Number (Pro.row_winner r)) /\
      forall f, f <> "team1_last5" -> f <> "team2_last5" -> f <> "winner" ->
                field r' f = field r f.
Proof.
  intros Hrun. split; [apply pro_length, Hrun|].
  intros i r Hi. eexists. split; [apply (pro_lookup _ _ _ _ Hrun Hi)|].
  split; [apply pro_emit_written | apply pro_emit_field].
Qed.

(** X6.  Every [team1_last5] and [team2_last5] that [addLast5WinColumns]
    (unnamed/part_002) writes is a number between 0 and 1: it is 0.5, or
    [w / n] for a number [n] of games between 1 and 5 and a number [w <= n]
    of wins. *)
Theorem form_values_are_rates (rows outs : list row) (i : nat) (r' : row) :
  Pro.addLast5WinColumns rows = Some outs -> outs !! i = Some r' ->
  exists t1 t2,
    field r' "team1_last5" = JNum t1 /\ field r' "team2_last5" = JNum t2 /\
    (0 <=? t1) = true /\ (t1 <=? 1) = true /\ (0 <=? t2) = true /\ (t2 <=? 1) = true /\
    (t1 = 0.5 \/ exists w n : nat, (w <= n)%nat /\ (1 <= n <= 5)%nat /\ t1 = fromNat w / fromNat n) /\
    (t2 = 0.5 \/ exists w n : nat, (w <= n)%nat /\ (1 <= n <= 5)%nat /\ t2 = fromNat w / fromNat n).
Proof.
  intros Hrun Hi.
  assert (i < length rows)%nat as Hlt
    by (rewrite <- (pro_length _ _ Hrun); eapply lookup_lt_Some, Hi).
  destruct (lookup_lt_is_Some_2 rows i Hlt) as [r Hr].
  rewrite (pro_lookup _ _ _ _ Hrun Hr) in Hi. injection Hi as <-.
  destruct (pro_emit_written r (recent_form (pro_prior (pro_team1 r) (take i rows)))
                               (recent_form (pro_prior (pro_team2 r) (take i rows))))
    as (W1 & W2 & _).
  eexists _, _. split; [exact W1|]. split; [exact W2|].
  pose proof (recent_form_range (pro_prior (pro_team1 r) (take i rows))) as [? ?].
  pose proof (recent_form_range (pro_prior (pro_team2 r) (take i rows))) as [? ?].
  repeat apply conj; auto using recent_form_values.
Qed.

Lemma pro_append_keeps_prefix (raw new stored outs : list row) :
  Pro.addLast5WinColumns raw = Some stored ->
  Pro.addLast5WinColumns (stored ++ new) = Some outs ->
  take (length stored) outs = stored.
Proof.
  intros Hraw Hrun.
  pose proof (pro_length _ _ Hraw) as Hlen.
  pose proof (pro_length _ _ Hrun) as Hlen2. rewrite length_app in Hlen2.
  pose proof (pro_same_games _ _ Hraw) as Hsame.
  apply list_eq. intros i.
  destruct (decide (i < length stored)%nat) as [Hlt|Hge].
  - rewrite lookup_take_lt by assumption.
    destruct (lookup_lt_is_Some_2 stored i Hlt) as [s Hs].
    destruct (lookup_lt_is_Some_2 raw i ltac:(lia)) as [r Hr].
    pose proof (pro_lookup _ _ _ _ Hraw Hr) as Hs'. rewrite Hs in Hs'. injection Hs' as Es.
    rewrite (pro_lookup (stored ++ new) outs i s Hrun
               ltac:(rewrite lookup_app_l by assumption; exact Hs)).
    rewrite take_app_le by lia.
    rewrite !(prior_outcomes_agree _ _ _ _ _ (take i raw) (take i stored))
      by (apply Forall2_take, Hsame).
    rewrite Hs. f_equal. rewrite Es at 1 2 3.
    destruct (pro_emit_same_game r (recent_form (pro_prior (pro_team1 r) (take i raw)))
                (recent_form (pro_prior (pro_team2 r) (take i raw)))) as (-> & -> & _).
    rewrite pro_emit_idemp. symmetry. exact Es.
  - rewrite lookup_take_ge by lia. symmetry. apply lookup_ge_None. lia.
Qed.

Lemma jsx_lookup (rows outs : list row) (i : nat) (r : row) :
  Jsx.addLast5WinColumns rows = Some outs -> rows !! i = Some r ->
  outs !! i = Some (jsx_emit r (recent_form (jsx_prior (jsx_team1 r) (take i rows)))
                             (recent_form (jsx_prior (jsx_team2 r) (take i rows)))).
Proof.
  intros Hrun Hi. unfold Jsx.addLast5WinColumns in Hrun. rewrite jsx_as_rolling in Hrun.
  rewrite (rolling_from_lookup _ _ _ _ _ _ [] ∅ outs i r (history_of_empty _ _ _ _) Hrun Hi).
  simpl. rewrite !jsx_form. reflexivity.
Qed.

Lemma jsx_length (rows outs : list row) :
  Jsx.addLast5WinColumns rows = Some outs -> length outs = length rows.
Proof.
  unfold Jsx.addLast5WinColumns. rewrite jsx_as_rolling. apply rolling_from_length.
Qed.

Lemma plain_row_same_game (r : row) :
  plain_row r ->
  pro_team1 r = jsx_team1 r /\ pro_team2 r = jsx_team2 r /\
  pro_result1 r = jsx_result1 r /\ pro_result2 r = jsx_result2 r.
Proof.
  intros (H1 & H2 & Hw & _ & _).
  unfold pro_team1, pro_team2, pro_result1, pro_result2, jsx_team1, jsx_team2,
    jsx_result1, jsx_result2, Pro.row_winner, js_or.
  rewrite H1, H2, Hw. auto.
Qed.

(** X7.  On rows that name both competitors under [team1] and [team2], have
    a winner and bring no form columns of their own, the two variants of
    [addLast5WinColumns] (unnamed/part_002 and src/SportsPredictionModel.jsx)
    write the same form values; the rows they write differ in the [winner]
    field at most. *)
Theorem variants_agree_on_plain_rows (rows outs outs' : list row) :
  Forall plain_row rows ->
  Pro.addLast5WinColumns rows = Some outs ->
  Jsx.addLast5WinColumns rows = Some outs' ->
  length outs = length outs' /\
  forall i r1 r2, outs !! i = Some r1 -> outs' !! i = Some r2 ->
    field r1 "team1_last5" = field r2 "team1_last5" /\
    field r1 "team2_last5" = field r2 "team2_last5" /\
    forall f, f <> "winner" -> field r1 f = field r2 f.
Proof.
  intros Hplain Hpro Hjsx.
  pose proof (pro_length _ _ Hpro) as L1. pose proof (jsx_length _ _ Hjsx) as L2.
  split; [congruence|].
  intros i r1 r2 H1 H2.
  assert (i < length rows)%nat as Hlt by (rewrite <- L1; eapply lookup_lt_Some, H1).
  destruct (lookup_lt_is_Some_2 rows i Hlt) as [r Hr].
  rewrite (pro_lookup _ _ _ _ Hpro Hr) in H1. injection H1 as <-.
  rewrite (jsx_lookup _ _ _ _ Hjsx Hr) in H2. injection H2 as <-.
  pose proof (proj1 (Forall_lookup _ _) Hplain i r Hr) as Hpr.
  destruct (plain_row_same_game r Hpr) as (T1 & T2 & _ & _).
  destruct Hpr as (_ & _ & _ & U1 & U2).
  assert (forall k, pro_prior k (take i rows) = jsx_prior k (take i rows)) as Hprior.
  { intros k. apply prior_outcomes_ext. apply Forall_take.
    eapply Forall_impl; [exact Hplain|]. intros r0 Hr0.
    destruct (plain_row_same_game r0 Hr0) as (? & ? & ? & ?). auto. }
  rewrite T1, T2, !Hprior.
  assert (forall f, f <> "winner" ->
            field (pro_emit r (recent_form (jsx_prior (jsx_team1 r) (take i rows)))
                     (recent_form (jsx_prior (jsx_team2 r) (take i rows)))) f
            = field (jsx_emit r (recent_form (jsx_prior (jsx_team1 r) (take i rows)))
                       (recent_form (jsx_prior (jsx_team2 r) (take i rows)))) f) as Hall.
  { intros f Hf. unfold pro_emit, jsx_emit. rewrite U1, U2.
    rewrite field_insert_ne by assumption. reflexivity. }
  split; [apply Hall; discriminate|]. split; [apply Hall; discriminate | exact Hall].
Qed.

End RollingExtras.

(** ** Upload *)

Section UploadProperties.
Context `{Host}.
Local Open Scope float_scope.

Lemma handleDataUpload_team key sp mode old new stored :
  isTeamSeasonSport sp = true ->
  handleDataUpload key sp mode old new = Some stored ->
  exists raw, Pro.addLast5WinColumns raw = Some stored.
Proof.
  unfold handleDataUpload. intros ->. destruct (_ && _); eauto.
Qed.

(** X4.  For a team sport, appending an upload to rows stored by an earlier
    upload leaves the stored rows as they are, form columns included: the
    new list starts with them, and holds one more row for each row of the
    second upload (for NCAAB, each row that has both moneylines). *)
Theorem appended_upload_keeps_stored_rows (selectedSport : string) (sp : sport)
    (mode : bool) (old first_upload stored second_upload outs : list row) :
  isTeamSeasonSport sp = true ->
  handleDataUpload selectedSport sp mode old first_upload = Some stored ->
  handleDataUpload selectedSport sp true stored second_upload = Some outs ->
  take (length stored) outs = stored /\
  length outs =
    (length stored +
     length (if String.eqb selectedSport "ncaab" then ncaab_rows second_upload
             else second_upload))%nat.
Proof.
  intros Hteam Hfirst Hsecond.
  destruct (handleDataUpload_team _ _ _ _ _ _ Hteam Hfirst) as [raw Hraw].
  unfold handleDataUpload in Hsecond. rewrite Hteam in Hsecond. cbv zeta in Hsecond.
  set (new := if String.eqb selectedSport "ncaab" then _ else _) in *.
  destruct stored as [|s stored].
  - split; [apply take_0|]. cbn [andb length Nat.ltb Nat.leb] in Hsecond.
    rewrite (pro_length _ _ Hsecond). reflexivity.
  - cbn [andb length Nat.ltb Nat.leb] in Hsecond. split.
    + apply (pro_append_keeps_prefix raw new _ _ Hraw Hsecond).
    + rewrite (pro_length _ _ Hsecond), length_app. reflexivity.
Qed.



End UploadProperties.

(** ** CSV parsing *)

Section ParseCSVProperties.
Context `{Host}.
Variable trim : string -> string.
Local Open Scope float_scope.

Lemma csv_cell_value (raw : string) : csv_value (csv_cell raw).
Proof.
  unfold csv_cell, csv_value. destruct (String.eqb raw "") eqn:E; [left; reflexivity|].
  apply String.eqb_neq in E. unfold Number, Number_isNaN.
  rewrite (proj2 (String.eqb_neq raw "") E).
  destruct (PrimFloat.is_nan (StringToNumber raw)) eqn:En; cbn [negb].
  - right; right. eauto.
  - right; left. eauto.
Qed.

Lemma csv_fold_snoc parts l e obj :
  fold_left (csv_step trim parts) (l ++ [e]) obj = csv_step trim parts (fold_left (csv_step trim parts) l obj) e.
Proof. rewrite fold_left_app. reflexivity. Qed.

Lemma csv_fold_dom parts l : forall obj k,
  is_Some (fold_left (csv_step trim parts) l obj !! k) <->
  is_Some (obj !! k) \/ (k <> "__proto__" /\ exists i, (i, k) ∈ l).
Proof.
  induction l as [|[i key] l IH]; intros obj k; simpl.
  - split; [auto|]. intros [?|[_ [i Hi]]]; [assumption|]. inversion Hi.
  - rewrite IH. unfold csv_step. cbn [fst snd].
    destruct (String.eqb key "__proto__") eqn:E.
    + apply String.eqb_eq in E. subst key. split.
      * intros [?|[Hk [j Hj]]]; [auto|]. right. split; [assumption|]. exists j. now right.
      * intros [?|[Hk [j Hj]]]; [auto|]. right. split; [assumption|]. exists j.
        apply elem_of_cons in Hj as [Hj|Hj]; [congruence | assumption].
    + apply String.eqb_neq in E. split.
      * intros [Hs|[Hk [j Hj]]].
        -- destruct (decide (key = k)) as [<-|Hne].
           ++ right. split; [assumption|]. exists i. now left.
           ++ rewrite lookup_insert_ne in Hs by assumption. auto.
        -- right. split; [assumption|]. exists j. now right.
      * intros [Hs|[Hk [j Hj]]].
        -- left. destruct (decide (key = k)) as [<-|Hne].
           ++ rewrite lookup_insert_eq. eauto.
           ++ rewrite lookup_insert_ne by assumption. assumption.
        -- apply elem_of_cons in Hj as [Hj|Hj].
           ++ injection Hj as <- <-. left. rewrite lookup_insert_eq. eauto.
           ++ right. split; [assumption|]. eauto.
Qed.

Lemma csv_fold_values parts l : forall obj,
  map_Forall (fun _ v => csv_value v) obj ->
  map_Forall (fun _ v => csv_value v) (fold_left (csv_step trim parts) l obj).
Proof.
  induction l as [|e l IH]; intros obj Hobj; simpl; [assumption|].
  apply IH. unfold csv_step. destruct (String.eqb _ _); [assumption|].
  apply map_Forall_insert_2; [apply csv_cell_value | assumption].
Qed.

Lemma csv_fold_other parts l : forall obj k,
  (forall i, (i, k) ∉ l) ->
  fold_left (csv_step trim parts) l obj !! k = obj !! k.
Proof.
  induction l as [|[i key] l IH]; intros obj k Hk; simpl; [reflexivity|].
  rewrite IH by (intros j Hj; apply (Hk j); now right).
  unfold csv_step. cbn [fst snd]. destruct (String.eqb _ _); [reflexivity|].
  apply lookup_insert_ne. intros ->. apply (Hk i). now left.
Qed.

Lemma csv_fold_last parts l1 l2 i k obj :
  k <> "__proto__" -> (forall j, (j, k) ∉ l2) ->
  fold_left (csv_step trim parts) (l1 ++ (i, k) :: l2) obj !! k
  = Some (csv_cell (trim (default "" (parts !! i)))).
Proof.
  intros Hk Hl2. rewrite fold_left_app. simpl. rewrite csv_fold_other by assumption.
  unfold csv_step. cbn [fst snd]. rewrite (proj2 (String.eqb_neq _ _) Hk).
  apply lookup_insert_eq.
Qed.

Lemma elem_of_imap_pair (header : list string) (i : nat) (k : string) :
  (i, k) ∈ imap pair header <-> header !! i = Some k.
Proof.
  rewrite list_elem_of_lookup. split.
  - intros [j Hj]. rewrite list_lookup_imap in Hj.
    destruct (header !! j) eqn:E; [|discriminate]. simpl in Hj. injection Hj as <- <-. exact E.
  - intros Hi. exists i. rewrite list_lookup_imap, Hi. reflexivity.
Qed.

Lemma csv_row_fold header line :
  csv_row trim header line = fold_left (csv_step trim (split_on comma line)) (imap pair header) ∅.
Proof. reflexivity. Qed.

Lemma imap_pair_split (header : list string) (i : nat) (k : string) :
  header !! i = Some k ->
  imap pair header = imap pair (take i header) ++ (i, k) :: imap (fun j => pair (S i + j)%nat) (drop (S i) header).
Proof.
  intros Hi. rewrite <- (take_drop_middle header i k Hi) at 1.
  rewrite imap_app. simpl. f_equal.
  assert (length (take i header) = i) as ->
    by (rewrite length_take; apply lookup_lt_Some in Hi; lia).
  rewrite Nat.add_0_r. f_equal. apply imap_ext. intros j x _. simpl. f_equal. lia.
Qed.

(** X1.  [parseCSV] returns one row for each non-blank line after the first
    one, and none at all when the text has fewer than two non-blank lines.
    The keys of every row are the names of the header line, except
    [__proto__]; and every cell stored is the empty string, a number that is
    not NaN, or a text that does not read as a number. *)
Theorem parseCSV_rows (text : string) :
  length (parseCSV trim text) = (length (csv_lines trim text) - 1)%nat /\
  forall first rest r,
    csv_lines trim text = first :: rest -> r ∈ parseCSV trim text ->
    let header := map trim (split_on comma first) in
    (forall k, is_Some (r !! k) <-> k ∈ header /\ k <> "__proto__") /\
    (forall k v, r !! k = Some v -> csv_value v).
Proof.
  unfold parseCSV. cbv zeta. split.
  - destruct (csv_lines trim text) as [|first [|second rest]]; try reflexivity.
    cbn [length Nat.ltb Nat.leb]. rewrite length_map, length_drop. cbn [length]. lia.
  - intros first rest r Hlines Hr. rewrite Hlines in Hr.
    destruct rest as [|second rest]; [inversion Hr|].
    cbn [length Nat.ltb Nat.leb] in Hr. cbn [lookup list_lookup default option_map] in Hr.
    apply list_elem_of_fmap in Hr as (line & -> & _).
    rewrite csv_row_fold. split.
    + intros k. rewrite csv_fold_dom, lookup_empty. split.
      * intros [[? Hs]|[Hk [i Hi]]]; [discriminate|].
        apply elem_of_imap_pair in Hi. split; [|assumption].
        eapply list_elem_of_lookup_2, Hi.
      * intros [Hin Hk]. right. split; [assumption|].
        apply list_elem_of_lookup in Hin as [i Hi]. exists i. apply elem_of_imap_pair, Hi.
    + intros k v Hv.
      apply (csv_fold_values (split_on comma line) (imap pair (map trim (split_on comma first))) ∅
               (map_Forall_empty _) k v Hv).
Qed.

(** X2.  The cell [parseCSV] stores under a column name is read from the
    column's position in the line: for the last position [i] at which the
    header carries the name [k], the row holds under [k] the trimmed [i]-th
    part of the line (the empty string when the line has fewer parts), as a
    number when it reads as one. *)
Theorem parseCSV_cell (header : list string) (line : string) (i : nat) (k : string) :
  header !! i = Some k -> k <> "__proto__" ->
  (forall j, (i < j)%nat -> header !! j <> Some k) ->
  csv_row trim header line !! k
  = Some (csv_cell (trim (default "" (split_on comma line !! i)))).
Proof.
  intros Hi Hk Hlast. rewrite csv_row_fold, (imap_pair_split header i k Hi).
  apply csv_fold_last; [assumption|].
  intros j Hj. apply list_elem_of_lookup in Hj as [n Hn].
  rewrite list_lookup_imap in Hn.
  destruct (drop (S i) header !! n) eqn:E; [|discriminate]. simpl in Hn.
  injection Hn as <- <-. rewrite lookup_drop in E.
  apply (Hlast (S i + n)%nat); [lia | exact E].
Qed.

End ParseCSVProperties.

(** ** Shape of a trained model *)

Section TrainingShape.
Context `{Host}.
Local Open Scope float_scope.

Lemma epoch_step_length Xnorm y lr lam wb :
  length (fst (epoch_step Xnorm y lr lam wb)) = length (fst wb).
Proof.
  unfold epoch_step. destruct wb as [w b].
  destruct (fold_left _ _ _) as [gradW gradB]. cbn [fst]. apply length_imap.
Qed.

Lemma iter_epoch_length Xnorm y lr lam n wb :
  length (fst (Nat.iter n (epoch_step Xnorm y lr lam) wb)) = length (fst wb).
Proof.
  induction n as [|n IH]; [reflexivity|]. simpl. rewrite epoch_step_length. exact IH.
Qed.

Lemma count_le {A : Type} (f : nat -> A -> nat) (l : list A) (c : nat) :
  (forall c x, c <= f c x <= S c)%nat ->
  (c <= fold_left f l c <= c + length l)%nat.
Proof.
  intros Hf. revert c. induction l as [|x l IH]; intros c; simpl; [lia|].
  specialize (IH (f c x)). specialize (Hf c x). lia.
Qed.

Lemma std_of_truthy X means j : truthy_num (std_of X means j) = true.
Proof.
  unfold std_of. cbv zeta.
  set (s := PrimFloat.sqrt _). destruct (truthy_num s) eqn:E; [exact E | reflexivity].
Qed.

Lemma trainLogisticRegression_shape (X : list (list float)) (y : list float)
    (options : train_options) :
  match X with
  | [] => trainLogisticRegression X y options = None
  | X0 :: _ =>
      exists res,
        trainLogisticRegression X y options = Some res /\
        length (tr_weights res) = length X0 /\
        length (tr_means res) = length X0 /\
        length (tr_stds res) = length X0 /\
        Forall (fun s => truthy_num s = true) (tr_stds res) /\
        tr_samplesUsed res = length X /\
        (exists correct : nat,
           (correct <= length X)%nat /\
           tr_accuracy res = fromNat correct / fromNat (length X)) /\
        (epochs options = 0%nat ->
         tr_weights res = replicate (length X0) 0 /\ tr_bias res = 0)
  end.
Proof.
  destruct X as [|X0 Xs]; [reflexivity|].
  eexists. split; [reflexivity|]. cbn [tr_weights tr_means tr_stds tr_samplesUsed tr_accuracy tr_bias].
  repeat apply conj.
  - rewrite iter_epoch_length. apply length_replicate.
  - apply length_imap.
  - apply length_imap.
  - apply Forall_forall. intros s Hs. apply list_elem_of_lookup in Hs as [j Hj].
    rewrite list_lookup_imap in Hj.
    destruct (X0 !! j); [|discriminate]. injection Hj as <-. apply std_of_truthy.
  - reflexivity.
  - eexists. split; [|reflexivity].
    match goal with |- (fold_left ?f ?l 0%nat <= _)%nat =>
      pose proof (count_le f l 0%nat) as Hc end.
    rewrite length_seq in Hc. apply Hc.
    intros c i. destruct (negb _); [lia|]. destruct (y !! i); [|lia].
    destruct (_ =? _); lia.
  - intros ->. split; reflexivity.
Qed.

Lemma train_feature_finite (r : row) (f : string) :
  Number_isFinite (train_feature r f) = true.
Proof.
  unfold train_feature. destruct (includes f "moneyline").
  - destruct (removeVig _ _) as [fair1 fair2].
    destruct (Number_isFinite (if String.eqb f "team1_moneyline" then fair1 else fair2)) eqn:E;
      [exact E | reflexivity].
  - destruct (Number_isFinite (Number (field r f))) eqn:E; [exact E | reflexivity].
Qed.

Lemma training_matrix_well_formed (selectedSport : sport) (trainingData : list row) :
  well_formed (length (features selectedSport)) (training_matrix selectedSport trainingData).
Proof.
  unfold well_formed, training_matrix. apply Forall_fmap, Forall_forall. intros r _.
  simpl. split; [apply length_map|].
  apply Forall_fmap, Forall_forall. intros f _. apply train_feature_finite.
Qed.

(** X11.  [trainLogisticRegression] throws on an empty matrix.  On any
    other matrix it returns one weight, one mean and one standard deviation
    for each entry of the first row; every standard deviation returned is a
    non-zero number (so that normalising never divides by zero or NaN);
    [samplesUsed] is the number of rows; the accuracy is a count of at most
    that many rows divided by it; and with zero epochs the weights and the
    bias are all 0. *)
Theorem trained_parameters_shape (X : list (list float)) (y : list float)
    (options : train_options) :
  match X with
  | [] => trainLogisticRegression X y options = None
  | X0 :: _ =>
      exists res,
        trainLogisticRegression X y options = Some res /\
        length (tr_weights res) = length X0 /\
        length (tr_means res) = length X0 /\
        length (tr_stds res) = length X0 /\
        Forall (fun s => truthy_num s = true) (tr_stds res) /\
        tr_samplesUsed res = length X /\
        (exists correct : nat,
           (correct <= length X)%nat /\
           tr_accuracy res = fromNat correct / fromNat (length X)) /\
        (epochs options = 0%nat ->
         tr_weights res = replicate (length X0) 0 /\ tr_bias res = 0)
  end.
Proof. apply trainLogisticRegression_shape. Qed.

(** X12.  The matrix [trainModel] builds has, for every usable row, one
    finite entry per feature of the sport.  When [trainModel] stores a model,
    the model has one weight, mean and standard deviation per feature, its
    standard deviations are non-zero numbers, and its means and standard
    deviations are the averages and the population standard deviations (1
    when that is 0) of the columns of that matrix. *)
Theorem trained_model_fits_training_matrix (selectedSport : sport) (trainingData : list row) :
  let X := training_matrix selectedSport trainingData in
  let n := length (features selectedSport) in
  well_formed n X /\
  match trainModel selectedSport trainingData with
  | Trained model stats =>
      length (weights model) = n /\ length (means model) = n /\ length (stds model) = n /\
      Forall (fun s => truthy_num s = true) (stds model) /\
      samplesUsed stats = length X /\
      forall j, (j < n)%nat ->
        means model !! j = Some (average (column X j)) /\
        stds model !! j =
          Some (let s := population_std (column X j) in if truthy_num s then s else 1)
  | _ => True
  end.
Proof.
  cbv zeta. split; [apply training_matrix_well_formed|].
  pose proof (training_matrix_well_formed selectedSport trainingData) as Hwf.
  unfold trainModel. fold (training_matrix selectedSport trainingData).
  destruct (length trainingData <? 20)%nat; [exact I|].
  destruct (length (filter _ trainingData) =? 0)%nat eqn:Hn; [exact I|].
  set (y := map _ _). set (opts := {| learningRate := _ |}).
  destruct (training_matrix selectedSport trainingData) as [|X0 Xs] eqn:EX.
  { exfalso. apply Nat.eqb_neq in Hn. apply Hn.
    unfold training_matrix in EX. apply (f_equal length) in EX.
    rewrite length_map in EX. exact EX. }
  pose proof (trainLogisticRegression_shape (X0 :: Xs) y opts) as (res & Hres & Hw & Hm & Hs & Hnz & Hsu & _).
  destruct (trainLogisticRegression_params X0 Xs y opts) as (res' & Hres' & Em & Es & _).
  rewrite Hres in Hres'. injection Hres' as <-.
  rewrite Hres. cbn [weights means stds samplesUsed].
  assert (length X0 = length (features selectedSport)) as HX0
    by (apply Forall_cons in Hwf as [[? _] _]; assumption).
  rewrite <- HX0 in *.
  assert (forall j, (j < length X0)%nat ->
            tr_means res !! j = Some (average (column (X0 :: Xs) j))) as Hmeans.
  { intros j Hj. rewrite Em, imap_index_only, list_lookup_fmap, lookup_seq_lt by lia.
    simpl. rewrite (mean_of_average (length X0)) by assumption. reflexivity. }
  repeat apply conj; try assumption.
  intros j Hj. split; [apply Hmeans, Hj|].
  rewrite Es, imap_index_only, list_lookup_fmap, lookup_seq_lt by lia.
  simpl. rewrite (std_of_population_std (length X0)); try assumption; [reflexivity|].
  unfold at_num. rewrite <- Em, (Hmeans j Hj). reflexivity.
Qed.

End TrainingShape.

(** ** Counters of the backtest *)

Section BacktestCounts.
Context `{Host}.
Local Open Scope float_scope.

Lemma moneyline_bet_coded p w current b :
  moneyline_bet p w current = Some b -> placed_as_coded b.
Proof.
  unfold moneyline_bet. destruct (_ && _); [|discriminate].
  destruct (2 <? bestEV _) eqn:E; [|discriminate].
  intros [= <-]. split; [exact E|]. cbn [won payout]. intros ->. reflexivity.
Qed.

Lemma spread_bet_coded sp p w current b :
  spread_bet sp p w current = Some b -> placed_as_coded b.
Proof.
  unfold spread_bet. destruct (_ && _); [|discriminate].
  destruct (_ && _); [|discriminate].
  destruct (2 <? sp_bestEV _) eqn:E; [|discriminate].
  intros [= <-]. split; [exact E|]. cbn [won payout]. intros ->. reflexivity.
Qed.

Lemma total_bet_coded sp p current b :
  total_bet sp p current = Some b -> placed_as_coded b.
Proof.
  unfold total_bet. destruct (_ && _); [|discriminate].
  destruct (_ && _); [|discriminate].
  destruct (2 <? tot_bestEV _) eqn:E; [|discriminate].
  intros [= <-]. split; [exact E|]. cbn [won payout]. intros ->. reflexivity.
Qed.

Lemma spread_bet_unsupported sp p w current :
  supportsSpread sp = false -> spread_bet sp p w current = None.
Proof. unfold spread_bet. intros ->. reflexivity. Qed.

Lemma total_bet_unsupported sp p current :
  supportsTotal sp = false -> total_bet sp p current = None.
Proof. unfold total_bet. intros ->. reflexivity. Qed.

Lemma row_ledger_coded model sp current :
  Forall (fun e => placed_as_coded (snd e)) (row_ledger model sp current).
Proof.
  unfold row_ledger, row_bets.
  destruct (is_blank _); [constructor|]. destruct (negb _); [constructor|].
  repeat apply Forall_app_2.
  - destruct (moneyline_bet _ _ _) eqn:E; [|constructor].
    constructor; [|constructor]. eapply moneyline_bet_coded, E.
  - destruct (spread_bet _ _ _ _) eqn:E; [|constructor].
    constructor; [|constructor]. eapply spread_bet_coded, E.
  - destruct (total_bet _ _ _) eqn:E; [|constructor].
    constructor; [|constructor]. eapply total_bet_coded, E.
Qed.

Lemma count_bet_counts with_ev b m h e :
  market_counts h m -> market_counts (h ++ [e]) (count_bet with_ev b m).
Proof.
  intros [Hc Hb]. unfold market_counts, count_bet. cbn [bets correct].
  rewrite length_app. simpl. destruct (won b); lia.
Qed.

Lemma market_counts_more h e m : market_counts h m -> market_counts (h ++ [e]) m.
Proof. intros [Hc Hb]. unfold market_counts. rewrite length_app. simpl. lia. Qed.

Lemma backtest_row_counts model sp start n st current :
  replay_counts start n st ->
  replay_counts start (S n) (backtest_row model sp st (start + n) current).
Proof.
  intros (Hml & Hsp & Htot & Hlen & Hidx). unfold backtest_row.
  destruct (row_bets model sp current) as [[[ml spb] tot]|].
  - unfold replay_counts. cbn [history bt_bets].
    assert (history (settle Total tot (settle Spread spb (settle Moneyline ml st))) = history st)
      as Eh by (destruct ml, spb, tot; reflexivity).
    rewrite Eh. split; [|split; [|split; [|split]]].
    + destruct ml, spb, tot; cbn [settle bt_bets moneyline];
        auto using count_bet_counts, market_counts_more.
    + destruct ml, spb, tot; cbn [settle bt_bets spread_market];
        auto using count_bet_counts, market_counts_more.
    + destruct ml, spb, tot; cbn [settle bt_bets total_market];
        auto using count_bet_counts, market_counts_more.
    + rewrite length_app. simpl. lia.
    + apply Forall_app. split.
      * eapply Forall_impl; [exact Hidx|]. simpl. intros; lia.
      * repeat constructor; simpl; lia.
  - unfold replay_counts. split; [|split; [|split; [|split]]]; auto.
    eapply Forall_impl; [exact Hidx|]. simpl. intros; lia.
Qed.

Lemma backtest_loop_counts model sp rows : forall start n st,
  replay_counts start n st ->
  replay_counts start (n + length rows) (backtest_loop model sp (start + n) rows st).
Proof.
  induction rows as [|current rest IH]; intros start n st Hst; simpl.
  - rewrite Nat.add_0_r. exact Hst.
  - replace (n + S (length rest))%nat with (S n + length rest)%nat by lia.
    replace (S (start + n)) with (start + S n)%nat by lia.
    apply IH, backtest_row_counts, Hst.
Qed.

Lemma initial_counts start : replay_counts start 0 initial_state.
Proof. repeat split; simpl; try lia. constructor. Qed.

(** A sport without spread and total markets leaves their entries untouched. *)
Lemma backtest_loop_unsupported model sp rows : forall i st,
  supportsSpread sp = false -> supportsTotal sp = false ->
  spread_market (bt_bets (backtest_loop model sp i rows st)) = spread_market (bt_bets st) /\
  total_market (bt_bets (backtest_loop model sp i rows st)) = total_market (bt_bets st).
Proof.
  induction rows as [|current rest IH]; intros i st Hs Ht; simpl; [auto|].
  destruct (IH (S i) (backtest_row model sp st i current) Hs Ht) as [-> ->].
  unfold backtest_row, row_bets.
  destruct (is_blank _); [auto|]. destruct (negb _); [auto|].
  rewrite (spread_bet_unsupported _ _ _ _ Hs), (total_bet_unsupported _ _ _ Ht).
  destruct (moneyline_bet _ _ _); auto.
Qed.

(** X13.  In the result of a backtest, no market counts more wins than
    bets; every market has at most one bet for each row recorded in the
    balance history; the history has at most one entry per tested row, each
    under an index from 20 on; the total number of bets is at most three
    times the number of rows tested; and the ROI is 0 when no bet was
    placed. *)
Theorem backtest_counters (modelTrained : bool) (modelParams : option model_params)
    (selectedSport : sport) (trainingData : list row) (res : backtest_result) :
  runBacktest modelTrained modelParams selectedSport trainingData = Some res ->
  let b := res_bets res in
  (correct (moneyline b) <= bets (moneyline b))%nat /\
  (correct (spread_market b) <= bets (spread_market b))%nat /\
  (correct (total_market b) <= bets (total_market b))%nat /\
  (bets (moneyline b) <= length (res_history res))%nat /\
  (bets (spread_market b) <= length (res_history res))%nat /\
  (bets (total_market b) <= length (res_history res))%nat /\
  (length (res_history res) <= gamesTested res)%nat /\
  (totalBets res <= 3 * gamesTested res)%nat /\
  Forall (fun e => (20 <= fst e < 20 + gamesTested res)%nat) (res_history res) /\
  (totalBets res = 0%nat -> roi res = 0).
Proof.
  unfold runBacktest. destruct modelParams as [model|]; [|discriminate].
  destruct (negb modelTrained || _) eqn:Hguard; [discriminate|].
  intros [= <-]. cbv zeta. cbn [res_bets res_history gamesTested totalBets roi].
  set (sorted := Array_sort _ trainingData).
  pose proof (backtest_loop_counts model selectedSport (drop 20 sorted) 20 0 initial_state
                (initial_counts 20)) as Hc.
  rewrite Nat.add_0_r, Nat.add_0_l, length_drop in Hc.
  destruct Hc as ([? ?] & [? ?] & [? ?] & Hlen & Hidx).
  repeat apply conj; try assumption; try lia.
  intros ->. reflexivity.
Qed.

(** X14.  For a sport that supports neither spreads nor totals, the
    backtest places no spread bet and no total bet: both markets end with no
    bets and no profit, and the totals of the result are those of the
    moneyline market. *)
Theorem backtest_skips_unsupported_markets (modelTrained : bool)
    (modelParams : option model_params) (selectedSport : sport) (trainingData : list row)
    (res : backtest_result) :
  supportsSpread selectedSport = false -> supportsTotal selectedSport = false ->
  runBacktest modelTrained modelParams selectedSport trainingData = Some res ->
  spread_market (res_bets res) = empty_market /\
  total_market (res_bets res) = empty_market /\
  totalBets res = bets (moneyline (res_bets res)) /\
  totalProfit res = 0 + profit (moneyline (res_bets res)) + 0 + 0.
Proof.
  intros Hs Ht. unfold runBacktest. destruct modelParams as [model|]; [|discriminate].
  destruct (negb modelTrained || _); [discriminate|].
  intros [= <-]. cbn [res_bets totalBets totalProfit].
  destruct (backtest_loop_unsupported model selectedSport
              (drop 20 (Array_sort (fun a b => getDate a - getDate b) trainingData))
              20 initial_state Hs Ht) as [-> ->].
  repeat apply conj; try reflexivity. simpl. lia.
Qed.

(** X15.  Every bet the backtest places, in any market, was placed on an
    expected value above 2, and costs exactly 100 when it loses; and a row
    whose winner is blank places no bet. *)
Theorem placed_bets_are_as_coded (model : model_params) (selectedSport : sport)
    (rows : list row) :
  Forall (fun e => placed_as_coded (snd e)) (ledger model selectedSport rows) /\
  forall current, is_blank (field current "winner") = true ->
    row_ledger model selectedSport current = [].
Proof.
  split.
  - unfold ledger. apply Forall_concat, Forall_fmap, Forall_forall. intros r _.
    apply row_ledger_coded.
  - intros current Hb. unfold row_ledger, row_bets. rewrite Hb. reflexivity.
Qed.

End BacktestCounts.

(** ** Prediction *)

Section PredictionProperties.
Context `{Host}.
Local Open Scope float_scope.

Lemma prediction_feature_agrees (features : list string) (current : row) (f : string) :
  moneyline_features_paired features -> f ∈ features ->
  truthy (field current "team1_moneyline") = true ->
  truthy (field current "team2_moneyline") = true ->
  (let both := bool_decide ("team1_moneyline" ∈ features)
               && bool_decide ("team2_moneyline" ∈ features) in
   let ml1 := parseFloat (field current "team1_moneyline") in
   let ml2 := parseFloat (field current "team2_moneyline") in
   let novig := removeVig (moneylineToFairProb (JNum ml1)) (moneylineToFairProb (JNum ml2)) in
   if String.eqb f "team1_moneyline" && both then fst novig
   else if String.eqb f "team2_moneyline" && both then snd novig
   else
     let val := parseFloat (field current f) in
     if Number_isFinite val then val else 0)
  = fst (backtest_feature current f).
Proof.
  intros Hp Hf H1 H2. cbv zeta. unfold backtest_feature.
  unfold js_or. rewrite H1, H2.
  destruct (includes f "moneyline") eqn:Hm.
  - destruct (Hp f Hf Hm) as ([-> | ->] & Hin1 & Hin2);
      rewrite !bool_decide_eq_true_2 by assumption;
      destruct (removeVig _ _) as [fair1 fair2]; reflexivity.
  - assert (String.eqb f "team1_moneyline" = false) as ->
      by (apply String.eqb_neq; intros ->; vm_compute in Hm; discriminate).
    assert (String.eqb f "team2_moneyline" = false) as ->
      by (apply String.eqb_neq; intros ->; vm_compute in Hm; discriminate).
    reflexivity.
Qed.

(** X16.  For a game whose two moneylines are truthy, [calculatePrediction]
    and the backtest feed the model the same features, and so compute the same
    probability that team 1 wins; [calculatePrediction] reports it, and its
    complement, as percentages printed by [toFixed(1)], and only when no
    feature of the model is blank. *)
Theorem prediction_agrees_with_backtest (model : model_params) (current : row) :
  moneyline_features_paired (model_features model) ->
  truthy (field current "team1_moneyline") = true ->
  truthy (field current "team2_moneyline") = true ->
  prediction_features (model_features model) current
    = map fst (map (backtest_feature current) (model_features model)) /\
  prediction_prob model current
    = modelProb_of model (map fst (map (backtest_feature current) (model_features model))) /\
  forall selectedSport book p evs,
    calculatePrediction true (Some model) selectedSport current book = Predicted p evs ->
    team1_win_prob p = toFixed1 (prediction_prob model current * 100) /\
    team2_win_prob p = toFixed1 ((1 - prediction_prob model current) * 100) /\
    Forall (fun f => is_blank (field current f) = false) (model_features model).
Proof.
  intros Hp H1 H2.
  assert (prediction_features (model_features model) current
          = map fst (map (backtest_feature current) (model_features model))) as E.
  { unfold prediction_features. cbv zeta. rewrite map_map.
    apply map_ext_in. intros f Hf. apply list_elem_of_In in Hf.
    apply (prediction_feature_agrees _ _ _ Hp Hf H1 H2). }
  split; [exact E|]. split; [unfold prediction_prob; rewrite E; reflexivity|].
  intros selectedSport book p evs. unfold calculatePrediction. cbn [negb].
  destruct (0 <? length _)%nat eqn:Hmiss; [discriminate|].
  intros [= <- _]. cbn [team1_win_prob team2_win_prob]. repeat apply conj; try reflexivity.
  apply Nat.ltb_ge in Hmiss.
  apply Forall_forall. intros f Hf.
  destruct (is_blank (field current f)) eqn:Eb; [|reflexivity].
  exfalso. assert (f ∈ filter (fun f => is_blank (field current f) = true) (model_features model))
    as Hin by (apply list_elem_of_filter; auto).
  destruct (filter _ _); [inversion Hin | simpl in Hmiss; lia].
Qed.

End PredictionProperties.

(** ** Betting tracker *)

Section TrackerProperties.
Context `{Host}.
Variable toLowerCase : string -> string.
Local Open Scope float_scope.

Lemma completed_has_result (g : Tracker.Game) :
  Tracker.truthy_opt (Tracker.homeScore g) && Tracker.truthy_opt (Tracker.awayScore g) && truthy_text (Tracker.bet g) = true ->
  exists kind p, Tracker.calculateResult toLowerCase g = Some (kind, p).
Proof.
  intros Hc. apply andb_prop in Hc as [Hc Hb]. apply andb_prop in Hc as [Hh Ha].
  unfold Tracker.calculateResult. rewrite Hh, Ha, Hb. cbn [negb orb]. cbv zeta.
  destruct (if Tracker.truthy_opt (Tracker.spread g) && negb (Tracker.isTennisLike (Tracker.sport g)) then _ else _)
    as [won push].
  destruct push; [eauto|]. destruct (negb won); [eauto|].
  destruct (negb (Number_isFinite _)); eauto.
Qed.

Lemma stats_step_counts (acc : nat * nat * nat * float * float) (g : Tracker.Game) :
  Tracker.truthy_opt (Tracker.homeScore g) && Tracker.truthy_opt (Tracker.awayScore g) && truthy_text (Tracker.bet g) = true ->
  let '(w, l, p, _, _) := acc in
  let '(w', l', p', _, _) := Tracker.stats_step toLowerCase acc g in
  (w' + l' + p' = S (w + l + p))%nat.
Proof.
  intros Hc. destruct acc as [[[[w l] p] pr] wg].
  destruct (completed_has_result g Hc) as (kind & x & E).
  unfold Tracker.stats_step. rewrite E. destruct kind; lia.
Qed.

Lemma stats_fold_counts (l : list Tracker.Game) : forall acc : nat * nat * nat * float * float,
  Forall (fun g => Tracker.truthy_opt (Tracker.homeScore g) && Tracker.truthy_opt (Tracker.awayScore g) && truthy_text (Tracker.bet g) = true) l ->
  let '(w, lo, p, _, _) := acc in
  let '(w', l', p', _, _) := fold_left (Tracker.stats_step toLowerCase) l acc in
  (w' + l' + p' = w + lo + p + length l)%nat.
Proof.
  induction l as [|g l IH]; intros acc Hall.
  - destruct acc as [[[[w lo] p] pr] wg]. simpl. lia.
  - apply Forall_cons in Hall as [Hg Hall]. simpl.
    pose proof (stats_step_counts acc g Hg) as Hs.
    specialize (IH (Tracker.stats_step toLowerCase acc g) Hall).
    destruct acc as [[[[w lo] p] pr] wg].
    destruct (Tracker.stats_step toLowerCase (w, lo, p, pr, wg) g) as [[[[w1 l1] p1] pr1] wg1].
    destruct (fold_left _ l _) as [[[[w2 l2] p2] pr2] wg2]. lia.
Qed.

(** X18.  The tracker's [stats] counts every completed game (one with both
    scores and a bet) exactly once, as a win, a loss or a push: the three
    counters add up to [total], the number of completed games. *)
Theorem stats_counts_every_completed_game (games : list Tracker.Game) :
  let s := Tracker.stats toLowerCase games in
  (Tracker.wins s + Tracker.losses s + Tracker.pushes s = Tracker.st_total s)%nat /\
  Tracker.st_total s = length (Tracker.completed games) /\
  (Tracker.st_total s <= length games)%nat.
Proof.
  cbv zeta. unfold Tracker.stats.
  pose proof (stats_fold_counts (Tracker.completed games) (0%nat, 0%nat, 0%nat, 0, 0)) as Hc.
  cbv zeta in Hc.
  destruct (fold_left _ (Tracker.completed games) _) as [[[[w l] p] pr] wg].
  cbn [Tracker.wins Tracker.losses Tracker.pushes Tracker.st_total]. split; [|split; [reflexivity|]].
  - rewrite Hc; [lia|]. unfold Tracker.completed. apply Forall_forall. intros g Hg.
    apply list_elem_of_filter in Hg as [Hg _]. exact Hg.
  - unfold Tracker.completed. apply length_filter.
Qed.

(** X17.  The tracker's [calculateResult] has no result exactly when the bet
    or a score is missing.  A push has a profit of 0 and a loss a profit of
    minus the amount bet; and a bet whose text mentions neither 'home' nor
    'away' never wins. *)
Theorem calculateResult_cases (g : Tracker.Game) :
  (Tracker.calculateResult toLowerCase g = None <->
   truthy_text (Tracker.bet g) && Tracker.truthy_opt (Tracker.homeScore g) && Tracker.truthy_opt (Tracker.awayScore g) = false) /\
  (forall p, Tracker.calculateResult toLowerCase g = Some (Tracker.PushResult, p) -> p = 0) /\
  (forall p, Tracker.calculateResult toLowerCase g = Some (Tracker.Loss, p) -> p = - Tracker.bet_amount g) /\
  (includes (toLowerCase (Tracker.bet g)) "home" = false ->
   includes (toLowerCase (Tracker.bet g)) "away" = false ->
   forall p, Tracker.calculateResult toLowerCase g <> Some (Tracker.Win, p)).
Proof.
  unfold Tracker.calculateResult.
  destruct (truthy_text (Tracker.bet g)), (Tracker.truthy_opt (Tracker.homeScore g)), (Tracker.truthy_opt (Tracker.awayScore g));
    cbn [negb orb andb];
    try (split; [split; intros _; reflexivity|];
         split; [intros p E0; discriminate E0|];
         split; [intros p E0; discriminate E0 | intros _ _ p E0; discriminate E0]).
  cbv zeta.
  destruct (if Tracker.truthy_opt (Tracker.spread g) && negb (Tracker.isTennisLike (Tracker.sport g)) then _ else _)
    as [won push] eqn:E.
  split; [|split; [|split]].
  - split; [|intros E0; discriminate E0].
    destruct push; [intros E0; discriminate E0|].
    destruct (negb won); [intros E0; discriminate E0|].
    destruct (negb (Number_isFinite _)); intros E0; discriminate E0.
  - intros p. destruct push; [congruence|]. destruct (negb won); [discriminate|].
    destruct (negb (Number_isFinite _)); discriminate.
  - intros p. destruct push; [discriminate|]. destruct (negb won); [congruence|].
    destruct (negb (Number_isFinite _)); discriminate.
  - intros Hh Ha p. rewrite Hh, Ha in E. cbn [andb orb] in E.
    assert (won = false) as ->.
    { destruct (Tracker.truthy_opt (Tracker.spread g) && negb (Tracker.isTennisLike (Tracker.sport g))).
      - destruct (Tracker.checkSpreadWinner g) as [[]|]; congruence.
      - destruct (Tracker.checkWinner g) as [[]|]; congruence. }
    destruct push; discriminate.
Qed.

(** X19.  On a game of a sport other than tennis and table tennis that has
    both scores and a spread, the tracker's [checkSpreadWinner] gives the
    answer the prediction model's [checkSpreadWinner] gives for the same
    scores and spread. *)
Theorem tracker_spread_rule_agrees (g : Tracker.Game) (hs as_ sp : string) :
  Tracker.isTennisLike (Tracker.sport g) = false ->
  Tracker.homeScore g = Some hs -> Tracker.awayScore g = Some as_ -> Tracker.spread g = Some sp ->
  hs <> "" -> as_ <> "" -> sp <> "" ->
  Tracker.checkSpreadWinner g = checkSpreadWinner (JStr hs) (JStr as_) (JStr sp).
Proof.
  intros Ht Hh Ha Hs Nh Na Ns. unfold Tracker.checkSpreadWinner, checkSpreadWinner.
  rewrite Ht, Hh, Ha, Hs. unfold Tracker.truthy_opt, truthy_text.
  rewrite !(proj2 (String.eqb_neq _ _)) by assumption. reflexivity.
Qed.

End TrackerProperties.

(** ** Concrete runs of the further properties *)

Section FurtherExamples.
Local Existing Instance test_host.
Local Open Scope float_scope.

(** X2, witness: the line [Chiefs,1] under the header [team1,winner], with
    a [trim] that leaves it as it is. *)
Lemma parseCSV_cell_witness :
  csv_row (fun s => s) ["team1"; "winner"] "Chiefs,1" !! "team1"
  = Some (csv_cell (default "" (split_on comma "Chiefs,1" !! 0%nat))).
Proof.
  apply (parseCSV_cell (fun s => s) ["team1"; "winner"] "Chiefs,1" 0 "team1").
  - reflexivity.
  - discriminate.
  - intros [|[|j]] Hj; [lia | discriminate | discriminate].
Defined.


(** X4, witness: one game appended to the three stored for [form_history]. *)
Lemma appended_upload_witness :
  take (length first_upload_out) second_upload_out = first_upload_out /\
  length second_upload_out = (length first_upload_out + length second_upload)%nat.
Proof.
  apply (appended_upload_keeps_stored_rows "nfl" nfl false [] form_history
           first_upload_out second_upload second_upload_out).
  - reflexivity.
  - apply (is_Some_default []). vm_compute. reflexivity.
  - apply (is_Some_default []). vm_compute. reflexivity.
Defined.

(** X5, witness: the three rows written for [form_history]. *)
Lemma addLast5WinColumns_keeps_rows_witness :
  length form_history_out = length form_history.
Proof.
  apply (addLast5WinColumns_keeps_rows form_history form_history_out).
  apply (is_Some_default []). vm_compute. reflexivity.
Defined.

(** X6, witness: the third row written for [form_history]. *)
Lemma form_values_are_rates_witness :
  exists t1 t2,
    field third_out "team1_last5" = JNum t1 /\ field third_out "team2_last5" = JNum t2 /\
    (0 <=? t1) = true /\ (t1 <=? 1) = true /\ (0 <=? t2) = true /\ (t2 <=? 1) = true.
Proof.
  destruct (form_values_are_rates form_history form_history_out 2 third_out)
    as (t1 & t2 & F1 & F2 & A & B & C & D & _).
  - apply (is_Some_default []). vm_compute. reflexivity.
  - apply (is_Some_default ∅). vm_compute. reflexivity.
  - exists t1, t2. repeat apply conj; assumption.
Defined.

(** X7, witness: the two variants on [form_history]. *)
Lemma variants_agree_witness : length form_history_out = length form_history_out_jsx.
Proof.
  apply (variants_agree_on_plain_rows form_history form_history_out form_history_out_jsx).
  - repeat (apply Forall_cons; split); [| | | apply Forall_nil];
      repeat split; vm_compute; reflexivity.
  - apply (is_Some_default []). vm_compute. reflexivity.
  - apply (is_Some_default []). vm_compute. reflexivity.
Defined.

(** X13, witness: the backtest of [one_bet_data]. *)
Lemma backtest_counters_witness :
  (correct (moneyline (res_bets one_bet_result))
   <= bets (moneyline (res_bets one_bet_result)))%nat /\
  (totalBets one_bet_result <= 3 * gamesTested one_bet_result)%nat.
Proof.
  destruct (backtest_counters true (Some flat_model) nfl one_bet_data one_bet_result)
    as (A & _ & _ & _ & _ & _ & _ & B & _).
  - vm_compute. reflexivity.
  - split; assumption.
Defined.

(** X14, witness: the backtest of the tennis rows, which carry a spread
    and a total. *)
Lemma backtest_skips_unsupported_markets_witness :
  spread_market (res_bets tennis_result) = empty_market /\
  total_market (res_bets tennis_result) = empty_market.
Proof.
  destruct (backtest_skips_unsupported_markets true (Some tennis_model) tennis tennis_data
              tennis_result) as (A & B & _).
  - reflexivity.
  - reflexivity.
  - apply (is_Some_default one_bet_result). vm_compute. reflexivity.
  - split; assumption.
Defined.

(** X16, witness: a game priced -110 on both sides, under [flat_model]. *)
Lemma prediction_agrees_with_backtest_witness :
  prediction_prob flat_model (game "A" "B" (-110) (-110) (JNum 0))
  = modelProb_of flat_model
      (map fst (map (backtest_feature (game "A" "B" (-110) (-110) (JNum 0)))
                    (model_features flat_model))).
Proof.
  apply (prediction_agrees_with_backtest flat_model (game "A" "B" (-110) (-110) (JNum 0))).
  - intros f Hf Hm.
    assert (f = "team1_moneyline" \/ f = "team2_moneyline" \/ f = "team1_last5"
            \/ f = "team2_last5") as Hc.
    { cbn [model_features flat_model] in Hf. unfold team_features in Hf.
      repeat (apply elem_of_cons in Hf as [Hf|Hf]; [auto|]). inversion Hf. }
    split; [|split; [left | right; left]].
    destruct Hc as [->|[->|[->| ->]]]; auto; vm_compute in Hm; discriminate.
  - vm_compute. reflexivity.
  - vm_compute. reflexivity.
Defined.

(** X19, witness: [tracked_game]. *)
Lemma tracker_spread_rule_agrees_witness :
  Tracker.checkSpreadWinner tracked_game
  = checkSpreadWinner (JStr "27") (JStr "24") (JStr "-3.5").
Proof.
  apply (tracker_spread_rule_agrees tracked_game "27" "24" "-3.5");
    first [reflexivity | discriminate].
Defined.

End FurtherExamples.
